(** * Transaction generator (scripts/transaction_generator.py)

    A shallow embedding of the mobile-money transaction generator and the
    properties of its records, batches and exported dataset.

    The script is sequential Python over two seeded pseudo-random generators
    (the [random] module and NumPy's legacy [np.random]) and the wall clock.
    The embedding threads these three sources through a state-and-error
    monad: a generator is a tape of the values it will return, a call reads
    the head of the tape.  Exceptions are results [Err]. *)

From Stdlib Require Import ZArith List String Ascii Bool Lia Permutation Sorted.
From Stdlib Require Import QArith.
From Stdlib Require Import Floats.SpecFloat.
Import ListNotations.

Local Open Scope string_scope.
Local Open Scope list_scope.
Local Open Scope Z_scope.

(** String concatenation, as in an f-string. *)
Notation "a +++ b" := (String.append a b) (at level 60, right associativity).

(** ** Exceptions and results *)

Inductive PyError : Type :=
| ValueError (msg : string)
| IndexError (msg : string)
| KeyError (key : string)
| OverflowError (msg : string).

Inductive Result (A : Type) : Type :=
| Ok (a : A)
| Err (e : PyError).

Arguments Ok {A} a.
Arguments Err {A} e.

Definition is_Ok {A : Type} (r : Result A) : bool :=
  match r with Ok _ => true | Err _ => false end.

(** ** Python numbers

    [amount] is either an [int] (one of the configured bounds) or a [float]
    (the rounded draw).  A float is a binary floating-point datum of
    [SpecFloat]: zero, infinity, NaN or [(-1)^s * m * 2^e]. *)

Inductive PyNum : Type :=
| PyInt (z : Z)
| PyFloat (f : spec_float).

(** The exact value of a number that has one: a dyadic rational
    [num / 2^sh], or an infinity.  NaN has none. *)

Inductive exact : Type :=
| Dyadic (num : Z) (sh : Z)
| NegInf
| PosInf.

Definition signed (s : bool) (m : Z) : Z := if s then - m else m.

Definition float_exact (f : spec_float) : option exact :=
  match f with
  | S754_zero _ => Some (Dyadic 0 0)
  | S754_infinity s => Some (if s then NegInf else PosInf)
  | S754_nan => None
  | S754_finite s m e =>
      if 0 <=? e then Some (Dyadic (signed s (Z.pos m * 2 ^ e)) 0)
      else Some (Dyadic (signed s (Z.pos m)) (- e))
  end.

Definition num_exact (x : PyNum) : option exact :=
  match x with
  | PyInt z => Some (Dyadic z 0)
  | PyFloat f => float_exact f
  end.

(** [a < b] on Python numbers.  Python compares an [int] with a [float] by
    value, without converting the [int]; every comparison with NaN is
    false. *)

Definition exact_ltb (a b : exact) : bool :=
  match a, b with
  | Dyadic n j, Dyadic m k => n * 2 ^ k <? m * 2 ^ j
  | NegInf, NegInf => false
  | NegInf, _ => true
  | _, PosInf => match a with PosInf => false | _ => true end
  | _, _ => false
  end.

Definition py_lt (a b : PyNum) : bool :=
  match num_exact a, num_exact b with
  | Some u, Some v => exact_ltb u v
  | _, _ => false
  end.

(** The builtins [min(a, b)] and [max(a, b)]: the first argument is kept
    unless the second is strictly smaller (resp. larger). *)

Definition py_min (a b : PyNum) : PyNum := if py_lt b a then b else a.
Definition py_max (a b : PyNum) : PyNum := if py_lt a b then b else a.

(** [round(x, 0)] on a float: the nearest integral float, ties to even;
    zeros, infinities and NaN round to themselves.  A float with a
    non-negative exponent is integral already.  The result is written with
    exponent 0; [float_exact] does not depend on the normal form. *)

Definition round_half_even (num : Z) (sh : Z) : Z :=
  let d := 2 ^ sh in
  let q := num / d in
  let r := num mod d in
  match 2 * r ?= d with
  | Lt => q
  | Gt => q + 1
  | Eq => if Z.even q then q else q + 1
  end.

Definition py_round0 (f : spec_float) : spec_float :=
  match f with
  | S754_finite s m e =>
      if 0 <=? e then f
      else
        let n := round_half_even (Z.pos m) (- e) in
        match n with
        | Z.pos p => S754_finite s p 0
        | _ => S754_zero s
        end
  | _ => f
  end.

(** The integer a number denotes, when it denotes one. *)

Definition exact_as_Z (v : exact) : option Z :=
  match v with
  | Dyadic n k => if n mod 2 ^ k =? 0 then Some (n / 2 ^ k) else None
  | _ => None
  end.

Definition num_as_Z (x : PyNum) : option Z :=
  match num_exact x with
  | Some v => exact_as_Z v
  | None => None
  end.

(** Integers and floats meet in two places of [generer_montant]: the true
    division of two [int]s and the sum of an [int] and a [float].  Both
    raise [OverflowError] when the integer result, or operand, rounds beyond
    the largest float: from [2^1024 - 2^970] on, which rounds up to
    [2^1024]. *)
Definition FLOAT_LIMIT : Z := 2 ^ 1024 - 2 ^ 970.

(** [a / b] on two [int]s, for a positive [b]: the quotient as a float
    (kept here with its exact value). *)
Definition int_true_divide (a b : Z) : Result Q :=
  if FLOAT_LIMIT * b <=? Z.abs a
  then Err (OverflowError "integer division result too large for a float")
  else Ok (inject_Z a / inject_Z b)%Q.

(** [n + x] on an [int] and a [float]: the [int] is converted first.  A
    sum of floats that is too large is an infinity, not an exception. *)
Definition int_add_float (n : Z) (x : Q) : Result Q :=
  if FLOAT_LIMIT <=? Z.abs n
  then Err (OverflowError "int too large to convert to float")
  else Ok (inject_Z n + x)%Q.

(** The clamp of [generer_montant]:
    [max(min_val, min(max_val, round(montant, 0)))]. *)

Definition clamp_montant (min_val max_val : Z) (montant : spec_float) : PyNum :=
  py_max (PyInt min_val) (py_min (PyInt max_val) (PyFloat (py_round0 montant))).

(** ** Text

    [str(n)] of an integer, as an f-string renders it: decimal digits, most
    significant first, with a leading minus sign for a negative number.
    The recursion divides by ten; the first argument bounds the number of
    steps and is consumed bit by bit. *)

Definition digit_char (d : Z) : ascii := ascii_of_nat (48 + Z.to_nat d).

Fixpoint digits_of (fuel : positive) (n : Z) (acc : string) : string :=
  let acc' := String (digit_char (n mod 10)) acc in
  if n <? 10 then acc'
  else
    match fuel with
    | xH => acc'
    | xO f | xI f => digits_of f (n / 10) acc'
    end.

Definition str_nat (n : Z) : string := digits_of (Z.to_pos n) n "".

Definition str_of_Z (n : Z) : string :=
  if n <? 0 then String "-" (str_nat (- n)) else str_nat n.

(** [int(s)] on a string of decimal digits, from the accumulator [acc]. *)
Fixpoint digits_value (acc : Z) (s : string) : Z :=
  match s with
  | EmptyString => acc
  | String c s' => digits_value (acc * 10 + (Z.of_nat (nat_of_ascii c) - 48)) s'
  end.

(** [%02d] and [%04d]. *)

Definition pad2 (n : Z) : string :=
  if n <? 10 then String "0" (str_nat n) else str_nat n.

Definition pad4 (n : Z) : string :=
  if n <? 10 then "000" +++ str_nat n
  else if n <? 100 then "00" +++ str_nat n
  else if n <? 1000 then String "0" (str_nat n)
  else str_nat n.

Definition is_digit (c : ascii) : bool :=
  let k := nat_of_ascii c in (48 <=? k)%nat && (k <=? 57)%nat.

Fixpoint count_char (c : ascii) (s : string) : nat :=
  match s with
  | EmptyString => O
  | String a s' => (if Ascii.eqb a c then 1 else 0) + count_char c s'
  end.

Fixpoint all_digits (s : string) : bool :=
  match s with
  | EmptyString => true
  | String a s' => is_digit a && all_digits s'
  end.

(** ** Naive date-times

    A [datetime] without time zone is a point of the proleptic Gregorian
    time line; it is kept as the number of microseconds since
    0001-01-01 00:00:00, the representation in which [datetime + timedelta]
    is carried out (days, seconds and microseconds, without rounding).  The
    representable range is years 1 to 9999; arithmetic that leaves it raises
    [OverflowError]. *)

Definition datetime := Z.
Definition timedelta := Z.

Definition US_PER_SECOND : Z := 1000000.
Definition US_PER_HOUR : Z := 3600 * US_PER_SECOND.
Definition US_PER_DAY : Z := 24 * US_PER_HOUR.
Definition MAXORDINAL : Z := 3652059.

Definition timedelta_days (d : Z) : timedelta := d * US_PER_DAY.
Definition timedelta_hours (h : Z) : timedelta := h * US_PER_HOUR.

Definition datetime_in_range (t : Z) : bool :=
  (0 <=? t) && (t <? MAXORDINAL * US_PER_DAY).

Definition datetime_add (t : datetime) (d : timedelta) : Result datetime :=
  if datetime_in_range (t + d) then Ok (t + d)
  else Err (OverflowError "date value out of range").

Definition datetime_sub (t : datetime) (d : timedelta) : Result datetime :=
  datetime_add t (- d).

(** Calendar fields.  [ord2ymd] is the conversion of a day ordinal
    (0001-01-01 is day 1) to year, month and day of the [datetime]
    module. *)

Definition DAYS_IN_MONTH (m : Z) : Z :=
  match m with
  | 1 => 31 | 2 => 28 | 3 => 31 | 4 => 30 | 5 => 31 | 6 => 30
  | 7 => 31 | 8 => 31 | 9 => 30 | 10 => 31 | 11 => 30 | 12 => 31
  | _ => -1
  end.

Definition DAYS_BEFORE_MONTH (m : Z) : Z :=
  match m with
  | 1 => 0 | 2 => 31 | 3 => 59 | 4 => 90 | 5 => 120 | 6 => 151
  | 7 => 181 | 8 => 212 | 9 => 243 | 10 => 273 | 11 => 304 | 12 => 334
  | _ => -1
  end.

Definition ord2ymd (ordinal : Z) : Z * Z * Z :=
  let n := ordinal - 1 in
  let n400 := n / 146097 in
  let n := n mod 146097 in
  let year := n400 * 400 + 1 in
  let n100 := n / 36524 in
  let n := n mod 36524 in
  let n4 := n / 1461 in
  let n := n mod 1461 in
  let n1 := n / 365 in
  let n := n mod 365 in
  let year := year + n100 * 100 + n4 * 4 + n1 in
  if (n1 =? 4) || (n100 =? 4) then (year - 1, 12, 31)
  else
    let leapyear := (n1 =? 3) && (negb (n4 =? 24) || (n100 =? 3)) in
    let month := Z.shiftr (n + 50) 5 in
    let preceding :=
      DAYS_BEFORE_MONTH month + (if (2 <? month) && leapyear then 1 else 0) in
    if n <? preceding then
      let month := month - 1 in
      let preceding :=
        preceding
        - (DAYS_IN_MONTH month + (if (month =? 2) && leapyear then 1 else 0)) in
      (year, month, n - preceding + 1)
    else (year, month, n - preceding + 1).

Definition dt_second (t : datetime) : Z := (t mod US_PER_DAY) / US_PER_SECOND mod 60.
Definition dt_minute (t : datetime) : Z := (t mod US_PER_DAY) / US_PER_SECOND / 60 mod 60.
Definition dt_hour (t : datetime) : Z := (t mod US_PER_DAY) / US_PER_HOUR.

(** A date-time without its fraction of a second. *)
Definition dt_truncate (t : datetime) : datetime := t - t mod US_PER_SECOND.

(** The clock part [HH:MM:SS] and the whole of
    [strftime('%Y-%m-%d %H:%M:%S')]; the fraction of a second is not
    printed.  The year is printed on four digits, which is what every
    platform does from year 1000 on. *)

Definition strftime_clock (t : datetime) : string :=
  pad2 (dt_hour t) +++ ":" +++ pad2 (dt_minute t) +++ ":" +++ pad2 (dt_second t).

Definition strftime_date (t : datetime) : string :=
  let '(y, m, d) := ord2ymd (t / US_PER_DAY + 1) in
  pad4 y +++ "-" +++ pad2 m +++ "-" +++ pad2 d.

Definition strftime (t : datetime) : string :=
  strftime_date t +++ " " +++ strftime_clock t.

(** *** The calendar, piece by piece

    What the proofs about the order of timestamps use: the two halves of
    [ord2ymd], the leap-year rule, and the fields behind the text. *)

(** The year with the day of the year (from 0) and the leap flag, then the
    month and the day. *)
Definition ord2yd (ordinal : Z) : Z * Z * bool :=
  let n := ordinal - 1 in
  let n400 := n / 146097 in
  let n := n mod 146097 in
  let year := n400 * 400 + 1 in
  let n100 := n / 36524 in
  let n := n mod 36524 in
  let n4 := n / 1461 in
  let n := n mod 1461 in
  let n1 := n / 365 in
  let n := n mod 365 in
  let year := year + n100 * 100 + n4 * 4 + n1 in
  if (n1 =? 4) || (n100 =? 4) then (year - 1, 365, true)
  else (year, n, (n1 =? 3) && (negb (n4 =? 24) || (n100 =? 3))).

Definition yd2md (n : Z) (leapyear : bool) : Z * Z :=
  let month := Z.shiftr (n + 50) 5 in
  let preceding :=
    DAYS_BEFORE_MONTH month + (if (2 <? month) && leapyear then 1 else 0) in
  if n <? preceding then
    let month := month - 1 in
    let preceding :=
      preceding
      - (DAYS_IN_MONTH month + (if (month =? 2) && leapyear then 1 else 0)) in
    (month, n - preceding + 1)
  else (month, n - preceding + 1).

Definition is_leap (y : Z) : bool :=
  (y mod 4 =? 0) && (negb (y mod 100 =? 0) || (y mod 400 =? 0)).

Definition days_before_year (y : Z) : Z :=
  (y - 1) * 365 + (y - 1) / 4 - (y - 1) / 100 + (y - 1) / 400.

(** Month and day as one number, for comparisons. *)
Definition md_code (n : Z) (leapyear : bool) : Z :=
  let '(m, d) := yd2md n leapyear in m * 32 + d.

(** What has to hold of [yd2md] on a day of the year and the next. *)
Definition yd2md_step_ok (leapyear : bool) (i : nat) : bool :=
  let n := Z.of_nat i in
  let days := 365 + (if leapyear then 1 else 0) in
  let '(m, d) := yd2md n leapyear in
  if n <? days then
    (1 <=? m) && (m <=? 12) && (1 <=? d) && (d <=? 31)
    && ((days <=? n + 1) || (md_code n leapyear <? md_code (n + 1) leapyear))
  else true.

(** The text of the fields, as [strftime] lays them out. *)
Definition format_fields (f : list Z) : string :=
  match f with
  | [y; m; d; h; mi; s] =>
      pad4 y +++ "-" +++ pad2 m +++ "-" +++ pad2 d +++ " "
      +++ pad2 h +++ ":" +++ pad2 mi +++ ":" +++ pad2 s
  | _ => ""
  end.

(** The first comparison that is not [Eq]. *)
Fixpoint lex_compare (a b : list Z) : comparison :=
  match a, b with
  | x :: a', y :: b' =>
      match x ?= y with
      | Eq => lex_compare a' b'
      | c => c
      end
  | _, _ => Eq
  end.

(** Date and time of day of a date-time, as numbers. *)
Definition dt_fields (t : datetime) : list Z :=
  let '(y, m, d) := ord2ymd (t / US_PER_DAY + 1) in
  [y; m; d; dt_hour t; dt_minute t; dt_second t].

(** ** The random sources and the clock

    A tape holds the values a source will deliver, in call order. *)

Definition tape (A : Type) : Type := nat -> A.
Definition tape_hd {A : Type} (t : tape A) : A := t O.
Definition tape_tl {A : Type} (t : tape A) : tape A := fun k => t (S k).

(** One reading of the wall clock: the naive local time that
    [datetime.now()] returns and the integer [int(time.time()*1000)]. *)

Record ClockReading : Type := mkClockReading {
  local_now : Z;
  epoch_ms : Z
}.

(** [np_uniform]: the 53-bit integers behind NumPy's [random_sample()];
    [np_lognormal]: the samples [np.random.lognormal] returns;
    [py_random]: the outcomes behind [random._randbelow];
    [clock]: the successive clock readings. *)

Record World : Type := mkWorld {
  np_uniform : tape Z;
  np_lognormal : tape spec_float;
  py_random : tape Z;
  clock : tape ClockReading
}.

Definition M (A : Type) : Type := World -> Result (A * World).

Definition ret {A : Type} (a : A) : M A := fun w => Ok (a, w).

Definition bind {A B : Type} (c : M A) (k : A -> M B) : M B :=
  fun w =>
    match c w with
    | Ok (a, w') => k a w'
    | Err e => Err e
    end.

Definition raise {A : Type} (e : PyError) : M A := fun _ => Err e.

Definition lift {A : Type} (r : Result A) : M A :=
  fun w => match r with Ok a => Ok (a, w) | Err e => Err e end.

Notation "x <- c ;; k" := (bind c (fun x => k))
  (at level 61, c at next level, right associativity).

(** *** The [random] module *)

(** [_randbelow(n)] for [n > 0]: a value of [0 .. n-1].  The tape gives
    the draw, which is brought into the range; the generator behind it
    (the Mersenne Twister, with rejection sampling) is not modelled. *)
Definition random_randbelow (n : Z) : M Z :=
  fun w =>
    Ok (tape_hd (py_random w) mod n,
        mkWorld (np_uniform w) (np_lognormal w) (tape_tl (py_random w)) (clock w)).

(** [random.choice(seq)]. *)
Definition random_choice {A : Type} (items : list A) : M A :=
  match items with
  | [] => raise (IndexError "Cannot choose from an empty sequence")
  | a :: _ =>
      i <- random_randbelow (Z.of_nat (List.length items)) ;;
      ret (nth (Z.to_nat i) items a)
  end.

(** [random.randint(a, b)], that is [randrange(a, b+1)]: both ends
    included. *)
Definition random_randint (a b : Z) : M Z :=
  let width := b + 1 - a in
  if 0 <? width then
    i <- random_randbelow width ;;
    ret (a + i)
  else raise (ValueError "empty range for randrange()").

(** *** [np.random] *)

(** [random_sample()]: a double of [[0, 1)] with 53 random bits. *)
Definition np_random_sample : M Q :=
  fun w =>
    Ok (Qmake (tape_hd (np_uniform w) mod 2 ^ 53) (2 ^ 53),
        mkWorld (tape_tl (np_uniform w)) (np_lognormal w) (py_random w) (clock w)).

(** [np.random.lognormal(mean=np.log(m), sigma)].  The parameters shape the
    distribution of the sample and nothing else; the sample itself is read
    from the tape.  No parameter value raises ([sigma] is 0.8). *)
Definition np_random_lognormal (m sigma : Q) : M spec_float :=
  fun w =>
    Ok (tape_hd (np_lognormal w),
        mkWorld (np_uniform w) (tape_tl (np_lognormal w)) (py_random w) (clock w)).

Fixpoint cumsum (acc : Q) (p : list Q) : list Q :=
  match p with
  | [] => []
  | x :: p' => (acc + x)%Q :: cumsum (acc + x)%Q p'
  end.

Definition Qsum (p : list Q) : Q := fold_left Qplus p 0%Q.

(** The tolerance of the check on the weights: the square root of the
    machine epsilon of [float64], [2^-26]. *)
Definition atol : Q := Qmake 1 (2 ^ 26).

Definition Qabs_diff (a b : Q) : Q :=
  if Qle_bool a b then (b - a)%Q else (a - b)%Q.

(** [cdf.searchsorted(u, side='right')] on a non-decreasing [cdf]: the
    number of entries that are [<= u]. *)
Definition searchsorted_right (cdf : list Q) (u : Q) : nat :=
  List.length (filter (fun c => Qle_bool c u) cdf).

(** [np.random.choice(a, p=p)] for one sample.  The weights are taken with
    their exact values: the rounding of the float sums (about 1e-16) is not
    modelled, it is far below the tolerance. *)
Definition np_random_choice (a : list string) (p : list Q) : M string :=
  match a with
  | [] => raise (ValueError "'a' cannot be empty unless no samples are taken")
  | a0 :: _ =>
      if negb (List.length p =? List.length a)%nat then
        raise (ValueError "'a' and 'p' must have same size")
      else if existsb (fun x => negb (Qle_bool 0 x)) p then
        raise (ValueError "probabilities are not non-negative")
      else if negb (Qle_bool (Qabs_diff (Qsum p) 1) atol) then
        raise (ValueError "probabilities do not sum to 1")
      else
        let cdf := cumsum 0 p in
        let total := Qsum p in
        let cdf := map (fun c => (c / total)%Q) cdf in
        u <- np_random_sample ;;
        match nth_error a (searchsorted_right cdf u) with
        | Some x => ret x
        | None => raise (IndexError "index out of bounds")
        end
  end.

(** *** The clock *)

Definition clock_tick (w : World) : World :=
  mkWorld (np_uniform w) (np_lognormal w) (py_random w) (tape_tl (clock w)).

(** [datetime.now()].  A reading outside the representable years cannot be
    made into a [datetime]. *)
Definition datetime_now : M datetime :=
  fun w =>
    let t := local_now (tape_hd (clock w)) in
    if datetime_in_range t then Ok (t, clock_tick w)
    else Err (ValueError "year is out of range").

(** [int(time.time()*1000)]. *)
Definition time_time_ms : M Z :=
  fun w => Ok (epoch_ms (tape_hd (clock w)), clock_tick w).

(** ** Configuration

    The module-level tables.  A [dict] is kept as the list of its items in
    insertion order, keys distinct. *)

Record Config : Type := mkConfig {
  VILLES : list string;
  TRANSACTION_TYPES : list (string * Q);
  OPERATEURS : list string;
  MONTANT_RANGES : list (string * (Z * Z))
}.

Definition CONFIG : Config := {|
  VILLES := ["Dakar"; "Thiès"; "Saint-Louis"; "Kaolack"; "Ziguinchor"];
  TRANSACTION_TYPES :=
    [("transfer", Qmake 45 100); ("payment", Qmake 30 100);
     ("withdrawal", Qmake 20 100); ("deposit", Qmake 5 100)];
  OPERATEURS := ["Orange Money"; "Wave"; "Free Money"; "Wizall"];
  MONTANT_RANGES :=
    [("transfer", (1000, 100000)); ("payment", (500, 50000));
     ("withdrawal", (5000, 200000)); ("deposit", (10000, 500000))]
|}.

Fixpoint dict_get {V : Type} (d : list (string * V)) (k : string) : option V :=
  match d with
  | [] => None
  | (k', v) :: d' => if String.eqb k' k then Some v else dict_get d' k
  end.

(** ** Records *)

Record Transaction : Type := mkTransaction {
  transaction_id : string;
  timestamp : string;
  user_id : string;
  amount : PyNum;
  city : string;
  transaction_type : string;
  operator : string;
  status : string
}.

Definition set_timestamp (t : Transaction) (ts : string) : Transaction :=
  mkTransaction (transaction_id t) ts (user_id t) (amount t) (city t)
                (transaction_type t) (operator t) (status t).

Definition PREFIXES : list string := ["77"; "78"; "76"; "70"; "75"].

Definition format_user_id (prefix : string) (n : Z) : string :=
  "user_" +++ prefix +++ str_of_Z n.

Definition format_transaction_id (ms suffix : Z) : string :=
  "TXN" +++ str_of_Z ms +++ "_" +++ str_of_Z suffix.

(** ** The generator *)

Section Generator.

Variable cfg : Config.

Definition generer_montant (transaction_type : string) : M PyNum :=
  match dict_get (MONTANT_RANGES cfg) transaction_type with
  | None => raise (KeyError transaction_type)
  | Some (min_val, max_val) =>
      third <- lift (int_true_divide (max_val - min_val) 3) ;;
      m <- lift (int_add_float min_val third) ;;
      montant <- np_random_lognormal m (Qmake 8 10) ;;
      ret (clamp_montant min_val max_val montant)
  end.

Definition generer_user_id : M string :=
  prefix <- random_choice PREFIXES ;;
  n <- random_randint 1000000 9999999 ;;
  ret (format_user_id prefix n).

Definition generer_transaction : M Transaction :=
  trans_type <-
    np_random_choice (map fst (TRANSACTION_TYPES cfg))
                     (map snd (TRANSACTION_TYPES cfg)) ;;
  amount <- generer_montant trans_type ;;
  city <- random_choice (VILLES cfg) ;;
  operator <- random_choice (OPERATEURS cfg) ;;
  user_id <- generer_user_id ;;
  timestamp <- datetime_now ;;
  ms <- time_time_ms ;;
  suffix <- random_randint 1000 9999 ;;
  ret (mkTransaction (format_transaction_id ms suffix)
                     (strftime timestamp) user_id amount city trans_type
                     operator "completed").

(** The body of the loop of [generer_batch_transactions], [count] times;
    the progress lines it prints are not part of the data. *)
Fixpoint generer_loop (base_date : datetime) (count : nat)
         (transactions : list Transaction) : M (list Transaction) :=
  match count with
  | O => ret transactions
  | S count' =>
      trans <- generer_transaction ;;
      offset_hours <- random_randint 0 (7 * 24) ;;
      timestamp <- lift (datetime_add base_date (timedelta_hours offset_hours)) ;;
      generer_loop base_date count'
                   (transactions ++ [set_timestamp trans (strftime timestamp)])
  end.

End Generator.

(** ** Data frames

    A data frame is the list of its rows, in index order.  Building one
    from the list of records gives the [amount] column one dtype: [float64]
    as soon as one amount is a float, integers otherwise.  The conversion of
    an integer is exact below [2^53], which covers every bound of
    [MONTANT_RANGES]. *)

Definition DataFrame : Type := list Transaction.

Definition is_float (x : PyNum) : bool :=
  match x with PyFloat _ => true | PyInt _ => false end.

Definition to_float (x : PyNum) : PyNum :=
  match x with
  | PyFloat _ => x
  | PyInt 0 => PyFloat (S754_zero false)
  | PyInt (Z.pos p) => PyFloat (S754_finite false p 0)
  | PyInt (Z.neg p) => PyFloat (S754_finite true p 0)
  end.

Definition upcast_amount (t : Transaction) : Transaction :=
  mkTransaction (transaction_id t) (timestamp t) (user_id t)
                (to_float (amount t)) (city t) (transaction_type t)
                (operator t) (status t).

Definition pd_DataFrame (records : list Transaction) : DataFrame :=
  if existsb (fun t => is_float (amount t)) records
  then map upcast_amount records
  else records.

(** [take]: the rows at the given positions, in the given order. *)
Definition take {A : Type} (rows : list A) (indexer : list nat) : list A :=
  flat_map (fun i => match nth_error rows i with
                     | Some r => [r]
                     | None => []
                     end) indexer.

Definition str_le (a b : string) : Prop := String.leb a b = true.

(** What [argsort] of the default kind (quicksort) promises: the positions
    [0 .. n-1], each once, in an order in which the keys ascend.  The
    relative order of equal keys is left to the algorithm. *)
Definition argsort_contract (argsort : list string -> list nat) : Prop :=
  forall keys : list string,
    Permutation (argsort keys) (seq 0 (List.length keys))
    /\ Sorted str_le (take keys (argsort keys)).

Section Batch.

Variable cfg : Config.

(** The indirect sort behind [sort_values]. *)
Variable argsort : list string -> list nat.

(** [df.sort_values('timestamp').reset_index(drop=True)].  A frame built
    from an empty list has no column, and the lookup of the sort key
    fails. *)
Definition sort_values_timestamp (df : DataFrame) : Result DataFrame :=
  match df with
  | [] => Err (KeyError "timestamp")
  | _ => Ok (take df (argsort (map timestamp df)))
  end.

Definition generer_batch_transactions (n_transactions : Z) : M DataFrame :=
  now <- datetime_now ;;
  base_date <- lift (datetime_sub now (timedelta_days 7)) ;;
  transactions <- generer_loop cfg base_date (Z.to_nat n_transactions) [] ;;
  lift (sort_values_timestamp (pd_DataFrame transactions)).

End Batch.

(** ** Export

    [df.to_csv(path, index=False, encoding='utf-8')]: a header line, then
    one line per row; a field is quoted when it holds a comma, a quote or a
    line break. *)

Definition QUOTE : ascii := "034"%char.
Definition LF : ascii := "010"%char.
Definition CR : ascii := "013"%char.

Fixpoint needs_quote (s : string) : bool :=
  match s with
  | EmptyString => false
  | String c s' =>
      Ascii.eqb c "," || Ascii.eqb c QUOTE || Ascii.eqb c LF || Ascii.eqb c CR
      || needs_quote s'
  end.

Fixpoint escape_quotes (s : string) : string :=
  match s with
  | EmptyString => EmptyString
  | String c s' =>
      if Ascii.eqb c QUOTE then String QUOTE (String QUOTE (escape_quotes s'))
      else String c (escape_quotes s')
  end.

Definition csv_field (s : string) : string :=
  if needs_quote s then String QUOTE (escape_quotes s +++ String QUOTE "")
  else s.

(** An amount as text: an integer in decimal; an integral float with a
    trailing [.0] (the shortest form that reads back, below [10^16]). *)
Definition csv_amount (x : PyNum) : string :=
  match x with
  | PyInt z => str_of_Z z
  | PyFloat (S754_zero true) => "-0.0"
  | PyFloat _ =>
      match num_as_Z x with
      | Some z => str_of_Z z +++ ".0"
      | None => ""
      end
  end.

Fixpoint join (sep : string) (fields : list string) : string :=
  match fields with
  | [] => ""
  | [f] => f
  | f :: fs => f +++ sep +++ join sep fs
  end.

Definition csv_header : string :=
  "transaction_id,timestamp,user_id,amount,city,transaction_type,operator,status".

Definition csv_row (t : Transaction) : string :=
  join "," [csv_field (transaction_id t); csv_field (timestamp t);
            csv_field (user_id t); csv_amount (amount t); csv_field (city t);
            csv_field (transaction_type t); csv_field (operator t);
            csv_field (status t)].

Definition to_csv (df : DataFrame) : string :=
  fold_right (fun line rest => line +++ String LF rest) ""
             (csv_header :: map csv_row df).

(** The lines of a text, as [str.splitlines] gives them for a text whose
    only line break is the line feed: the stretches between line feeds,
    and what follows the last one when it is not empty. *)
Fixpoint text_lines (s : string) : list string :=
  match s with
  | EmptyString => []
  | String c s' =>
      if Ascii.eqb c LF then EmptyString :: text_lines s'
      else match text_lines s' with
           | [] => [String c EmptyString]
           | line :: rest => String c line :: rest
           end
  end.

(** The fields of a line without quoted field, as [str.split(sep)] gives
    them. *)
Fixpoint split_on (sep : ascii) (s : string) : list string :=
  match s with
  | EmptyString => [EmptyString]
  | String c s' =>
      if Ascii.eqb c sep then EmptyString :: split_on sep s'
      else match split_on sep s' with
           | [] => [String c EmptyString]
           | field :: rest => String c field :: rest
           end
  end.

(** A line of eight fields, none of them quoted. *)
Definition eight_plain_fields (line : string) : Prop :=
  List.length (split_on "," line) = 8%nat
  /\ count_char "," line = 7%nat
  /\ count_char QUOTE line = O
  /\ count_char CR line = O.

(** ** The script

    The two generators are seeded once, at import; then the batch is built
    and written.  [np_seed] and [py_seed] stand for the Mersenne Twister
    streams of [np.random.seed] and [random.seed]. *)

Section Script.

Variable np_seed : Z -> tape Z * tape spec_float.
Variable py_seed : Z -> tape Z.
Variable argsort : list string -> list nat.

Definition boot (clk : tape ClockReading) : World :=
  mkWorld (fst (np_seed 42)) (snd (np_seed 42)) (py_seed 42) clk.

(** Generation followed by export, for a configuration and a count. *)
Definition pipeline (cfg : Config) (n_transactions : Z) : M string :=
  df <- generer_batch_transactions cfg argsort n_transactions ;;
  ret (to_csv df).

Definition run (cfg : Config) (n_transactions : Z)
           (clk : tape ClockReading) : Result string :=
  match pipeline cfg n_transactions (boot clk) with
  | Ok (csv, _) => Ok csv
  | Err e => Err e
  end.

End Script.

(** ** Two indirect sorts

    Both sort by insertion and meet [argsort_contract]; they differ on equal
    keys.  [argsort_with String.leb] puts an item before the equal items
    that follow it, [argsort_with String.ltb] after them. *)

Fixpoint insert_by (before : string -> string -> bool) (x : string * nat)
         (l : list (string * nat)) : list (string * nat) :=
  match l with
  | [] => [x]
  | y :: l' =>
      if before (fst x) (fst y) then x :: l else y :: insert_by before x l'
  end.

Fixpoint isort_by (before : string -> string -> bool)
         (l : list (string * nat)) : list (string * nat) :=
  match l with
  | [] => []
  | x :: l' => insert_by before x (isort_by before l')
  end.

Definition argsort_with (before : string -> string -> bool)
           (keys : list string) : list nat :=
  map snd (isort_by before (combine keys (seq 0 (List.length keys)))).

Definition argsort_stable : list string -> list nat := argsort_with String.leb.
Definition argsort_reversing : list string -> list nat := argsort_with String.ltb.

(** ** The sort behind [sort_values]: NumPy's indirect quicksort

    [sort_values('timestamp')] takes the default [kind='quicksort'] and
    sorts the column through [nargsort], which, for a column held as a
    NumPy array of Python strings (dtype [object]) without missing values,
    is [values.argsort(kind='quicksort')].  For that dtype NumPy has no
    sort of its own and runs the generic [npy_aquicksort] of
    [npysort/quicksort] on the positions [0 .. num-1], with
    [npy_aheapsort] of [npysort/heapsort] when the depth limit is passed.
    Both are transcribed below, loop by loop; [tosort] is the array of
    positions, a pointer into it is its offset, and each loop has a
    [fuel] that bounds its iterations ([None]: the fuel did not
    suffice). *)

Section NumPySort.

(** The keys, [v]. *)
Variable v : list string.

(** [cmp(v[i], v[j]) < 0], where [v[i]] stands for the key at
    [v + i*elsize]: the first string is less than the second. *)
Definition cmp_lt (i j : nat) : bool :=
  String.ltb (nth i v EmptyString) (nth j v EmptyString).

Definition deref (tosort : list nat) (p : Z) : nat :=
  nth (Z.to_nat p) tosort O.

Fixpoint assign_at (tosort : list nat) (k : nat) (x : nat) : list nat :=
  match tosort, k with
  | [], _ => []
  | _ :: rest, O => x :: rest
  | y :: rest, S k' => y :: assign_at rest k' x
  end.

Definition assign (tosort : list nat) (p : Z) (x : nat) : list nat :=
  assign_at tosort (Z.to_nat p) x.

Definition INTP_SWAP (tosort : list nat) (p q : Z) : list nat :=
  assign (assign tosort p (deref tosort q)) q (deref tosort p).

Definition SMALL_QUICKSORT : Z := 16.

(** [npy_get_msb]: the number of times [unum] can be halved before it is
    zero. *)
Definition npy_get_msb (unum : Z) : Z := Z.log2 unum.

(** *** [npy_aheapsort]

    [a = tosort - 1]: the heap is indexed from 1; [base] is the offset of
    [a]. *)

(** [for (i = l, j = l<<1; j <= n;) { ... } a[i] = tmp;] *)
Fixpoint sift_down (fuel : nat) (tosort : list nat) (base n : Z) (tmp : nat)
         (i j : Z) : option (list nat) :=
  match fuel with
  | O => None
  | S fuel' =>
      if j <=? n then
        let j := if (j <? n)
                    && cmp_lt (deref tosort (base + j))
                              (deref tosort (base + (j + 1)))
                 then j + 1 else j in
        if cmp_lt tmp (deref tosort (base + j))
        then sift_down fuel' (assign tosort (base + i) (deref tosort (base + j)))
                       base n tmp j (j + j)
        else Some (assign tosort (base + i) tmp)
      else Some (assign tosort (base + i) tmp)
  end.

(** [for (l = n>>1; l > 0; --l) { tmp = a[l]; ... }] *)
Fixpoint heapify (fuel : nat) (tosort : list nat) (base n l : Z)
  : option (list nat) :=
  match fuel with
  | O => None
  | S fuel' =>
      if 0 <? l then
        match sift_down (S (List.length tosort)) tosort base n
                        (deref tosort (base + l)) l (Z.shiftl l 1) with
        | Some tosort => heapify fuel' tosort base n (l - 1)
        | None => None
        end
      else Some tosort
  end.

(** [for (; n > 1;) { tmp = a[n]; a[n] = a[1]; n -= 1; ... }] *)
Fixpoint heap_drain (fuel : nat) (tosort : list nat) (base n : Z)
  : option (list nat) :=
  match fuel with
  | O => None
  | S fuel' =>
      if 1 <? n then
        let tmp := deref tosort (base + n) in
        let tosort := assign tosort (base + n) (deref tosort (base + 1)) in
        let n := n - 1 in
        match sift_down (S (List.length tosort)) tosort base n tmp 1 2 with
        | Some tosort => heap_drain fuel' tosort base n
        | None => None
        end
      else Some tosort
  end.

(** [npy_aheapsort(vv, tosort, n, varr)], called on the [n] positions from
    offset [start]. *)
Definition npy_aheapsort (tosort : list nat) (start n : Z) : option (list nat) :=
  let base := start - 1 in
  match heapify (S (List.length tosort)) tosort base n (Z.shiftr n 1) with
  | Some tosort => heap_drain (S (List.length tosort)) tosort base n
  | None => None
  end.

(** *** [npy_aquicksort] *)

(** [do { ++pi; } while (cmp(v[*pi], vp) < 0 && pi < pj);] *)
Fixpoint scan_up (fuel : nat) (tosort : list nat) (vp : nat) (pi pj : Z)
  : option Z :=
  match fuel with
  | O => None
  | S fuel' =>
      let pi := pi + 1 in
      if cmp_lt (deref tosort pi) vp && (pi <? pj)
      then scan_up fuel' tosort vp pi pj
      else Some pi
  end.

(** [do { --pj; } while (cmp(vp, v[*pj]) < 0 && pi < pj);] *)
Fixpoint scan_down (fuel : nat) (tosort : list nat) (vp : nat) (pi pj : Z)
  : option Z :=
  match fuel with
  | O => None
  | S fuel' =>
      let pj := pj - 1 in
      if cmp_lt vp (deref tosort pj) && (pi <? pj)
      then scan_down fuel' tosort vp pi pj
      else Some pj
  end.

(** [for (;;) { (scan up); (scan down); if (pi >= pj) break;
    INTP_SWAP(pi, pj); }], which leaves [tosort] and [pi]. *)
Fixpoint partition_scan (fuel : nat) (tosort : list nat) (vp : nat) (pi pj : Z)
  : option (list nat * Z) :=
  match fuel with
  | O => None
  | S fuel' =>
      match scan_up (S (List.length tosort)) tosort vp pi pj with
      | None => None
      | Some pi =>
          match scan_down (S (List.length tosort)) tosort vp pi pj with
          | None => None
          | Some pj =>
              if pj <=? pi then Some (tosort, pi)
              else partition_scan fuel' (INTP_SWAP tosort pi pj) vp pi pj
          end
      end
  end.

(** One pass of the body of [while ((pr - pl) > SMALL_QUICKSORT)], up to
    the final place [pi] of the pivot: median of three, the pivot put at
    [pr - 1], the scans, the pivot put back. *)
Definition partition (tosort : list nat) (pl pr : Z) : option (list nat * Z) :=
  let pm := pl + Z.shiftr (pr - pl) 1 in
  let tosort := if cmp_lt (deref tosort pm) (deref tosort pl)
                then INTP_SWAP tosort pm pl else tosort in
  let tosort := if cmp_lt (deref tosort pr) (deref tosort pm)
                then INTP_SWAP tosort pr pm else tosort in
  let tosort := if cmp_lt (deref tosort pm) (deref tosort pl)
                then INTP_SWAP tosort pm pl else tosort in
  let vp := deref tosort pm in
  let pi := pl in
  let pj := pr - 1 in
  let tosort := INTP_SWAP tosort pm pj in
  match partition_scan (S (List.length tosort)) tosort vp pi pj with
  | None => None
  | Some (tosort, pi) =>
      let pk := pr - 1 in
      Some (INTP_SWAP tosort pi pk, pi)
  end.

(** A partition left for later: its bounds on the stack [sptr] and its
    depth on the stack [psdepth], which grow and shrink together. *)
Definition Pending : Type := (Z * Z * Z)%type.

(** [while ((pr - pl) > SMALL_QUICKSORT) { (partition); (push the largest
    part on the stack); *psdepth++ = --cdepth; }] *)
Fixpoint partition_while (fuel : nat) (tosort : list nat) (pl pr cdepth : Z)
         (stack : list Pending) : option (list nat * Z * Z * list Pending) :=
  match fuel with
  | O => None
  | S fuel' =>
      if SMALL_QUICKSORT <? pr - pl then
        match partition tosort pl pr with
        | None => None
        | Some (tosort, pi) =>
            let cdepth := cdepth - 1 in
            if pi - pl <? pr - pi
            then partition_while fuel' tosort pl (pi - 1) cdepth
                                 ((pi + 1, pr, cdepth) :: stack)
            else partition_while fuel' tosort (pi + 1) pr cdepth
                                 ((pl, pi - 1, cdepth) :: stack)
        end
      else Some (tosort, pl, pr, stack)
  end.

(** [while (pj > pl && cmp(vp, v[*pk]) < 0)
    { *pj-- = *pk--; }], which leaves [tosort] and [pj]. *)
Fixpoint shift_up (fuel : nat) (tosort : list nat) (vi : nat) (pl pj pk : Z)
  : option (list nat * Z) :=
  match fuel with
  | O => None
  | S fuel' =>
      if (pl <? pj) && cmp_lt vi (deref tosort pk)
      then shift_up fuel' (assign tosort pj (deref tosort pk)) vi pl
                    (pj - 1) (pk - 1)
      else Some (tosort, pj)
  end.

(** [for (pi = pl + 1; pi <= pr; ++pi) { vi = *pi; pj = pi; pk = pi - 1;
    (shift); *pj = vi; }] *)
Fixpoint insertion_sort (fuel : nat) (tosort : list nat) (pl pr pi : Z)
  : option (list nat) :=
  match fuel with
  | O => None
  | S fuel' =>
      if pi <=? pr then
        let vi := deref tosort pi in
        match shift_up (S (List.length tosort)) tosort vi pl pi (pi - 1) with
        | None => None
        | Some (tosort, pj) =>
            insertion_sort fuel' (assign tosort pj vi) pl pr (pi + 1)
        end
      else Some tosort
  end.

(** [while (1) { if (cdepth < 0) { (heapsort); goto stack_pop; }
    (partition_while); (insertion sort);
    stack_pop: if (sptr == stack) break; (pop [pr], [pl], [cdepth]); }] *)
Fixpoint aquicksort_loop (fuel : nat) (tosort : list nat) (pl pr cdepth : Z)
         (stack : list Pending) : option (list nat) :=
  match fuel with
  | O => None
  | S fuel' =>
      let sorted_part :=
        if cdepth <? 0 then
          match npy_aheapsort tosort pl (pr - pl + 1) with
          | Some tosort => Some (tosort, stack)
          | None => None
          end
        else
          match partition_while (S (List.length tosort)) tosort pl pr cdepth
                                stack with
          | None => None
          | Some (tosort, pl, pr, stack) =>
              match insertion_sort (S (List.length tosort)) tosort pl pr
                                   (pl + 1) with
              | Some tosort => Some (tosort, stack)
              | None => None
              end
          end in
      match sorted_part with
      | None => None
      | Some (tosort, []) => Some tosort
      | Some (tosort, (pl, pr, cdepth) :: stack) =>
          aquicksort_loop fuel' tosort pl pr cdepth stack
      end
  end.

(** [npy_aquicksort(vv, tosort, num, varr)]. *)
Definition npy_aquicksort (tosort : list nat) (num : Z) : option (list nat) :=
  aquicksort_loop (S (List.length tosort)) tosort 0 (num - 1)
                  (npy_get_msb num * 2) [].

End NumPySort.

(** [values.argsort(kind='quicksort')] of an [object] array: the positions
    [0 .. num-1], sorted indirectly. *)
Definition np_argsort_quicksort (values : list string) : option (list nat) :=
  let num := List.length values in
  npy_aquicksort values (seq 0 num) (Z.of_nat num).

(** [nargsort(values, kind='quicksort')] without missing values, as
    [sort_values_timestamp] takes it. *)
Definition nargsort (values : list string) : list nat :=
  match np_argsort_quicksort values with
  | Some indexer => indexer
  | None => []
  end.

(** ** Sample sources, for running the definitions *)

Definition const_tape {A : Type} (a : A) : tape A := fun _ => a.

Definition list_tape {A : Type} (l : list A) (d : A) : tape A :=
  fun k => nth k l d.

(** 2026-02-10 13:01:02.000005 local time. *)
Definition sample_now : Z :=
  (739657 - 1) * US_PER_DAY + 13 * US_PER_HOUR + 62 * US_PER_SECOND + 5.

(** A reading every 40 microseconds, in a time zone at UTC; after a
    thousand readings the sample stops advancing. *)
Definition sample_clock : tape ClockReading :=
  fun k =>
    let i := Z.of_nat (Nat.min k 1000) in
    mkClockReading (sample_now + i * 40) (1770728462000 + i * 40 / 1000).

Definition sample_world : World :=
  mkWorld (fun k => Z.of_nat k * 2718281828459045 + 12345)
          (list_tape [S754_finite false 5404319552844595 (-39);
                      S754_finite false 1 (-3);
                      S754_finite false 7 60;
                      S754_infinity false;
                      S754_nan]
                     (S754_finite false 123457 (-1)))
          (fun k => Z.of_nat k * 31415926535 + 7 * Z.of_nat (k * k))
          sample_clock.

(** The value a run returns, without the final state of the sources. *)
Definition value_of {A : Type} (r : Result (A * World)) : option A :=
  match r with
  | Ok (a, _) => Some a
  | Err _ => None
  end.

(** A state of the [random] module in which the second record draws the
    suffix of the first (4321 above 1000), within the same millisecond of
    [sample_clock].  The six draws of a record are, in order: city,
    operator, prefix, number, suffix, offset. *)
Definition collision_world : World :=
  mkWorld (np_uniform sample_world) (np_lognormal sample_world)
          (list_tape [3; 1; 2; 5551234; 4321; 17;
                      0; 2; 4; 1234567; 4321; 99] 0)
          sample_clock.

(** A state in which the two records draw the same offset, 17 hours. *)
Definition tie_world : World :=
  mkWorld (np_uniform sample_world) (np_lognormal sample_world)
          (list_tape [3; 1; 2; 5551234; 4321; 17;
                      0; 2; 4; 1234567; 1111; 17] 0)
          sample_clock.

(** A state in which every record draws the same offset, 17 hours, and the
    record of rank [i] the suffix [1000 + i]. *)
Definition tied_world : World :=
  mkWorld (np_uniform sample_world) (np_lognormal sample_world)
          (fun k => match (k mod 6)%nat with
                    | 4%nat => Z.of_nat (k / 6)
                    | 5%nat => 17
                    | _ => Z.of_nat k
                    end)
          sample_clock.

(** Fifty one-letter keys, [A] to [W], in no order. *)
Definition sample_keys : list string :=
  map (fun k => string_of_list_ascii [ascii_of_nat (65 + (k * 7) mod 23)])
      (seq 0 50).

(** The list [transactions] as the loop of [generer_batch_transactions]
    leaves it, before the frame is built and sorted. *)
Definition generated_records (cfg : Config) (n_transactions : Z)
  : M (list Transaction) :=
  now <- datetime_now ;;
  base_date <- lift (datetime_sub now (timedelta_days 7)) ;;
  generer_loop cfg base_date (Z.to_nat n_transactions) [].

Definition has_timestamp (ts : string) (r : Transaction) : bool :=
  String.eqb (timestamp r) ts.

(** Rows of equal timestamp come in [out] in the order they have in
    [frame]. *)
Definition ties_in_order (frame out : DataFrame) : Prop :=
  forall ts, filter (has_timestamp ts) out = filter (has_timestamp ts) frame.

(** The weight tables that [np.random.choice] refuses: an empty one, one
    with a negative weight, one whose sum is not 1 within [atol]. *)
Definition weights_rejected (p : list Q) : bool :=
  match p with
  | [] => true
  | _ =>
      existsb (fun x => negb (Qle_bool 0 x)) p
      || negb (Qle_bool (Qabs_diff (Qsum p) 1) atol)
  end.

(** [CONFIG] with the bounds of [transfer] exchanged: [min > max]. *)
Definition inverted_range_config : Config := {|
  VILLES := VILLES CONFIG;
  TRANSACTION_TYPES := TRANSACTION_TYPES CONFIG;
  OPERATEURS := OPERATEURS CONFIG;
  MONTANT_RANGES :=
    [("transfer", (100000, 1000)); ("payment", (500, 50000));
     ("withdrawal", (5000, 200000)); ("deposit", (10000, 500000))]
|}.

(** [CONFIG] with weights that sum to 1.000000001. *)
Definition near_weights_config : Config := {|
  VILLES := VILLES CONFIG;
  TRANSACTION_TYPES :=
    [("transfer", Qmake 450000001 1000000000); ("payment", Qmake 30 100);
     ("withdrawal", Qmake 20 100); ("deposit", Qmake 5 100)];
  OPERATEURS := OPERATEURS CONFIG;
  MONTANT_RANGES := MONTANT_RANGES CONFIG
|}.

(** [CONFIG] with weights that sum to 0.9. *)
Definition short_weights_config : Config := {|
  VILLES := VILLES CONFIG;
  TRANSACTION_TYPES :=
    [("transfer", Qmake 45 100); ("payment", Qmake 30 100);
     ("withdrawal", Qmake 10 100); ("deposit", Qmake 5 100)];
  OPERATEURS := OPERATEURS CONFIG;
  MONTANT_RANGES := MONTANT_RANGES CONFIG
|}.

(** ** Two runs side by side

    What a run reads from the clock: the first reading is the anchor
    [datetime.now()] of the batch; then each record takes two readings, a
    [datetime.now()] whose value is overwritten by the batch (only its
    being representable matters) and the [time.time()] of its
    identifier. *)

Definition same_range (a b : ClockReading) : Prop :=
  datetime_in_range (local_now a) = datetime_in_range (local_now b).

Definition same_ms (a b : ClockReading) : Prop := epoch_ms a = epoch_ms b.

(** Two clocks agree, from a point where the next reading is the
    [datetime.now()] of a record ... *)
Definition agree_from_now (c1 c2 : tape ClockReading) : Prop :=
  forall i : nat,
    same_range (c1 (2 * i)%nat) (c2 (2 * i)%nat)
    /\ same_ms (c1 (2 * i + 1)%nat) (c2 (2 * i + 1)%nat).

(** ... from a point where the next reading is a [time.time()] ... *)
Definition agree_from_time (c1 c2 : tape ClockReading) : Prop :=
  forall i : nat,
    same_ms (c1 (2 * i)%nat) (c2 (2 * i)%nat)
    /\ same_range (c1 (2 * i + 1)%nat) (c2 (2 * i + 1)%nat).

(** ... from the start of the batch. *)
Definition agree_clocks (c1 c2 : tape ClockReading) : Prop :=
  local_now (c1 O) = local_now (c2 O)
  /\ agree_from_now (tape_tl c1) (tape_tl c2).

(** Two states with the same generators, and clocks related by [C]. *)
Definition same_seeds (C : tape ClockReading -> tape ClockReading -> Prop)
           (w1 w2 : World) : Prop :=
  np_uniform w1 = np_uniform w2
  /\ np_lognormal w1 = np_lognormal w2
  /\ py_random w1 = py_random w2
  /\ C (clock w1) (clock w2).

Inductive result_rel {A : Type} (eqA : A -> A -> Prop)
          (R : World -> World -> Prop)
  : Result (A * World) -> Result (A * World) -> Prop :=
| rel_Ok (a1 a2 : A) (w1 w2 : World) :
    eqA a1 a2 -> R w1 w2 -> result_rel eqA R (Ok (a1, w1)) (Ok (a2, w2))
| rel_Err (e : PyError) : result_rel eqA R (Err e) (Err e).

(** [related C C' eqA c1 c2]: from states with the same generators and
    clocks related by [C], the two computations raise the same exception or
    return values related by [eqA], in states with the same generators and
    clocks related by [C']. *)
Definition related {A : Type}
           (C C' : tape ClockReading -> tape ClockReading -> Prop)
           (eqA : A -> A -> Prop) (c1 c2 : M A) : Prop :=
  forall w1 w2,
    same_seeds C w1 w2 -> result_rel eqA (same_seeds C') (c1 w1) (c2 w2).

(** A computation that does not read the clock. *)
Definition clock_free {A : Type} (c : M A) : Prop :=
  forall C, related C C eq c c.

(** Two records that differ at most by their timestamp. *)
Definition same_but_timestamp (t1 t2 : Transaction) : Prop :=
  forall ts, set_timestamp t1 ts = set_timestamp t2 ts.

(** Sample seeds: the streams of [sample_world], whatever the seed. *)
Definition sample_np_seed (seed : Z) : tape Z * tape spec_float :=
  (np_uniform sample_world, np_lognormal sample_world).

Definition sample_py_seed (seed : Z) : tape Z := py_random sample_world.

(** [sample_clock] one hour later. *)
Definition later_clock : tape ClockReading :=
  fun k =>
    mkClockReading (local_now (sample_clock k) + US_PER_HOUR)
                   (epoch_ms (sample_clock k) + 3600000).

(** [sample_clock] with other values for the readings that the batch
    overwrites (the odd ones). *)
Definition jitter_clock : tape ClockReading :=
  fun k =>
    if Nat.odd k
    then mkClockReading (local_now (sample_clock k) + 911)
                        (epoch_ms (sample_clock k) + 3)
    else sample_clock k.

(** ** What a run produces

    [generated cfg t]: the fields of [t] are what [generer_transaction]
    puts in a record under [cfg]. *)

Record generated (cfg : Config) (t : Transaction) : Prop := mkGenerated {
  gen_type : In (transaction_type t) (map fst (TRANSACTION_TYPES cfg));
  gen_amount :
    exists min_val max_val montant,
      dict_get (MONTANT_RANGES cfg) (transaction_type t) = Some (min_val, max_val)
      /\ amount t = clamp_montant min_val max_val montant;
  gen_city : In (city t) (VILLES cfg);
  gen_operator : In (operator t) (OPERATEURS cfg);
  gen_user :
    exists prefix n,
      In prefix PREFIXES /\ 1000000 <= n <= 9999999
      /\ user_id t = format_user_id prefix n;
  gen_id :
    exists ms suffix,
      1000 <= suffix <= 9999
      /\ transaction_id t = format_transaction_id ms suffix;
  gen_status : status t = "completed"
}.

(** [stamped cfg base r]: [r] is a generated record whose timestamp was
    replaced by [base] plus a whole number of hours of [0 .. 7*24]. *)
Definition stamped (cfg : Config) (base : datetime) (r : Transaction) : Prop :=
  exists g k,
    generated cfg g /\ 0 <= k <= 7 * 24
    /\ datetime_in_range (base + timedelta_hours k) = true
    /\ r = set_timestamp g (strftime (base + timedelta_hours k)).

(** A row of the frame is a record, or a record with its amount converted
    to a float. *)
Definition row_of (g r : Transaction) : Prop := r = g \/ r = upcast_amount g.

(** A clock whose readings are all representable date-times, seven days
    or more after the first representable one. *)
Definition clock_ok (w : World) : Prop :=
  forall k,
    datetime_in_range (local_now (clock w k) - timedelta_days 7) = true
    /\ datetime_in_range (local_now (clock w k)) = true.

(** [total c post]: under such a clock, [c] returns, with a result that
    satisfies [post], and leaves such a clock. *)
Definition total {A : Type} (c : M A) (post : A -> Prop) : Prop :=
  forall w,
    clock_ok w -> exists a w', c w = Ok (a, w') /\ post a /\ clock_ok w'.

(** ** Rounding and validity

    [nearest_even r num sh]: the integer [r] is nearest to [num / 2^sh], and
    it is the even one when two integers are equally near. *)
Definition nearest_even (r num sh : Z) : Prop :=
  2 * Z.abs (r * 2 ^ sh - num) <= 2 ^ sh
  /\ (2 * Z.abs (r * 2 ^ sh - num) = 2 ^ sh -> Z.even r = true).

(** The integers up to which a [float64] column holds every integer
    exactly. *)
Definition EXACT_INT_LIMIT : Z := 2 ^ 53.

(** What is enough for a configuration to generate: weights that the
    categorical draw accepts; for every type that has a weight, bounds, of
    a magnitude that a float holds exactly; a city and an operator to
    choose from. *)
Definition has_range (cfg : Config) (ty : string) : bool :=
  match dict_get (MONTANT_RANGES cfg) ty with
  | Some (min_val, max_val) =>
      (Z.abs min_val <=? EXACT_INT_LIMIT) && (Z.abs max_val <=? EXACT_INT_LIMIT)
  | None => false
  end.

(** [CONFIG] with an upper bound of [transfer] beyond every float. *)
Definition huge_range_config : Config := {|
  VILLES := VILLES CONFIG;
  TRANSACTION_TYPES := TRANSACTION_TYPES CONFIG;
  OPERATEURS := OPERATEURS CONFIG;
  MONTANT_RANGES :=
    [("transfer", (0, 10 ^ 400)); ("payment", (500, 50000));
     ("withdrawal", (5000, 200000)); ("deposit", (10000, 500000))]
|}.

Definition config_ok (cfg : Config) : bool :=
  negb (weights_rejected (map snd (TRANSACTION_TYPES cfg)))
  && forallb (has_range cfg) (map fst (TRANSACTION_TYPES cfg))
  && negb (Nat.eqb (List.length (VILLES cfg)) 0)
  && negb (Nat.eqb (List.length (OPERATEURS cfg)) 0).

(** ** Shapes of text

    [has_shape pattern s]: [s] has the length of [pattern], a decimal digit
    wherever the pattern has the letter [d], and the character of the
    pattern everywhere else. *)
Fixpoint has_shape (pattern s : string) : bool :=
  match pattern, s with
  | EmptyString, EmptyString => true
  | String p pattern', String c s' =>
      (if Ascii.eqb p "d" then is_digit c else Ascii.eqb p c)
      && has_shape pattern' s'
  | _, _ => false
  end.

(** A computation that leaves the clock where it is. *)
Definition keeps_clock {A : Type} (c : M A) : Prop :=
  forall w a w', c w = Ok (a, w') -> clock w' = clock w.

(** The first instant of the year 1000, from which [%Y] prints four digits
    on every platform. *)
Definition YEAR_1000 : datetime := days_before_year 1000 * US_PER_DAY.

(** ** Rows that are written as they are

    A field without comma, quote or line break is written without quotes. *)
Definition plain (s : string) : bool := negb (needs_quote s).

Definition config_plain (cfg : Config) : bool :=
  forallb plain (VILLES cfg) && forallb plain (OPERATEURS cfg)
  && forallb plain (map fst (TRANSACTION_TYPES cfg)).

(** A row whose text fields are plain and whose amount is a whole number. *)
Definition plain_row (r : Transaction) : Prop :=
  needs_quote (transaction_id r) = false
  /\ needs_quote (timestamp r) = false
  /\ needs_quote (user_id r) = false
  /\ (exists z, num_as_Z (amount r) = Some z)
  /\ needs_quote (city r) = false
  /\ needs_quote (transaction_type r) = false
  /\ needs_quote (operator r) = false
  /\ needs_quote (status r) = false.

(** Two rows with the same fields: the same texts, and amounts of the same
    value and the same kind ([int] or [float]). *)
Definition same_row (r1 r2 : Transaction) : Prop :=
  transaction_id r1 = transaction_id r2
  /\ timestamp r1 = timestamp r2
  /\ user_id r1 = user_id r2
  /\ num_as_Z (amount r1) = num_as_Z (amount r2)
  /\ is_float (amount r1) = is_float (amount r2)
  /\ city r1 = city r2
  /\ transaction_type r1 = transaction_type r2
  /\ operator r1 = operator r2
  /\ status r1 = status r2.

(** ** Statistics

    What [afficher_statistiques] prints of a frame, as values: the number
    of rows, the least and the greatest timestamp, and the counts of the
    cities, the types and the operators.  The three lines on the amounts
    (sum, mean and median) and the percentages are floating-point
    arithmetic of the library and are not part of the record. *)

(** [Series.min()] and [Series.max()] on a column of strings. *)
Definition str_min (m y : string) : string := if String.ltb y m then y else m.
Definition str_max (m y : string) : string := if String.ltb m y then y else m.

Definition series_min (col : list string) : option string :=
  match col with
  | [] => None
  | x :: rest => Some (fold_left str_min rest x)
  end.

Definition series_max (col : list string) : option string :=
  match col with
  | [] => None
  | x :: rest => Some (fold_left str_max rest x)
  end.

(** [Series.value_counts()]: the distinct values, each with the number of
    its occurrences, listed by descending count. *)
Fixpoint count_str (v : string) (col : list string) : nat :=
  match col with
  | [] => O
  | x :: col' => ((if String.eqb x v then 1 else 0) + count_str v col')%nat
  end.

(** The distinct values, in the order of their first occurrence. *)
Fixpoint pd_unique (col : list string) : list string :=
  match col with
  | [] => []
  | x :: col' => x :: filter (fun y => negb (String.eqb y x)) (pd_unique col')
  end.

Definition count_ge (a b : string * nat) : Prop := (snd b <= snd a)%nat.

(** What the sort of the counts promises: the same items, by descending
    count.  The order of items of equal count is left to the algorithm. *)
Definition sort_counts_contract
           (sort_counts : list (string * nat) -> list (string * nat)) : Prop :=
  forall items : list (string * nat),
    Permutation (sort_counts items) items
    /\ Sorted count_ge (sort_counts items).

Record Statistiques : Type := mkStatistiques {
  nb_transactions : nat;
  periode_debut : string;
  periode_fin : string;
  par_ville : list (string * nat);
  par_type : list (string * nat);
  par_operateur : list (string * nat)
}.

Section Statistics.

(** The sort behind [value_counts]. *)
Variable sort_counts : list (string * nat) -> list (string * nat).

Definition value_counts (col : list string) : list (string * nat) :=
  sort_counts (map (fun v => (v, count_str v col)) (pd_unique col)).

(** A frame without rows has no column: the lookup of [timestamp]
    fails. *)
Definition afficher_statistiques (df : DataFrame) : Result Statistiques :=
  match series_min (map timestamp df), series_max (map timestamp df) with
  | Some first, Some last =>
      Ok (mkStatistiques (List.length df) first last
                         (value_counts (map city df))
                         (value_counts (map transaction_type df))
                         (value_counts (map operator df)))
  | _, _ => Err (KeyError "timestamp")
  end.

End Statistics.

(** A sort of the counts, by insertion. *)
Fixpoint insert_count (x : string * nat) (l : list (string * nat))
  : list (string * nat) :=
  match l with
  | [] => [x]
  | y :: l' =>
      if (snd y <=? snd x)%nat then x :: l else y :: insert_count x l'
  end.

Fixpoint sort_counts_insertion (l : list (string * nat)) : list (string * nat) :=
  match l with
  | [] => []
  | x :: l' => insert_count x (sort_counts_insertion l')
  end.

(** [counts_of col allowed vc]: [vc] lists each value of [col] once, with
    the number of its occurrences, one or more; the values are among
    [allowed]; the counts add up to the length of [col] and descend. *)
Definition counts_of (col allowed : list string) (vc : list (string * nat))
  : Prop :=
  NoDup (map fst vc)
  /\ (forall v, In v (map fst vc) <-> In v col)
  /\ Forall (fun p => In (fst p) allowed
                      /\ (1 <= snd p)%nat
                      /\ snd p = count_str (fst p) col) vc
  /\ list_sum (map snd vc) = List.length col
  /\ (List.length vc <= List.length allowed)%nat
  /\ Sorted count_ge vc.

(** [sample_world] with a clock that reads 0001-01-04 00:00:00: seven days
    earlier there is no date. *)
Definition early_clock_world : World :=
  mkWorld (np_uniform sample_world) (np_lognormal sample_world)
          (py_random sample_world)
          (const_tape (mkClockReading (3 * US_PER_DAY) 0)).

(** [below t u c]: the cumulative sum [c], divided by the total [t], is
    at most the sample [u]. *)
Definition below (t u c : Q) : bool := Qle_bool (c / t) u.

(** The pattern of [k] digits. *)
Fixpoint d_pattern (k : nat) : string :=
  match k with
  | O => ""
  | S k' => String "d" (d_pattern k')
  end.

(** [sample_world] with a clock that advances by one second per reading. *)
Definition slow_world : World :=
  mkWorld (np_uniform sample_world) (np_lognormal sample_world)
          (py_random sample_world)
          (fun k => mkClockReading (sample_now + Z.of_nat k * US_PER_SECOND)
                                   (1770728462000 + Z.of_nat k * 1000)).

(** ** The script, whole

    [__main__]: the batch of 10000 transactions, its statistics, then the
    export.  What is printed on the console is not modelled, nor is the
    file system: [main] returns the statistics that are shown and the text
    that [to_csv] is given to write. *)

Section Main.

Variable np_seed : Z -> tape Z * tape spec_float.
Variable py_seed : Z -> tape Z.
Variable argsort : list string -> list nat.
Variable sort_counts : list (string * nat) -> list (string * nat).

Definition main (clk : tape ClockReading) : Result (Statistiques * string) :=
  match generer_batch_transactions CONFIG argsort 10000
                                   (boot np_seed py_seed clk) with
  | Ok (df, _) =>
      match afficher_statistiques sort_counts df with
      | Ok stats => Ok (stats, to_csv df)
      | Err e => Err e
      end
  | Err e => Err e
  end.

End Main.

(** ** What a record takes from the sources

    The outcomes of [random._randbelow] that a record of a batch uses are,
    in call order: city, operator, prefix, number, suffix, offset.  From
    the outcome [d] of the call, brought into its range: *)
Definition prefix_of_draw (d : Z) : string :=
  nth (Z.to_nat (d mod 5)) PREFIXES "77".

Definition numero_of_draw (d : Z) : Z := 1000000 + d mod 9000000.

Definition suffix_of_draw (d : Z) : Z := 1000 + d mod 9000.

Definition offset_of_draw (d : Z) : Z := 0 + d mod 169.

Definition user_id_of_draws (d_prefix d_numero : Z) : string :=
  format_user_id (prefix_of_draw d_prefix) (numero_of_draw d_numero).

(** [advanced dp dc w w']: from [w] to [w'], [dp] outcomes of the [random]
    module and [dc] readings of the clock were taken. *)
Definition advanced (dp dc : nat) (w w' : World) : Prop :=
  (forall j, py_random w' j = py_random w (dp + j)%nat)
  /\ (forall j, clock w' j = clock w (dc + j)%nat).

(** The record of rank [i] of a batch, as far as the [random] module and
    the clock decide it: identifier, user and timestamp. *)
Definition traced (w : World) (i : nat) (r : Transaction) : Prop :=
  transaction_id r
  = format_transaction_id (epoch_ms (clock w (2 * i + 2)%nat))
                          (suffix_of_draw (py_random w (6 * i + 4)%nat))
  /\ user_id r
     = user_id_of_draws (py_random w (6 * i + 2)%nat)
                        (py_random w (6 * i + 3)%nat)
  /\ timestamp r
     = strftime (local_now (clock w O) - timedelta_days 7
                 + timedelta_hours (offset_of_draw (py_random w (6 * i + 5)%nat))).

(** * Properties *)

(** ** The monad *)

Lemma bind_Ok {A B : Type} (c : M A) (k : A -> M B) (w : World) (r : B * World) :
  bind c k w = Ok r -> exists a w1, c w = Ok (a, w1) /\ k a w1 = Ok r.
Proof.
  unfold bind. destruct (c w) as [[a w1] | e]; [ | discriminate ].
  intros H. exists a, w1. split; [ reflexivity | exact H ].
Qed.

Lemma ret_Ok {A : Type} (a : A) (w : World) (r : A * World) :
  ret a w = Ok r -> (a, w) = r.
Proof. unfold ret. intros H. injection H as <-. reflexivity. Qed.

Lemma lift_Ok {A : Type} (x : Result A) (w : World) (r : A * World) :
  lift x w = Ok r -> x = Ok (fst r) /\ snd r = w.
Proof.
  unfold lift. destruct x as [a | e]; [ | discriminate ].
  intros H. injection H as <-. split; reflexivity.
Qed.

Lemma is_Ok_true {A : Type} (r : Result A) : is_Ok r = true -> exists a, r = Ok a.
Proof. destruct r as [a | e]; [ exists a; reflexivity | discriminate ]. Qed.

(** Splits a successful run of a sequence of binds into its steps. *)
Ltac step H :=
  match type of H with
  | bind _ _ _ = Ok _ =>
      let a := fresh "a" in
      let w := fresh "w" in
      let Hc := fresh "Hc" in
      apply bind_Ok in H; destruct H as (a & w & Hc & H)
  | ret _ _ = Ok _ => apply ret_Ok in H
  end.

(** ** The clamp *)

Lemma py_round0_exact (f : spec_float) :
  float_exact (py_round0 f) = None
  \/ float_exact (py_round0 f) = Some NegInf
  \/ float_exact (py_round0 f) = Some PosInf
  \/ exists n, float_exact (py_round0 f) = Some (Dyadic n 0).
Proof.
  destruct f as [s | s | | s m e]; simpl.
  - right; right; right. exists 0. reflexivity.
  - destruct s; auto.
  - auto.
  - right; right; right.
    destruct (0 <=? e) eqn:He; simpl.
    + rewrite He. eexists. reflexivity.
    + destruct (round_half_even (Z.pos m) (- e)); simpl; eexists; reflexivity.
Qed.

Lemma num_as_Z_int (z : Z) : num_as_Z (PyInt z) = Some z.
Proof.
  unfold num_as_Z; simpl. rewrite Z.mod_1_r, Z.div_1_r. reflexivity.
Qed.

Lemma exact_ltb_int (a b : Z) :
  exact_ltb (Dyadic a 0) (Dyadic b 0) = (a <? b).
Proof. simpl. rewrite !Z.mul_1_r. reflexivity. Qed.

Lemma py_lt_float (f : spec_float) (x : PyNum) :
  py_lt (PyFloat f) x =
  match float_exact f, num_exact x with
  | Some u, Some v => exact_ltb u v
  | _, _ => false
  end.
Proof. reflexivity. Qed.

Lemma py_lt_int_float (z : Z) (f : spec_float) :
  py_lt (PyInt z) (PyFloat f) =
  match float_exact f with
  | Some v => exact_ltb (Dyadic z 0) v
  | None => false
  end.
Proof. reflexivity. Qed.

(** The clamp returns a bound, or the rounded draw when it lies strictly
    between the bounds. *)
Lemma clamp_montant_cases (min_val max_val : Z) (montant : spec_float) :
  clamp_montant min_val max_val montant = PyInt min_val
  \/ clamp_montant min_val max_val montant = PyInt max_val
  \/ exists n,
      float_exact (py_round0 montant) = Some (Dyadic n 0)
      /\ clamp_montant min_val max_val montant = PyFloat (py_round0 montant)
      /\ min_val < n < max_val.
Proof.
  unfold clamp_montant, py_max, py_min.
  destruct (py_lt (PyFloat (py_round0 montant)) (PyInt max_val)) eqn:H1.
  - destruct (py_lt (PyInt min_val) (PyFloat (py_round0 montant))) eqn:H2;
      [ | auto ].
    right; right.
    rewrite py_lt_float in H1. rewrite py_lt_int_float in H2.
    destruct (py_round0_exact montant) as [E | [E | [E | [n E]]]];
      rewrite E in H1, H2; try discriminate.
    change (num_exact (PyInt max_val)) with (Some (Dyadic max_val 0)) in H1.
    cbv beta iota in H1, H2. rewrite exact_ltb_int in H1, H2.
    exists n. repeat split; [ exact E | lia | lia ].
  - destruct (py_lt (PyInt min_val) (PyInt max_val)); auto.
Qed.

Lemma clamp_montant_range (min_val max_val : Z) (montant : spec_float) :
  min_val <= max_val ->
  exists z, num_as_Z (clamp_montant min_val max_val montant) = Some z
            /\ min_val <= z <= max_val.
Proof.
  intros Hle.
  destruct (clamp_montant_cases min_val max_val montant)
    as [E | [E | (n & En & E & Hn)]]; rewrite E.
  - exists min_val. rewrite num_as_Z_int. split; [ reflexivity | lia ].
  - exists max_val. rewrite num_as_Z_int. split; [ reflexivity | lia ].
  - exists n. unfold num_as_Z.
    change (num_exact (PyFloat (py_round0 montant)))
      with (float_exact (py_round0 montant)).
    rewrite En. simpl. rewrite Z.mod_1_r, Z.div_1_r.
    split; [ reflexivity | lia ].
Qed.

(** ** Decimal text *)

Arguments digit_char : simpl never.
Arguments is_digit : simpl never.

(** Linear arithmetic with quotients and remainders by constants. *)
Ltac dlia := Z.div_mod_to_equations; lia.

Lemma digit_cases (d : Z) :
  0 <= d < 10 ->
  d = 0 \/ d = 1 \/ d = 2 \/ d = 3 \/ d = 4 \/ d = 5 \/ d = 6 \/ d = 7
  \/ d = 8 \/ d = 9.
Proof. lia. Qed.

Ltac each_digit H :=
  apply digit_cases in H;
  repeat (destruct H as [H | H]); subst.

Lemma digit_char_is_digit (d : Z) : 0 <= d < 10 -> is_digit (digit_char d) = true.
Proof. intros H. each_digit H; reflexivity. Qed.

Lemma digit_char_value (d : Z) :
  0 <= d < 10 -> Z.of_nat (nat_of_ascii (digit_char d)) - 48 = d.
Proof. intros H. each_digit H; reflexivity. Qed.

Lemma digits_of_eq (f : positive) (n : Z) (acc : string) :
  digits_of f n acc =
  if n <? 10 then String (digit_char (n mod 10)) acc
  else match f with
       | xH => String (digit_char (n mod 10)) acc
       | xO f' | xI f' => digits_of f' (n / 10) (String (digit_char (n mod 10)) acc)
       end.
Proof. destruct f; reflexivity. Qed.

Lemma append_assoc (a b c : string) : (a +++ b) +++ c = a +++ (b +++ c).
Proof. induction a as [ | x a IH]; simpl; [ reflexivity | now rewrite IH ]. Qed.

Lemma length_append (a b : string) :
  String.length (a +++ b) = (String.length a + String.length b)%nat.
Proof. induction a as [ | x a IH]; simpl; [ reflexivity | now rewrite IH ]. Qed.

(** The accumulator is a suffix of the result. *)
Lemma digits_of_acc (f : positive) :
  forall n acc, digits_of f n acc = digits_of f n "" +++ acc.
Proof.
  induction f as [f IH | f IH | ]; intros n acc;
    rewrite (digits_of_eq _ n acc), (digits_of_eq _ n "");
    destruct (n <? 10); try reflexivity;
    rewrite IH, (IH _ (String _ "")), append_assoc; reflexivity.
Qed.

(** Any bound that is large enough gives the same digits. *)
Lemma digits_of_fuel (f1 : positive) :
  forall f2 n acc,
    0 <= n <= Z.pos f1 -> n <= Z.pos f2 ->
    digits_of f1 n acc = digits_of f2 n acc.
Proof.
  induction f1 as [f1 IH | f1 IH | ]; intros f2 n acc H1 H2;
    rewrite (digits_of_eq _ n acc), (digits_of_eq f2 n acc);
    destruct (n <? 10) eqn:Hn; try reflexivity;
    apply Z.ltb_ge in Hn; try lia;
    destruct f2 as [f2 | f2 | ]; try lia; apply IH; dlia.
Qed.

Lemma str_nat_small (n : Z) : 0 <= n < 10 -> str_nat n = String (digit_char n) "".
Proof.
  intros H. unfold str_nat. rewrite digits_of_eq.
  replace (n <? 10) with true by (symmetry; apply Z.ltb_lt; lia).
  rewrite Z.mod_small by lia. reflexivity.
Qed.

Lemma str_nat_step (n : Z) :
  10 <= n -> str_nat n = str_nat (n / 10) +++ String (digit_char (n mod 10)) "".
Proof.
  intros H. unfold str_nat. rewrite digits_of_eq.
  replace (n <? 10) with false by (symmetry; apply Z.ltb_ge; lia).
  destruct n as [ | p | p]; try lia.
  change (Z.to_pos (Z.pos p)) with p.
  assert (Hq : 1 <= Z.pos p / 10) by dlia.
  assert (Hp : Z.pos (Z.to_pos (Z.pos p / 10)) = Z.pos p / 10)
    by (apply Z2Pos.id; lia).
  destruct p as [p | p | ]; try lia;
    cbv iota; rewrite digits_of_acc; f_equal;
    apply digits_of_fuel; rewrite ?Hp; dlia.
Qed.

Lemma all_digits_append (a b : string) :
  all_digits (a +++ b) = all_digits a && all_digits b.
Proof.
  induction a as [ | x a IH]; simpl; [ reflexivity | ].
  rewrite IH. apply andb_assoc.
Qed.

Lemma digits_of_all_digits (f : positive) :
  forall n acc, all_digits acc = true -> all_digits (digits_of f n acc) = true.
Proof.
  assert (D : forall n, is_digit (digit_char (n mod 10)) = true)
    by (intros n; apply digit_char_is_digit; apply Z.mod_pos_bound; lia).
  assert (C : forall n acc, all_digits acc = true ->
                           all_digits (String (digit_char (n mod 10)) acc) = true)
    by (intros n acc Hacc;
        change (is_digit (digit_char (n mod 10)) && all_digits acc = true);
        rewrite D, Hacc; reflexivity).
  induction f as [f IH | f IH | ]; intros n acc Hacc;
    rewrite digits_of_eq; destruct (n <? 10); auto.
Qed.

Lemma str_nat_all_digits (n : Z) : all_digits (str_nat n) = true.
Proof. apply digits_of_all_digits. reflexivity. Qed.

Lemma digits_value_append (a b : string) :
  forall acc, digits_value acc (a +++ b) = digits_value (digits_value acc a) b.
Proof. induction a as [ | x a IH]; intros acc; simpl; [ reflexivity | apply IH ]. Qed.

(** Reading the digits back gives the number. *)
Lemma digits_value_str_nat (n : Z) : 0 <= n -> digits_value 0 (str_nat n) = n.
Proof.
  induction n as [n IH] using (well_founded_induction (Z.lt_wf 0)). intros Hn.
  destruct (Z.lt_ge_cases n 10) as [Hs | Hb].
  - rewrite str_nat_small by lia. cbn [digits_value].
    rewrite digit_char_value; lia.
  - rewrite str_nat_step by lia. rewrite digits_value_append.
    assert (Hq : 1 <= n / 10) by dlia.
    rewrite IH by dlia. cbn [digits_value].
    rewrite digit_char_value by (apply Z.mod_pos_bound; lia).
    dlia.
Qed.

Lemma str_nat_inj (n m : Z) : 0 <= n -> 0 <= m -> str_nat n = str_nat m -> n = m.
Proof.
  intros Hn Hm E.
  rewrite <- (digits_value_str_nat n Hn), <- (digits_value_str_nat m Hm), E.
  reflexivity.
Qed.

Lemma str_of_Z_inj (n m : Z) : str_of_Z n = str_of_Z m -> n = m.
Proof.
  unfold str_of_Z.
  destruct (n <? 0) eqn:Hn, (m <? 0) eqn:Hm; intros E;
    try apply Z.ltb_lt in Hn; try apply Z.ltb_lt in Hm;
    try apply Z.ltb_ge in Hn; try apply Z.ltb_ge in Hm.
  - injection E as E. apply str_nat_inj in E; lia.
  - pose proof (str_nat_all_digits m) as D. rewrite <- E in D. discriminate.
  - pose proof (str_nat_all_digits n) as D. rewrite E in D. discriminate.
  - apply str_nat_inj; assumption.
Qed.

(** A number of [k+1] digits prints on [k+1] characters. *)
Lemma str_nat_length (k : nat) :
  forall n, 10 ^ Z.of_nat k <= n < 10 ^ Z.of_nat (S k) ->
            String.length (str_nat n) = S k.
Proof.
  induction k as [ | k IH]; intros n H.
  - change (10 ^ Z.of_nat 0) with 1 in H. change (10 ^ Z.of_nat 1) with 10 in H.
    rewrite str_nat_small by lia. reflexivity.
  - rewrite !Nat2Z.inj_succ, !Z.pow_succ_r in H by lia.
    assert (Hp : 0 < 10 ^ Z.of_nat k) by (apply Z.pow_pos_nonneg; lia).
    rewrite str_nat_step by lia.
    rewrite length_append, IH; [ cbn [String.length]; lia | ].
    rewrite Nat2Z.inj_succ, Z.pow_succ_r by lia.
    dlia.
Qed.

Lemma str_of_Z_nonneg (n : Z) : 0 <= n -> str_of_Z n = str_nat n.
Proof.
  intros H. unfold str_of_Z.
  replace (n <? 0) with false by (symmetry; apply Z.ltb_ge; lia). reflexivity.
Qed.

Lemma count_char_append (c : ascii) (a b : string) :
  count_char c (a +++ b) = (count_char c a + count_char c b)%nat.
Proof. induction a as [ | x a IH]; simpl; [ reflexivity | rewrite IH; lia ]. Qed.

Lemma count_char_all_digits (c : ascii) (s : string) :
  is_digit c = false -> all_digits s = true -> count_char c s = O.
Proof.
  intros Hc. induction s as [ | x s IH]; simpl; [ reflexivity | ].
  intros H. apply andb_prop in H as [Hx Hs].
  destruct (Ascii.eqb_spec x c) as [-> | _]; [ congruence | ].
  rewrite IH by assumption. reflexivity.
Qed.

Lemma count_underscore_str_of_Z (n : Z) : count_char "_" (str_of_Z n) = O.
Proof.
  unfold str_of_Z. destruct (n <? 0); simpl;
    apply count_char_all_digits; try reflexivity; apply str_nat_all_digits.
Qed.

(** ** The random sources *)

Lemma random_randbelow_Ok (n : Z) (w : World) (i : Z) (w' : World) :
  0 < n -> random_randbelow n w = Ok (i, w') -> 0 <= i < n.
Proof.
  intros Hn H. unfold random_randbelow in H. injection H as <- _.
  apply Z.mod_pos_bound. exact Hn.
Qed.

Lemma random_randint_Ok (a b : Z) (w : World) (x : Z) (w' : World) :
  random_randint a b w = Ok (x, w') -> a <= x <= b.
Proof.
  unfold random_randint. destruct (0 <? b + 1 - a) eqn:Hw; [ | discriminate ].
  apply Z.ltb_lt in Hw. intros H. step H. step H. injection H as <- _.
  apply random_randbelow_Ok in Hc; lia.
Qed.

Lemma random_choice_Ok {A : Type} (items : list A) (w : World) (x : A) (w' : World) :
  random_choice items w = Ok (x, w') -> In x items.
Proof.
  destruct items as [ | a items]; [ discriminate | ].
  unfold random_choice. intros H. step H. step H. injection H as <- _.
  apply random_randbelow_Ok in Hc; [ | simpl List.length; lia ].
  change (In (nth (Z.to_nat a0) (a :: items) a) (a :: items)).
  apply nth_In. lia.
Qed.

Lemma np_random_choice_Ok (a : list string) (p : list Q) (w : World)
      (x : string) (w' : World) :
  np_random_choice a p w = Ok (x, w') -> In x a.
Proof.
  unfold np_random_choice. destruct a as [ | a0 a]; [ discriminate | ].
  destruct (negb _); [ discriminate | ].
  destruct (existsb _ _); [ discriminate | ].
  destruct (negb _); [ discriminate | ].
  intros H. step H.
  destruct (nth_error _ _) as [y | ] eqn:Hy; [ | discriminate ].
  step H. injection H as <- _. eapply nth_error_In. exact Hy.
Qed.

(** ** One record *)

Lemma generer_montant_Ok (cfg : Config) (ty : string) (w : World)
      (x : PyNum) (w' : World) :
  generer_montant cfg ty w = Ok (x, w') ->
  exists min_val max_val montant,
    dict_get (MONTANT_RANGES cfg) ty = Some (min_val, max_val)
    /\ x = clamp_montant min_val max_val montant.
Proof.
  unfold generer_montant.
  destruct (dict_get _ _) as [[min_val max_val] | ]; [ | discriminate ].
  intros H. do 3 step H. step H. injection H as <- _.
  exists min_val, max_val, a1. split; reflexivity.
Qed.

Lemma generer_user_id_Ok (w : World) (u : string) (w' : World) :
  generer_user_id w = Ok (u, w') ->
  exists prefix n,
    In prefix PREFIXES /\ 1000000 <= n <= 9999999 /\ u = format_user_id prefix n.
Proof.
  unfold generer_user_id. intros H. step H. step H. step H. injection H as <- _.
  apply random_choice_Ok in Hc. apply random_randint_Ok in Hc0.
  exists a, a0. auto.
Qed.

Lemma generer_transaction_generated (cfg : Config) (w : World)
      (t : Transaction) (w' : World) :
  generer_transaction cfg w = Ok (t, w') -> generated cfg t.
Proof.
  unfold generer_transaction. intros H. do 8 step H. step H. injection H as <- _.
  apply np_random_choice_Ok in Hc. apply generer_montant_Ok in Hc0.
  apply random_choice_Ok in Hc1, Hc2. apply generer_user_id_Ok in Hc3.
  apply random_randint_Ok in Hc6.
  constructor; cbn; auto.
  exists a5, a6. auto.
Qed.

(** ** The loop and the frame *)

Lemma Forall_exists_list {A B : Type} (P : A -> B -> Prop) (l : list A) :
  Forall (fun a => exists b, P a b) l -> exists bs, Forall2 P l bs.
Proof.
  induction 1 as [ | a l (b & Hb) _ (bs & IH)].
  - exists []. constructor.
  - exists (b :: bs). constructor; assumption.
Qed.

Lemma Forall2_map_eq {A B C : Type} (f : A -> C) (g : B -> C) (Q : B -> Prop)
      (l : list A) (bs : list B) :
  Forall2 (fun a b => f a = g b /\ Q b) l bs ->
  map f l = map g bs /\ Forall Q bs.
Proof.
  induction 1 as [ | a b l bs [Hf Hq] _ [IH1 IH2]]; cbn [map].
  - split; [ reflexivity | constructor ].
  - split; [ rewrite Hf, IH1; reflexivity | constructor; assumption ].
Qed.

Lemma datetime_add_Ok (t : datetime) (d : timedelta) (r : datetime) :
  datetime_add t d = Ok r -> r = t + d /\ datetime_in_range (t + d) = true.
Proof.
  unfold datetime_add. destruct (datetime_in_range (t + d)); [ | discriminate ].
  intros H. injection H as <-. split; reflexivity.
Qed.

Lemma generer_loop_Ok (cfg : Config) (base : datetime) (count : nat) :
  forall acc w l w',
    generer_loop cfg base count acc w = Ok (l, w') ->
    exists l', l = acc ++ l' /\ List.length l' = count
               /\ Forall (stamped cfg base) l'.
Proof.
  induction count as [ | count IH]; intros acc w l w' H; cbn [generer_loop] in H.
  - step H. injection H as <- _. exists []. rewrite app_nil_r. auto.
  - do 3 step H. apply IH in H. destruct H as (l' & -> & Hlen & Hall).
    apply generer_transaction_generated in Hc. apply random_randint_Ok in Hc0.
    apply lift_Ok in Hc1. destruct Hc1 as [Hadd _]. cbn [fst] in Hadd.
    apply datetime_add_Ok in Hadd. destruct Hadd as [-> Hrange].
    exists (set_timestamp a (strftime (base + timedelta_hours a0)) :: l').
    rewrite <- app_assoc. repeat split.
    + cbn [List.length]. rewrite Hlen. reflexivity.
    + constructor; [ | exact Hall ]. exists a, a0. auto.
Qed.

Lemma take_In {A : Type} (rows : list A) (indexer : list nat) (r : A) :
  In r (take rows indexer) -> In r rows.
Proof.
  unfold take. rewrite in_flat_map. intros (i & _ & Hr).
  destruct (nth_error rows i) as [x | ] eqn:Hx; [ | contradiction ].
  destruct Hr as [<- | []]. eapply nth_error_In. exact Hx.
Qed.

Lemma pd_DataFrame_In (records : list Transaction) (r : Transaction) :
  In r (pd_DataFrame records) -> exists g, In g records /\ row_of g r.
Proof.
  unfold pd_DataFrame. destruct (existsb _ records).
  - rewrite in_map_iff. intros (g & <- & Hg). exists g. split; [ exact Hg | ].
    right. reflexivity.
  - intros Hr. exists r. split; [ exact Hr | left; reflexivity ].
Qed.

Lemma pd_DataFrame_length (records : list Transaction) :
  List.length (pd_DataFrame records) = List.length records.
Proof.
  unfold pd_DataFrame. destruct (existsb _ records);
    [ apply length_map | reflexivity ].
Qed.

(** The anatomy of a successful batch: the anchor is the first clock
    reading minus seven days, the records are stamped from it, and the
    result is the frame of the records taken in the order of the indirect
    sort. *)
Lemma generer_batch_transactions_Ok (cfg : Config)
      (argsort : list string -> list nat) (n : Z) (w : World)
      (df : DataFrame) (w' : World) :
  generer_batch_transactions cfg argsort n w = Ok (df, w') ->
  exists records,
    let base := local_now (tape_hd (clock w)) - timedelta_days 7 in
    datetime_in_range base = true
    /\ List.length records = Z.to_nat n
    /\ records <> []
    /\ Forall (stamped cfg base) records
    /\ df = take (pd_DataFrame records)
                 (argsort (map timestamp (pd_DataFrame records)))
    /\ datetime_in_range (local_now (tape_hd (clock w))) = true.
Proof.
  unfold generer_batch_transactions. intros H. do 3 step H.
  apply lift_Ok in H. destruct H as [Hs _]. cbn [fst] in Hs.
  unfold datetime_now in Hc.
  destruct (datetime_in_range (local_now (tape_hd (clock w)))) eqn:Hnow;
    [ | discriminate ].
  injection Hc as Ha Hw. subst a w0.
  apply lift_Ok in Hc0. destruct Hc0 as [Hb Hw]. cbn [fst snd] in Hb, Hw.
  subst w1. unfold datetime_sub in Hb.
  apply datetime_add_Ok in Hb. destruct Hb as [-> Hrange].
  apply generer_loop_Ok in Hc1. destruct Hc1 as (records & -> & Hlen & Hall).
  cbn [app] in Hs. exists records.
  unfold sort_values_timestamp in Hs.
  destruct (pd_DataFrame records) as [ | r0 rows] eqn:Hdf; [ discriminate | ].
  injection Hs as <-.
  replace (local_now (tape_hd (clock w)) + - timedelta_days 7)
    with (local_now (tape_hd (clock w)) - timedelta_days 7) in * by lia.
  repeat split; auto.
  intros ->. discriminate.
Qed.

(** Every row of a batch comes from a stamped record. *)
Lemma batch_rows (cfg : Config) (argsort : list string -> list nat) (n : Z)
      (w : World) (df : DataFrame) (w' : World) :
  generer_batch_transactions cfg argsort n w = Ok (df, w') ->
  Forall (fun r =>
            exists g,
              stamped cfg (local_now (tape_hd (clock w)) - timedelta_days 7) g
              /\ row_of g r) df.
Proof.
  intros H. apply generer_batch_transactions_Ok in H.
  destruct H as (records & _ & _ & _ & Hall & -> & _).
  apply Forall_forall. intros r Hr.
  apply take_In, pd_DataFrame_In in Hr. destruct Hr as (g & Hg & Hrow).
  exists g. split; [ | exact Hrow ].
  rewrite Forall_forall in Hall. apply Hall. exact Hg.
Qed.

Lemma num_as_Z_to_float (x : PyNum) : num_as_Z (to_float x) = num_as_Z x.
Proof.
  destruct x as [[ | p | p] | f]; try reflexivity;
    unfold num_as_Z; cbn [to_float num_exact float_exact Z.leb Z.compare signed];
    cbn [exact_as_Z]; rewrite ?Z.pow_0_r, ?Z.mul_1_r; reflexivity.
Qed.

(** ** Amounts *)

Lemma CONFIG_ranges (ty : string) (min_val max_val : Z) :
  dict_get (MONTANT_RANGES CONFIG) ty = Some (min_val, max_val) ->
  min_val <= max_val.
Proof.
  cbn [MONTANT_RANGES CONFIG dict_get].
  repeat (destruct (String.eqb _ ty);
          [ intros H; injection H as <- <-; lia | ]).
  discriminate.
Qed.

(** The amount generator alone: whatever the log-normal draw, the result is
    a whole number within the bounds of the type. *)
Lemma generer_montant_range (ty : string) (w : World) (x : PyNum) (w' : World) :
  generer_montant CONFIG ty w = Ok (x, w') ->
  exists min_val max_val z,
    dict_get (MONTANT_RANGES CONFIG) ty = Some (min_val, max_val)
    /\ num_as_Z x = Some z /\ min_val <= z <= max_val.
Proof.
  intros H. apply generer_montant_Ok in H.
  destruct H as (min_val & max_val & montant & Hget & ->).
  destruct (clamp_montant_range min_val max_val montant) as (z & Hz & Hr).
  - eapply CONFIG_ranges. exact Hget.
  - exists min_val, max_val, z. auto.
Qed.

(** C1.  Every transaction of a batch has an amount that is a whole number
    and lies within the bounds, both included, that [MONTANT_RANGES] gives
    for its [transaction_type]; this holds for every draw of the log-normal
    sample, which the clamp of [generer_montant] receives as an arbitrary
    float. *)
Theorem amount_within_type_range
        (argsort : list string -> list nat) (n : Z) (w : World)
        (df : DataFrame) (w' : World)
        (Hrun : generer_batch_transactions CONFIG argsort n w = Ok (df, w')) :
  Forall (fun r =>
            exists min_val max_val z,
              dict_get (MONTANT_RANGES CONFIG) (transaction_type r)
              = Some (min_val, max_val)
              /\ num_as_Z (amount r) = Some z
              /\ min_val <= z <= max_val) df.
Proof.
  apply batch_rows in Hrun. eapply Forall_impl; [ | exact Hrun ].
  intros r (g & (g0 & k & Hgen & _ & _ & ->) & Hrow).
  destruct (gen_amount _ _ Hgen) as (min_val & max_val & montant & Hget & Ham).
  destruct (clamp_montant_range min_val max_val montant) as (z & Hz & Hr);
    [ eapply CONFIG_ranges; exact Hget | ].
  exists min_val, max_val, z.
  destruct Hrow as [-> | ->]; cbn; rewrite ?num_as_Z_to_float, Ham; auto.
Qed.

Lemma amount_within_type_range_witness :
  exists df w',
    generer_batch_transactions CONFIG argsort_stable 6 sample_world = Ok (df, w')
    /\ Forall (fun r =>
                 exists min_val max_val z,
                   dict_get (MONTANT_RANGES CONFIG) (transaction_type r)
                   = Some (min_val, max_val)
                   /\ num_as_Z (amount r) = Some z
                   /\ min_val <= z <= max_val) df.
Proof.
  assert (H : is_Ok (generer_batch_transactions CONFIG argsort_stable 6 sample_world)
              = true) by (vm_compute; reflexivity).
  destruct (is_Ok_true _ H) as [[df w'] E].
  exists df, w'. split; [ exact E | ].
  exact (amount_within_type_range argsort_stable 6 sample_world df w' E).
Defined.

(** ** Runs that return *)

Lemma FLOAT_LIMIT_large : 2 ^ 60 < FLOAT_LIMIT.
Proof. vm_compute. reflexivity. Qed.

(** Integers of at most sixty bits divide and add without overflow. *)
Lemma int_true_divide_small (a b : Z) :
  Z.abs a <= 2 ^ 60 -> 1 <= b ->
  int_true_divide a b = Ok (inject_Z a / inject_Z b)%Q.
Proof.
  intros Ha Hb. unfold int_true_divide.
  pose proof FLOAT_LIMIT_large as L.
  replace (FLOAT_LIMIT * b <=? Z.abs a) with false; [ reflexivity | ].
  symmetry. apply Z.leb_gt. nia.
Qed.

Lemma int_add_float_small (n : Z) (x : Q) :
  Z.abs n <= 2 ^ 60 -> int_add_float n x = Ok (inject_Z n + x)%Q.
Proof.
  intros Hn. unfold int_add_float.
  pose proof FLOAT_LIMIT_large as L.
  replace (FLOAT_LIMIT <=? Z.abs n) with false; [ reflexivity | ].
  symmetry. apply Z.leb_gt. lia.
Qed.

Lemma total_ret {A : Type} (a : A) (post : A -> Prop) : post a -> total (ret a) post.
Proof. intros H w Hw. exists a, w. auto. Qed.

Lemma total_bind {A B : Type} (c : M A) (k : A -> M B)
      (mid : A -> Prop) (post : B -> Prop) :
  total c mid -> (forall a, mid a -> total (k a) post) -> total (bind c k) post.
Proof.
  intros Hc Hk w Hw. destruct (Hc w Hw) as (a & w1 & E & Ha & Hw1).
  destruct (Hk a Ha w1 Hw1) as (b & w2 & E2 & Hb & Hw2).
  exists b, w2. unfold bind. rewrite E. auto.
Qed.

Lemma total_lift_Ok {A : Type} (a : A) : total (lift (Ok a)) (fun _ => True).
Proof. exact (total_ret a (fun _ => True) I). Qed.

Lemma total_randbelow (n : Z) :
  0 < n -> total (random_randbelow n) (fun i => 0 <= i < n).
Proof.
  intros Hn w Hw. eexists. eexists. split; [ reflexivity | ].
  split; [ apply Z.mod_pos_bound; exact Hn | exact Hw ].
Qed.

Lemma total_randint (a b : Z) :
  a <= b -> total (random_randint a b) (fun x => a <= x <= b).
Proof.
  intros Hab. unfold random_randint.
  replace (0 <? b + 1 - a) with true by (symmetry; apply Z.ltb_lt; lia).
  eapply total_bind; [ apply total_randbelow; lia | ].
  intros i Hi. apply total_ret. cbv beta in Hi. lia.
Qed.

Lemma total_choice {A : Type} (items : list A) :
  items <> [] -> total (random_choice items) (fun x => In x items).
Proof.
  destruct items as [ | a items]; [ congruence | ]. intros _.
  unfold random_choice.
  eapply total_bind; [ apply total_randbelow; simpl List.length; lia | ].
  intros i Hi. apply total_ret. cbv beta in Hi.
  change (In (nth (Z.to_nat i) (a :: items) a) (a :: items)).
  apply nth_In. lia.
Qed.

Lemma total_lognormal (m sigma : Q) :
  total (np_random_lognormal m sigma) (fun _ => True).
Proof.
  intros w Hw. eexists. eexists. split; [ reflexivity | ].
  split; [ exact I | exact Hw ].
Qed.

Lemma clock_ok_tick (w : World) : clock_ok w -> clock_ok (clock_tick w).
Proof. intros Hw k. exact (Hw (S k)). Qed.

Lemma total_datetime_now :
  total datetime_now
        (fun t => datetime_in_range (t - timedelta_days 7) = true
                  /\ datetime_in_range t = true).
Proof.
  intros w Hw. unfold datetime_now. destruct (Hw O) as [H7 H0].
  change (clock w O) with (tape_hd (clock w)) in H7, H0. rewrite H0.
  eexists. eexists. split; [ reflexivity | ].
  split; [ auto | apply clock_ok_tick; exact Hw ].
Qed.

Lemma total_time_ms : total time_time_ms (fun _ => True).
Proof.
  intros w Hw. eexists. eexists. split; [ reflexivity | ].
  split; [ exact I | apply clock_ok_tick; exact Hw ].
Qed.

(** Under the weights of [CONFIG] the categorical draw returns one of its
    four keys: the checks pass, and the uniform sample, below 1, falls
    before the last entry of the normalised cumulative sums, which is 1. *)
Lemma total_np_random_choice_CONFIG :
  total (np_random_choice (map fst (TRANSACTION_TYPES CONFIG))
                          (map snd (TRANSACTION_TYPES CONFIG)))
        (fun x => In x (map fst (TRANSACTION_TYPES CONFIG))).
Proof.
  intros w Hw.
  assert (E : exists x,
             np_random_choice (map fst (TRANSACTION_TYPES CONFIG))
                              (map snd (TRANSACTION_TYPES CONFIG)) w
             = Ok (x, mkWorld (tape_tl (np_uniform w)) (np_lognormal w)
                              (py_random w) (clock w))).
  { unfold np_random_choice.
    cbn [TRANSACTION_TYPES CONFIG map fst snd].
    match goal with |- context [negb (?a =? ?b)%nat] =>
      change (negb (a =? b)%nat) with false end.
    cbv iota.
    match goal with |- context [existsb ?f ?l] =>
      change (existsb f l) with false end.
    cbv iota.
    match goal with |- context [negb (Qle_bool ?a ?b)] =>
      change (negb (Qle_bool a b)) with false end.
    cbv iota.
    match goal with |- context [searchsorted_right ?c] =>
      let v := eval vm_compute in c in change c with v end.
    unfold bind, np_random_sample, searchsorted_right.
    set (r := tape_hd (np_uniform w) mod 2 ^ 53).
    assert (Hr : 0 <= r < 2 ^ 53) by (apply Z.mod_pos_bound; reflexivity).
    cbn [filter]. unfold Qle_bool. cbn [Qnum Qden].
    change (Z.pos (2 ^ 53)) with (2 ^ 53).
    replace (10000000000000000 * 2 ^ 53 <=? r * 10000000000000000)
      with false by (symmetry; apply Z.leb_gt; lia).
    repeat match goal with
           | |- context [if ?b then _ else _] => destruct b
           end;
      eexists; reflexivity. }
  destruct E as [x E]. exists x. eexists. split; [ exact E | ].
  split; [ | exact Hw ].
  eapply np_random_choice_Ok. exact E.
Qed.

Lemma total_generer_montant_CONFIG (ty : string) :
  In ty (map fst (TRANSACTION_TYPES CONFIG)) ->
  total (generer_montant CONFIG ty) (fun _ => True).
Proof.
  intros Hty. unfold generer_montant.
  assert (E : exists min_val max_val,
             dict_get (MONTANT_RANGES CONFIG) ty = Some (min_val, max_val)
             /\ 0 <= min_val <= max_val /\ max_val <= 500000).
  { cbn in Hty. destruct Hty as [<- | [<- | [<- | [<- | []]]]];
      eexists; eexists; (split; [ reflexivity | lia ]). }
  destruct E as (min_val & max_val & -> & Hmin & Hmax).
  rewrite int_true_divide_small by lia.
  eapply total_bind; [ apply total_lift_Ok | ]. intros third _.
  rewrite int_add_float_small by lia.
  eapply total_bind; [ apply total_lift_Ok | ]. intros m _.
  eapply total_bind; [ apply total_lognormal | ].
  intros montant _. apply total_ret. exact I.
Qed.

Lemma total_generer_user_id : total generer_user_id (fun _ => True).
Proof.
  unfold generer_user_id.
  eapply total_bind; [ apply total_choice; discriminate | ]. intros prefix _.
  eapply total_bind; [ apply total_randint; lia | ]. intros n _.
  apply total_ret. exact I.
Qed.

Lemma total_generer_transaction_CONFIG :
  total (generer_transaction CONFIG) (fun _ => True).
Proof.
  unfold generer_transaction.
  eapply total_bind; [ apply total_np_random_choice_CONFIG | ]. intros ty Hty.
  eapply total_bind; [ apply total_generer_montant_CONFIG; exact Hty | ].
  intros x _.
  eapply total_bind; [ apply total_choice; discriminate | ]. intros c _.
  eapply total_bind; [ apply total_choice; discriminate | ]. intros o _.
  eapply total_bind; [ apply total_generer_user_id | ]. intros u _.
  eapply total_bind; [ apply total_datetime_now | ]. intros t _.
  eapply total_bind; [ apply total_time_ms | ]. intros ms _.
  eapply total_bind; [ apply total_randint; lia | ]. intros suffix _.
  apply total_ret. exact I.
Qed.

Lemma datetime_in_range_between (a b t : Z) :
  datetime_in_range a = true -> datetime_in_range b = true ->
  a <= t <= b -> datetime_in_range t = true.
Proof.
  unfold datetime_in_range. intros Ha Hb Ht.
  apply andb_prop in Ha as [Ha1 Ha2]. apply andb_prop in Hb as [Hb1 Hb2].
  apply Z.leb_le in Ha1, Hb1. apply Z.ltb_lt in Ha2, Hb2.
  apply andb_true_intro. split; [ apply Z.leb_le | apply Z.ltb_lt ]; lia.
Qed.

Lemma total_generer_loop_CONFIG (base : datetime) (count : nat) :
  datetime_in_range base = true ->
  datetime_in_range (base + timedelta_days 7) = true ->
  forall acc,
    total (generer_loop CONFIG base count acc)
          (fun l => List.length l = (List.length acc + count)%nat).
Proof.
  intros Hb Hb7. induction count as [ | count IH]; intros acc;
    cbn [generer_loop].
  - apply total_ret. lia.
  - eapply total_bind; [ apply total_generer_transaction_CONFIG | ].
    intros trans _.
    eapply total_bind; [ apply total_randint; lia | ]. intros k Hk.
    cbv beta in Hk.
    assert (Hr : datetime_in_range (base + timedelta_hours k) = true).
    { apply (datetime_in_range_between base (base + timedelta_days 7));
        try assumption.
      unfold timedelta_hours, timedelta_days, US_PER_DAY, US_PER_HOUR,
        US_PER_SECOND. lia. }
    unfold datetime_add. rewrite Hr.
    eapply total_bind;
      [ exact (total_ret (base + timedelta_hours k) (fun _ => True) I) | ].
    intros t _.
    intros w Hw. destruct (IH (acc ++ [set_timestamp trans (strftime t)]) w Hw)
      as (l & w' & E & Hl & Hw').
    exists l, w'. split; [ exact E | ]. split; [ | exact Hw' ].
    rewrite Hl, length_app. cbn [List.length]. lia.
Qed.

(** ** Taking rows by position *)

Lemma take_map {A B : Type} (f : A -> B) (rows : list A) (indexer : list nat) :
  map f (take rows indexer) = take (map f rows) indexer.
Proof.
  unfold take. induction indexer as [ | i indexer IH]; [ reflexivity | ].
  cbn [flat_map]. rewrite map_app, IH, nth_error_map.
  destruct (nth_error rows i); reflexivity.
Qed.

Lemma take_seq_app {A : Type} (pre rows : list A) :
  take (pre ++ rows) (seq (List.length pre) (List.length rows)) = rows.
Proof.
  revert pre. induction rows as [ | r rows IH]; intros pre; [ reflexivity | ].
  cbn [List.length seq]. unfold take. cbn [flat_map].
  rewrite nth_error_app2 by lia. rewrite Nat.sub_diag. cbn [nth_error app].
  f_equal.
  specialize (IH (pre ++ [r])). rewrite <- app_assoc in IH.
  rewrite length_app in IH. cbn [List.length app] in IH.
  rewrite Nat.add_1_r in IH. exact IH.
Qed.

Lemma take_seq {A : Type} (rows : list A) :
  take rows (seq 0 (List.length rows)) = rows.
Proof. exact (take_seq_app [] rows). Qed.

Lemma take_Permutation {A : Type} (rows : list A) (indexer : list nat) :
  Permutation indexer (seq 0 (List.length rows)) ->
  Permutation (take rows indexer) rows.
Proof.
  intros H. rewrite <- (take_seq rows) at 2.
  unfold take. apply Permutation_flat_map. exact H.
Qed.

(** ** The two insertion sorts meet the contract *)

Section Insertion.

Variable before : string -> string -> bool.
Hypothesis before_le : forall a b, before a b = true -> str_le a b.
Hypothesis not_before_ge : forall a b, before a b = false -> str_le b a.

Let key_le (p q : string * nat) : Prop := str_le (fst p) (fst q).

Lemma insert_by_Permutation (x : string * nat) (l : list (string * nat)) :
  Permutation (insert_by before x l) (x :: l).
Proof.
  induction l as [ | y l IH]; cbn [insert_by]; [ reflexivity | ].
  destruct (before (fst x) (fst y)); [ reflexivity | ].
  rewrite IH. apply perm_swap.
Qed.

Lemma isort_by_Permutation (l : list (string * nat)) :
  Permutation (isort_by before l) l.
Proof.
  induction l as [ | x l IH]; cbn [isort_by]; [ reflexivity | ].
  rewrite insert_by_Permutation. apply perm_skip. exact IH.
Qed.

Lemma insert_by_HdRel (y x : string * nat) (l : list (string * nat)) :
  HdRel key_le y l -> key_le y x -> HdRel key_le y (insert_by before x l).
Proof.
  intros Hl Hx. destruct l as [ | z l]; cbn [insert_by].
  - constructor. exact Hx.
  - destruct (before (fst x) (fst z)); constructor;
      [ exact Hx | inversion Hl; assumption ].
Qed.

Lemma insert_by_Sorted (x : string * nat) (l : list (string * nat)) :
  Sorted key_le l -> Sorted key_le (insert_by before x l).
Proof.
  induction l as [ | y l IH]; intros Hs; cbn [insert_by].
  - repeat constructor.
  - destruct (before (fst x) (fst y)) eqn:E.
    + constructor; [ exact Hs | ]. constructor. apply before_le. exact E.
    + inversion Hs as [ | y' l' Hs' Hhd]; subst.
      constructor; [ apply IH; exact Hs' | ].
      apply insert_by_HdRel; [ exact Hhd | ]. apply not_before_ge. exact E.
Qed.

Lemma isort_by_Sorted (l : list (string * nat)) : Sorted key_le (isort_by before l).
Proof.
  induction l as [ | x l IH]; cbn [isort_by]; [ constructor | ].
  apply insert_by_Sorted. exact IH.
Qed.

Lemma Sorted_map_fst (l : list (string * nat)) :
  Sorted key_le l -> Sorted str_le (map fst l).
Proof.
  induction 1 as [ | x l Hs IH Hhd]; cbn [map]; constructor;
    [ exact IH | ].
  destruct Hhd; constructor. assumption.
Qed.

Lemma combine_seq_indexed (keys : list string) :
  forall start pre,
    start = List.length pre ->
    Forall (fun p => nth_error (pre ++ keys) (snd p) = Some (fst p))
           (combine keys (seq start (List.length keys))).
Proof.
  induction keys as [ | k keys IH]; intros start pre Hs; cbn; [ constructor | ].
  constructor.
  - cbn. rewrite nth_error_app2 by lia. rewrite Hs, Nat.sub_diag. reflexivity.
  - specialize (IH (S start) (pre ++ [k])). rewrite <- app_assoc in IH.
    apply IH. rewrite length_app. cbn. lia.
Qed.

Lemma take_indexed (keys : list string) (l : list (string * nat)) :
  Forall (fun p => nth_error keys (snd p) = Some (fst p)) l ->
  take keys (map snd l) = map fst l.
Proof.
  unfold take. induction 1 as [ | p l Hp _ IH]; [ reflexivity | ].
  cbn [map flat_map]. rewrite Hp, IH. reflexivity.
Qed.

Lemma map_snd_combine_seq (keys : list string) (start : nat) :
  map snd (combine keys (seq start (List.length keys)))
  = seq start (List.length keys).
Proof.
  revert start. induction keys as [ | k keys IH]; intros start; cbn;
    [ reflexivity | ].
  rewrite IH. reflexivity.
Qed.

Lemma argsort_with_contract : argsort_contract (argsort_with before).
Proof.
  intros keys. unfold argsort_with.
  set (pairs := combine keys (seq 0 (List.length keys))).
  split.
  - rewrite <- (map_snd_combine_seq keys 0). apply Permutation_map.
    apply isort_by_Permutation.
  - rewrite take_indexed.
    + apply Sorted_map_fst, isort_by_Sorted.
    + eapply Permutation_Forall.
      * symmetry. apply isort_by_Permutation.
      * exact (combine_seq_indexed keys 0 [] eq_refl).
Qed.

End Insertion.

Lemma ltb_leb (a b : string) : String.ltb a b = true -> str_le a b.
Proof.
  unfold String.ltb, str_le, String.leb.
  destruct (String.compare a b); congruence.
Qed.

Lemma not_ltb_leb (a b : string) : String.ltb a b = false -> str_le b a.
Proof.
  unfold String.ltb, str_le, String.leb. rewrite (String.compare_antisym b a).
  destruct (String.compare a b); cbn; congruence.
Qed.

Lemma not_leb_leb (a b : string) : String.leb a b = false -> str_le b a.
Proof.
  intros H. destruct (String.leb_total a b) as [E | E]; [ congruence | exact E ].
Qed.

Lemma argsort_stable_contract : argsort_contract argsort_stable.
Proof.
  apply argsort_with_contract; [ intros a b H; exact H | exact not_leb_leb ].
Qed.

Lemma argsort_reversing_contract : argsort_contract argsort_reversing.
Proof. apply argsort_with_contract; [ exact ltb_leb | exact not_ltb_leb ]. Qed.

Lemma sample_world_clock_ok : clock_ok sample_world.
Proof.
  intros k. cbn [clock sample_world]. unfold sample_clock. cbn [local_now].
  unfold datetime_in_range, sample_now, timedelta_days, MAXORDINAL, US_PER_DAY,
    US_PER_HOUR, US_PER_SECOND.
  split; apply andb_true_intro;
    (split; [ apply Z.leb_le | apply Z.ltb_lt ]); lia.
Qed.

(** ** Texts of date-times *)

(** The text of a date-time is that of its truncation to the second. *)
Lemma strftime_truncate (t : datetime) : strftime (dt_truncate t) = strftime t.
Proof.
  unfold strftime, strftime_date, strftime_clock, dt_hour, dt_minute, dt_second,
    dt_truncate.
  replace ((t - t mod US_PER_SECOND) / US_PER_DAY) with (t / US_PER_DAY)
    by (unfold US_PER_DAY, US_PER_HOUR, US_PER_SECOND; dlia).
  replace ((t - t mod US_PER_SECOND) mod US_PER_DAY / US_PER_HOUR)
    with (t mod US_PER_DAY / US_PER_HOUR)
    by (unfold US_PER_DAY, US_PER_HOUR, US_PER_SECOND; dlia).
  replace ((t - t mod US_PER_SECOND) mod US_PER_DAY / US_PER_SECOND)
    with (t mod US_PER_DAY / US_PER_SECOND)
    by (unfold US_PER_DAY, US_PER_HOUR, US_PER_SECOND; dlia).
  reflexivity.
Qed.

Lemma dt_truncate_add_hours (t k : Z) :
  dt_truncate (t + timedelta_hours k) = dt_truncate t + timedelta_hours k.
Proof.
  unfold dt_truncate, timedelta_hours, US_PER_HOUR, US_PER_SECOND. dlia.
Qed.

(** ** The calendar *)

Lemma ord2ymd_split (n : Z) :
  ord2ymd n =
  let '(y, k, l) := ord2yd n in let '(m, d) := yd2md k l in (y, m, d).
Proof.
  unfold ord2ymd, ord2yd. cbv zeta.
  destruct ((_ =? 4) || (_ =? 4)); [ reflexivity | ].
  unfold yd2md. cbv zeta. destruct (_ <? _); reflexivity.
Qed.

(** The year of a day ordinal, by the leap-year rule. *)
Lemma ord2yd_spec (n : Z) :
  1 <= n ->
  let '(y, k, l) := ord2yd n in
  1 <= y /\ l = is_leap y /\ 0 <= k < 365 + (if l then 1 else 0)
  /\ n - 1 = days_before_year y + k.
Proof.
  intros H1. unfold ord2yd, is_leap, days_before_year. cbv zeta.
  repeat match goal with
         | |- context [?a =? ?b] => destruct (Z.eqb_spec a b)
         end;
    cbn [orb andb negb]; Z.div_mod_to_equations;
    first [ lia | repeat split; first [ reflexivity | lia ] ].
Qed.

Lemma days_before_year_succ (y : Z) :
  days_before_year (y + 1)
  = days_before_year y + 365 + (if is_leap y then 1 else 0).
Proof.
  unfold days_before_year, is_leap.
  repeat match goal with
         | |- context [?a =? ?b] => destruct (Z.eqb_spec a b)
         end;
    cbn [orb andb negb]; dlia.
Qed.

Lemma days_before_year_mono (y y' : Z) :
  y < y' -> days_before_year (y + 1) <= days_before_year y'.
Proof. unfold days_before_year. intros H. dlia. Qed.

Lemma ord2yd_mono (n n' : Z) :
  1 <= n -> n <= n' ->
  let '(y, k, l) := ord2yd n in
  let '(y', k', l') := ord2yd n' in
  y < y' \/ (y = y' /\ l = l' /\ k' - k = n' - n).
Proof.
  intros H1 H2.
  pose proof (ord2yd_spec n H1) as S.
  pose proof (ord2yd_spec n' ltac:(lia)) as S'.
  destruct (ord2yd n) as [[y k] l]. destruct (ord2yd n') as [[y' k'] l'].
  destruct S as (Hy & Hl & Hk & Hn). destruct S' as (Hy' & Hl' & Hk' & Hn').
  destruct (Z.lt_trichotomy y y') as [Hlt | [Heq | Hgt]].
  - left. exact Hlt.
  - right. subst y'. split; [ reflexivity | ]. split; [ congruence | lia ].
  - exfalso. pose proof (days_before_year_mono y' y Hgt) as M.
    rewrite days_before_year_succ in M. rewrite <- Hl' in M. lia.
Qed.

Lemma ord2yd_year_max (n : Z) :
  1 <= n <= MAXORDINAL -> let '(y, _, _) := ord2yd n in y <= 9999.
Proof.
  intros H. pose proof (ord2yd_spec n ltac:(lia)) as S.
  destruct (ord2yd n) as [[y k] l]. destruct S as (Hy & _ & Hk & Hn).
  destruct (Z.le_gt_cases y 9999) as [Hle | Hgt]; [ exact Hle | exfalso ].
  pose proof (days_before_year_mono 9999 y ltac:(lia)) as M.
  change (days_before_year (9999 + 1)) with 3652059 in M.
  unfold MAXORDINAL in H. lia.
Qed.

Lemma yd2md_steps (l : bool) :
  forallb (yd2md_step_ok l) (seq 0 366) = true.
Proof. destruct l; vm_compute; reflexivity. Qed.

Lemma yd2md_step (l : bool) (k : Z) :
  0 <= k < 365 + (if l then 1 else 0) ->
  let '(m, d) := yd2md k l in
  1 <= m <= 12 /\ 1 <= d <= 31
  /\ (k + 1 < 365 + (if l then 1 else 0) -> md_code k l < md_code (k + 1) l).
Proof.
  intros Hk. pose proof (yd2md_steps l) as H.
  rewrite forallb_forall in H. specialize (H (Z.to_nat k)).
  unfold yd2md_step_ok in H. cbv zeta in H. rewrite Z2Nat.id in H by lia.
  destruct (yd2md k l) as [m d].
  assert (Hin : In (Z.to_nat k) (seq 0 366))
    by (apply in_seq; destruct l; lia).
  apply H in Hin.
  replace (k <? 365 + (if l then 1 else 0)) with true in Hin
    by (symmetry; apply Z.ltb_lt; lia).
  repeat (apply andb_prop in Hin; destruct Hin as [Hin ?]).
  repeat match goal with
         | X : (_ <=? _) = true |- _ => apply Z.leb_le in X
         end.
  repeat split; lia.
Qed.

Lemma md_code_mono (l : bool) (k : Z) (j : nat) :
  0 <= k -> k + Z.of_nat j < 365 + (if l then 1 else 0) ->
  md_code k l <= md_code (k + Z.of_nat j) l
  /\ (0 < Z.of_nat j -> md_code k l < md_code (k + Z.of_nat j) l).
Proof.
  intros Hk. induction j as [ | j IH]; intros Hj.
  - rewrite Z.add_0_r. split; lia.
  - destruct IH as [IH1 IH2]; [ lia | ].
    pose proof (yd2md_step l (k + Z.of_nat j) ltac:(lia)) as St.
    destruct (yd2md (k + Z.of_nat j) l) as [m d]. destruct St as (_ & _ & St).
    replace (k + Z.of_nat (S j)) with (k + Z.of_nat j + 1) by lia.
    specialize (St ltac:(lia)). split; lia.
Qed.

(** ** The order of strings of digits *)

Lemma is_digit_value (c : ascii) :
  is_digit c = true -> 0 <= Z.of_nat (nat_of_ascii c) - 48 <= 9.
Proof.
  unfold is_digit. cbv zeta. intros H. apply andb_prop in H as [H1 H2].
  apply Nat.leb_le in H1, H2. lia.
Qed.

Lemma ascii_compare_value (a b : ascii) :
  Ascii.compare a b
  = (Z.of_nat (nat_of_ascii a) - 48 ?= Z.of_nat (nat_of_ascii b) - 48).
Proof.
  unfold Ascii.compare, nat_of_ascii. rewrite !N_nat_Z.
  rewrite <- N2Z.inj_compare.
  destruct (Z.compare_spec (Z.of_N (N_of_ascii a)) (Z.of_N (N_of_ascii b)));
    symmetry; [ apply Z.compare_eq_iff | apply Z.compare_lt_iff
                | apply Z.compare_gt_iff ]; lia.
Qed.

Lemma digits_value_acc (s : string) :
  forall acc,
    digits_value acc s
    = acc * 10 ^ Z.of_nat (String.length s) + digits_value 0 s.
Proof.
  induction s as [ | c s IH]; intros acc; cbn [digits_value String.length].
  - change (10 ^ Z.of_nat 0) with 1. lia.
  - rewrite IH, (IH (0 * 10 + _)). rewrite Nat2Z.inj_succ, Z.pow_succ_r by lia.
    ring.
Qed.

Lemma digits_value_bound (s : string) :
  all_digits s = true ->
  0 <= digits_value 0 s < 10 ^ Z.of_nat (String.length s).
Proof.
  induction s as [ | c s IH]; cbn [all_digits digits_value String.length].
  - intros _. change (10 ^ Z.of_nat 0) with 1. lia.
  - intros H. apply andb_prop in H as [Hc Hs]. apply is_digit_value in Hc.
    specialize (IH Hs). rewrite digits_value_acc.
    rewrite Nat2Z.inj_succ, Z.pow_succ_r by lia.
    assert (Hp : 0 < 10 ^ Z.of_nat (String.length s))
      by (apply Z.pow_pos_nonneg; lia).
    nia.
Qed.

(** Two strings of digits of the same length compare as the numbers they
    write. *)
Lemma compare_digits (a : string) :
  forall b,
    all_digits a = true -> all_digits b = true ->
    String.length a = String.length b ->
    String.compare a b = (digits_value 0 a ?= digits_value 0 b).
Proof.
  induction a as [ | c a IH]; intros [ | c' b] Ha Hb Hlen;
    try discriminate; [ reflexivity | ].
  cbn [all_digits] in Ha, Hb.
  apply andb_prop in Ha as [Hc Ha]. apply andb_prop in Hb as [Hc' Hb].
  cbn [String.length] in Hlen. injection Hlen as Hlen.
  cbn [String.compare digits_value].
  rewrite (digits_value_acc a (0 * 10 + _)), (digits_value_acc b (0 * 10 + _)).
  rewrite ascii_compare_value, (IH b Ha Hb Hlen), <- Hlen.
  pose proof (digits_value_bound a Ha) as Ba.
  pose proof (digits_value_bound b Hb) as Bb. rewrite <- Hlen in Bb.
  apply is_digit_value in Hc, Hc'.
  set (x := Z.of_nat (nat_of_ascii c) - 48) in *.
  set (y := Z.of_nat (nat_of_ascii c') - 48) in *.
  set (P := 10 ^ Z.of_nat (String.length a)) in *.
  set (u := digits_value 0 a) in *. set (v := digits_value 0 b) in *.
  destruct (Z.compare_spec x y) as [E | L | G].
  - subst y. destruct (Z.compare_spec u v); symmetry;
      [ apply Z.compare_eq_iff | apply Z.compare_lt_iff
        | apply Z.compare_gt_iff ]; lia.
  - symmetry. apply Z.compare_lt_iff. nia.
  - symmetry. apply Z.compare_gt_iff. nia.
Qed.

Lemma compare_append_same_length (a : string) :
  forall b s t,
    String.length a = String.length b ->
    String.compare (a +++ s) (b +++ t)
    = match String.compare a b with
      | Eq => String.compare s t
      | c => c
      end.
Proof.
  induction a as [ | c a IH]; intros [ | c' b] s t Hlen; try discriminate;
    [ reflexivity | ].
  cbn [String.length] in Hlen. injection Hlen as Hlen.
  cbn [String.append String.compare].
  destruct (Ascii.compare c c'); [ apply IH; exact Hlen | reflexivity .. ].
Qed.

Lemma pad2_spec (n : Z) :
  0 <= n < 100 ->
  all_digits (pad2 n) = true /\ String.length (pad2 n) = 2%nat
  /\ digits_value 0 (pad2 n) = n.
Proof.
  intros H. unfold pad2. destruct (n <? 10) eqn:E.
  - apply Z.ltb_lt in E. rewrite str_nat_small by lia.
    split; [ | split ].
    + change (is_digit "0" && (is_digit (digit_char n) && true) = true).
      rewrite digit_char_is_digit by lia. reflexivity.
    + reflexivity.
    + cbn [digits_value]. rewrite digit_char_value by lia. reflexivity.
  - apply Z.ltb_ge in E. split; [ apply str_nat_all_digits | ].
    split; [ apply (str_nat_length 1); change (10 ^ Z.of_nat 1) with 10;
             change (10 ^ Z.of_nat 2) with 100; lia
           | apply digits_value_str_nat; lia ].
Qed.

Lemma pad4_spec (n : Z) :
  0 <= n < 10000 ->
  all_digits (pad4 n) = true /\ String.length (pad4 n) = 4%nat
  /\ digits_value 0 (pad4 n) = n.
Proof.
  intros H. unfold pad4.
  destruct (n <? 10) eqn:E1; [ apply Z.ltb_lt in E1 | apply Z.ltb_ge in E1 ].
  { rewrite str_nat_small by lia. split; [ | split ].
    - change (is_digit "0" && (is_digit "0" && (is_digit "0"
              && (is_digit (digit_char n) && true))) = true).
      rewrite digit_char_is_digit by lia. reflexivity.
    - reflexivity.
    - cbn [digits_value String.append].
      rewrite digit_char_value by lia. reflexivity. }
  destruct (n <? 100) eqn:E2; [ apply Z.ltb_lt in E2 | apply Z.ltb_ge in E2 ].
  { split; [ | split ].
    - change (is_digit "0" && (is_digit "0" && all_digits (str_nat n)) = true).
      rewrite str_nat_all_digits. reflexivity.
    - cbn [String.append String.length]. rewrite (str_nat_length 1); [ reflexivity | ].
      change (10 ^ Z.of_nat 1) with 10. change (10 ^ Z.of_nat 2) with 100. lia.
    - cbn [String.append digits_value]. apply digits_value_str_nat. lia. }
  destruct (n <? 1000) eqn:E3; [ apply Z.ltb_lt in E3 | apply Z.ltb_ge in E3 ].
  { split; [ | split ].
    - change (is_digit "0" && all_digits (str_nat n) = true).
      rewrite str_nat_all_digits. reflexivity.
    - cbn [String.length]. rewrite (str_nat_length 2); [ reflexivity | ].
      change (10 ^ Z.of_nat 2) with 100. change (10 ^ Z.of_nat 3) with 1000. lia.
    - cbn [digits_value]. apply digits_value_str_nat. lia. }
  split; [ apply str_nat_all_digits | ].
  split; [ apply (str_nat_length 3); change (10 ^ Z.of_nat 3) with 1000;
           change (10 ^ Z.of_nat 4) with 10000; lia
         | apply digits_value_str_nat; lia ].
Qed.

(** ** The order of timestamps *)

Lemma ord2ymd_range (n : Z) :
  1 <= n <= MAXORDINAL ->
  let '(y, m, d) := ord2ymd n in
  1 <= y <= 9999 /\ 1 <= m <= 12 /\ 1 <= d <= 31.
Proof.
  intros H. rewrite ord2ymd_split.
  pose proof (ord2yd_spec n ltac:(lia)) as Sp.
  pose proof (ord2yd_year_max n H) as Hmax.
  destruct (ord2yd n) as [[y k] l]. destruct Sp as (Hy & _ & Hk & _).
  pose proof (yd2md_step l k Hk) as St.
  destruct (yd2md k l) as [m d]. destruct St as (Hm & Hd & _). lia.
Qed.

(** Later days have later dates. *)
Lemma ord2ymd_lt (n1 n2 : Z) :
  1 <= n1 -> n1 < n2 ->
  let '(y1, m1, d1) := ord2ymd n1 in
  let '(y2, m2, d2) := ord2ymd n2 in
  y1 < y2 \/ (y1 = y2 /\ m1 < m2) \/ (y1 = y2 /\ m1 = m2 /\ d1 < d2).
Proof.
  intros H1 H2. rewrite !ord2ymd_split.
  pose proof (ord2yd_mono n1 n2 H1 ltac:(lia)) as M.
  pose proof (ord2yd_spec n1 H1) as S1.
  pose proof (ord2yd_spec n2 ltac:(lia)) as S2.
  destruct (ord2yd n1) as [[y1 k1] l1]. destruct (ord2yd n2) as [[y2 k2] l2].
  destruct S1 as (_ & _ & Hk1 & _). destruct S2 as (_ & _ & Hk2 & _).
  pose proof (yd2md_step l1 k1 Hk1) as St1.
  pose proof (yd2md_step l2 k2 Hk2) as St2.
  destruct M as [M | (-> & -> & M)].
  - destruct (yd2md k1 l1) as [m1 d1]. destruct (yd2md k2 l2) as [m2 d2].
    left. exact M.
  - pose proof (md_code_mono l2 k1 (Z.to_nat (n2 - n1)) ltac:(lia)) as C.
    rewrite Z2Nat.id in C by lia.
    replace (k1 + (n2 - n1)) with k2 in C by lia.
    destruct C as [_ C]; [ lia | ]. specialize (C ltac:(lia)).
    unfold md_code in C.
    destruct (yd2md k1 l2) as [m1 d1]. destruct (yd2md k2 l2) as [m2 d2].
    right. lia.
Qed.

Lemma lex_compare_lt (x y : Z) (a b : list Z) :
  x < y -> lex_compare (x :: a) (y :: b) = Lt.
Proof.
  intros H. cbn [lex_compare]. apply Z.compare_lt_iff in H. rewrite H. reflexivity.
Qed.

Lemma lex_compare_eq (x : Z) (a b : list Z) :
  lex_compare (x :: a) (x :: b) = lex_compare a b.
Proof. cbn [lex_compare]. rewrite Z.compare_refl. reflexivity. Qed.

(** Days and seconds of the day, from whole seconds. *)
Lemma day_of_seconds (t : datetime) :
  t / US_PER_DAY = t / US_PER_SECOND / 86400.
Proof.
  rewrite Z.div_div by (unfold US_PER_SECOND; lia). reflexivity.
Qed.

Lemma second_of_day (t : datetime) :
  t mod US_PER_DAY / US_PER_SECOND = (t / US_PER_SECOND) mod 86400.
Proof.
  replace US_PER_DAY with (US_PER_SECOND * 86400) by reflexivity.
  rewrite Z.rem_mul_r by (unfold US_PER_SECOND; lia).
  rewrite Z.mul_comm, Z.div_add by (unfold US_PER_SECOND; lia).
  rewrite Z.div_small
    by (apply Z.mod_pos_bound; unfold US_PER_SECOND; lia).
  reflexivity.
Qed.

Lemma dt_hour_of_seconds (t : datetime) :
  dt_hour t = (t / US_PER_SECOND) mod 86400 / 3600.
Proof.
  unfold dt_hour. rewrite <- second_of_day.
  rewrite Z.div_div by (unfold US_PER_SECOND; lia). reflexivity.
Qed.

Lemma dt_minute_of_seconds (t : datetime) :
  dt_minute t = (t / US_PER_SECOND) mod 86400 / 60 mod 60.
Proof. unfold dt_minute. rewrite second_of_day. reflexivity. Qed.

Lemma dt_second_of_seconds (t : datetime) :
  dt_second t = (t / US_PER_SECOND) mod 86400 mod 60.
Proof. unfold dt_second. rewrite second_of_day. reflexivity. Qed.

(** Within the representable range, a later second has later fields. *)
Lemma dt_fields_lt (t1 t2 : datetime) :
  datetime_in_range t1 = true -> datetime_in_range t2 = true ->
  t1 / US_PER_SECOND < t2 / US_PER_SECOND ->
  lex_compare (dt_fields t1) (dt_fields t2) = Lt.
Proof.
  unfold datetime_in_range. intros R1 R2 Hlt.
  apply andb_prop in R1 as [R1 _]. apply andb_prop in R2 as [R2 _].
  apply Z.leb_le in R1, R2.
  unfold dt_fields.
  rewrite !dt_hour_of_seconds, !dt_minute_of_seconds, !dt_second_of_seconds,
    !day_of_seconds.
  assert (S1 : 0 <= t1 / US_PER_SECOND)
    by (apply Z.div_pos; [ exact R1 | unfold US_PER_SECOND; lia ]).
  set (s1 := t1 / US_PER_SECOND) in *. set (s2 := t2 / US_PER_SECOND) in *.
  clearbody s1 s2. clear R1 R2 t1 t2.
  destruct (Z.eq_dec (s1 / 86400) (s2 / 86400)) as [E | N].
  - rewrite <- E. destruct (ord2ymd (s1 / 86400 + 1)) as [[y m] d].
    rewrite !lex_compare_eq.
    assert (Hs : s1 mod 86400 / 3600 < s2 mod 86400 / 3600
                 \/ (s1 mod 86400 / 3600 = s2 mod 86400 / 3600
                     /\ s1 mod 86400 / 60 mod 60 < s2 mod 86400 / 60 mod 60)
                 \/ (s1 mod 86400 / 3600 = s2 mod 86400 / 3600
                     /\ s1 mod 86400 / 60 mod 60 = s2 mod 86400 / 60 mod 60
                     /\ s1 mod 86400 mod 60 < s2 mod 86400 mod 60))
      by dlia.
    destruct Hs as [Hs | [[-> Hs] | (-> & -> & Hs)]];
      rewrite ?lex_compare_eq; apply lex_compare_lt; exact Hs.
  - assert (H1 : 1 <= s1 / 86400 + 1) by dlia.
    assert (H2 : s1 / 86400 + 1 < s2 / 86400 + 1) by dlia.
    pose proof (ord2ymd_lt (s1 / 86400 + 1) (s2 / 86400 + 1) H1 H2) as L.
    destruct (ord2ymd (s1 / 86400 + 1)) as [[y1 m1] d1].
    destruct (ord2ymd (s2 / 86400 + 1)) as [[y2 m2] d2].
    destruct L as [L | [[-> L] | (-> & -> & L)]];
      rewrite ?lex_compare_eq; apply lex_compare_lt; exact L.
Qed.

Lemma dt_fields_range (t : datetime) :
  datetime_in_range t = true ->
  match dt_fields t with
  | [y; m; d; h; mi; s] =>
      0 <= y < 10000 /\ 0 <= m < 100 /\ 0 <= d < 100
      /\ 0 <= h < 100 /\ 0 <= mi < 100 /\ 0 <= s < 100
  | _ => False
  end.
Proof.
  unfold datetime_in_range. intros R.
  apply andb_prop in R as [R R']. apply Z.leb_le in R. apply Z.ltb_lt in R'.
  unfold dt_fields.
  assert (Hn : 1 <= t / US_PER_DAY + 1 <= MAXORDINAL)
    by (revert R R'; unfold MAXORDINAL, US_PER_DAY, US_PER_HOUR, US_PER_SECOND;
        dlia).
  pose proof (ord2ymd_range _ Hn) as Y.
  destruct (ord2ymd (t / US_PER_DAY + 1)) as [[y m] d].
  assert (Hc : 0 <= dt_hour t < 24 /\ 0 <= dt_minute t < 60
               /\ 0 <= dt_second t < 60)
    by (unfold dt_hour, dt_minute, dt_second, US_PER_DAY, US_PER_HOUR,
          US_PER_SECOND; dlia).
  lia.
Qed.

Lemma strftime_format (t : datetime) : strftime t = format_fields (dt_fields t).
Proof.
  unfold strftime, strftime_date, strftime_clock, dt_fields.
  destruct (ord2ymd (t / US_PER_DAY + 1)) as [[y m] d].
  cbn [format_fields]. rewrite !append_assoc. reflexivity.
Qed.

Lemma compare_pad2 (a b : Z) (s t : string) :
  0 <= a < 100 -> 0 <= b < 100 ->
  String.compare (pad2 a +++ s) (pad2 b +++ t)
  = match a ?= b with
    | Eq => String.compare s t
    | c => c
    end.
Proof.
  intros Ha Hb.
  destruct (pad2_spec a Ha) as (Da & La & Va).
  destruct (pad2_spec b Hb) as (Db & Lb & Vb).
  rewrite compare_append_same_length by congruence.
  rewrite compare_digits by congruence. rewrite Va, Vb. reflexivity.
Qed.

Lemma compare_pad4 (a b : Z) (s t : string) :
  0 <= a < 10000 -> 0 <= b < 10000 ->
  String.compare (pad4 a +++ s) (pad4 b +++ t)
  = match a ?= b with
    | Eq => String.compare s t
    | c => c
    end.
Proof.
  intros Ha Hb.
  destruct (pad4_spec a Ha) as (Da & La & Va).
  destruct (pad4_spec b Hb) as (Db & Lb & Vb).
  rewrite compare_append_same_length by congruence.
  rewrite compare_digits by congruence. rewrite Va, Vb. reflexivity.
Qed.

Lemma compare_pad2_last (a b : Z) :
  0 <= a < 100 -> 0 <= b < 100 ->
  String.compare (pad2 a) (pad2 b)
  = match a ?= b with
    | Eq => Eq
    | c => c
    end.
Proof.
  intros Ha Hb.
  destruct (pad2_spec a Ha) as (Da & La & Va).
  destruct (pad2_spec b Hb) as (Db & Lb & Vb).
  rewrite compare_digits by congruence. rewrite Va, Vb.
  destruct (a ?= b); reflexivity.
Qed.

(** The texts of two date-times compare as their fields do: the order of
    the strings is the order of time, second by second. *)
Lemma strftime_compare (t1 t2 : datetime) :
  datetime_in_range t1 = true -> datetime_in_range t2 = true ->
  String.compare (strftime t1) (strftime t2)
  = lex_compare (dt_fields t1) (dt_fields t2).
Proof.
  intros R1 R2. rewrite !strftime_format.
  pose proof (dt_fields_range t1 R1) as F1.
  pose proof (dt_fields_range t2 R2) as F2.
  destruct (dt_fields t1) as [ | y1 [ | m1 [ | d1 [ | h1 [ | i1 [ | s1 [ | ? ?]]]]]]];
    try contradiction.
  destruct (dt_fields t2) as [ | y2 [ | m2 [ | d2 [ | h2 [ | i2 [ | s2 [ | ? ?]]]]]]];
    try contradiction.
  cbn [format_fields lex_compare].
  rewrite compare_pad4 by lia. destruct (y1 ?= y2); try reflexivity.
  cbn [String.append String.compare]. change (Ascii.compare "-" "-") with Eq.
  cbv iota.
  rewrite compare_pad2 by lia. destruct (m1 ?= m2); try reflexivity.
  cbn [String.append String.compare]. change (Ascii.compare "-" "-") with Eq.
  cbv iota.
  rewrite compare_pad2 by lia. destruct (d1 ?= d2); try reflexivity.
  cbn [String.append String.compare]. change (Ascii.compare " " " ") with Eq.
  cbv iota.
  rewrite compare_pad2 by lia. destruct (h1 ?= h2); try reflexivity.
  cbn [String.append String.compare]. change (Ascii.compare ":" ":") with Eq.
  cbv iota.
  rewrite compare_pad2 by lia. destruct (i1 ?= i2); try reflexivity.
  cbn [String.append String.compare]. change (Ascii.compare ":" ":") with Eq.
  cbv iota.
  apply compare_pad2_last; lia.
Qed.

Lemma strftime_same_second (t1 t2 : datetime) :
  t1 / US_PER_SECOND = t2 / US_PER_SECOND -> strftime t1 = strftime t2.
Proof.
  intros E. rewrite <- (strftime_truncate t1), <- (strftime_truncate t2).
  f_equal. unfold dt_truncate. revert E. unfold US_PER_SECOND. dlia.
Qed.

Lemma string_compare_refl (s : string) : String.compare s s = Eq.
Proof.
  induction s as [ | c s IH]; cbn [String.compare]; [ reflexivity | ].
  rewrite ascii_compare_value, Z.compare_refl. exact IH.
Qed.

Lemma str_le_refl (s : string) : str_le s s.
Proof. unfold str_le, String.leb. rewrite string_compare_refl. reflexivity. Qed.

(** The order of the texts is the order of the seconds. *)
Lemma strftime_le_iff (t1 t2 : datetime) :
  datetime_in_range t1 = true -> datetime_in_range t2 = true ->
  str_le (strftime t1) (strftime t2)
  <-> t1 / US_PER_SECOND <= t2 / US_PER_SECOND.
Proof.
  intros R1 R2. split.
  - intros H. destruct (Z.le_gt_cases (t1 / US_PER_SECOND) (t2 / US_PER_SECOND))
      as [L | G]; [ exact L | exfalso ].
    pose proof (dt_fields_lt t2 t1 R2 R1 G) as C.
    rewrite <- strftime_compare in C by assumption.
    unfold str_le, String.leb in H. rewrite String.compare_antisym, C in H.
    discriminate.
  - intros H. apply Z.le_lteq in H. destruct H as [L | E].
    + pose proof (dt_fields_lt t1 t2 R1 R2 L) as C.
      rewrite <- strftime_compare in C by assumption.
      unfold str_le, String.leb. rewrite C. reflexivity.
    + rewrite (strftime_same_second t1 t2 E). apply str_le_refl.
Qed.

(** ** Offsets *)

Lemma row_of_timestamp (g r : Transaction) : row_of g r -> timestamp r = timestamp g.
Proof. intros [-> | ->]; reflexivity. Qed.

(** The timestamps of a batch are the texts of the anchor plus the offsets
    of its rows, all within the representable range. *)
Lemma batch_offsets (cfg : Config) (argsort : list string -> list nat)
      (n : Z) (w : World) (df : DataFrame) (w' : World) :
  generer_batch_transactions cfg argsort n w = Ok (df, w') ->
  let window_start := local_now (tape_hd (clock w)) - timedelta_days 7 in
  datetime_in_range window_start = true
  /\ datetime_in_range (window_start + timedelta_days 7) = true
  /\ exists offsets,
      map timestamp df
      = map (fun k => strftime (window_start + timedelta_hours k)) offsets
      /\ Forall (fun k => 0 <= k <= 7 * 24
                          /\ datetime_in_range (window_start + timedelta_hours k)
                             = true) offsets.
Proof.
  intros H window_start.
  pose proof (batch_rows _ _ _ _ _ _ H) as Hrows.
  apply generer_batch_transactions_Ok in H.
  destruct H as (records & Hbase & _ & _ & _ & _ & Hnow).
  split; [ exact Hbase | ].
  split; [ replace (window_start + timedelta_days 7)
             with (local_now (tape_hd (clock w)))
             by (unfold window_start; lia); exact Hnow | ].
  assert (F : Forall (fun r => exists k,
                          timestamp r = strftime (window_start + timedelta_hours k)
                          /\ (0 <= k <= 7 * 24
                              /\ datetime_in_range (window_start + timedelta_hours k)
                                 = true)) df).
  { eapply Forall_impl; [ | exact Hrows ].
    intros r (g & (g0 & k & _ & Hk & Hr & ->) & Hrow).
    exists k. rewrite (row_of_timestamp _ _ Hrow). auto. }
  apply Forall_exists_list in F. destruct F as [offsets F].
  apply Forall2_map_eq in F. destruct F as [F1 F2].
  exists offsets. split; assumption.
Qed.

(** Texts in ascending order come from offsets in ascending order. *)
Lemma sorted_offsets (base : datetime) (offsets : list Z) :
  Forall (fun k => 0 <= k <= 7 * 24
                   /\ datetime_in_range (base + timedelta_hours k) = true)
         offsets ->
  Sorted str_le (map (fun k => strftime (base + timedelta_hours k)) offsets) ->
  Sorted Z.le offsets.
Proof.
  induction offsets as [ | k offsets IH]; intros Hr Hs; [ constructor | ].
  inversion Hr as [ | ? ? [_ Hk] Hr']; subst.
  cbn [map] in Hs. inversion Hs as [ | ? ? Hs' Hhd]; subst.
  constructor; [ apply IH; assumption | ].
  destruct offsets as [ | k' offsets]; constructor.
  inversion Hr' as [ | ? ? [_ Hk'] _]; subst.
  cbn [map] in Hhd. inversion Hhd as [ | ? ? Hle]; subst.
  apply strftime_le_iff in Hle; try assumption.
  revert Hle. unfold timedelta_hours, US_PER_HOUR, US_PER_SECOND. dlia.
Qed.

(** ** Ordering *)

(** C2.  For every count of one or more, every state of the two random
    generators and every clock whose readings are representable date-times,
    [generer_batch_transactions] returns a frame of that many rows whose
    [timestamp] column ascends: each entry is at most the next one, in the
    order of strings in which [sort_values] compares the column.  That
    order is the order of time: the offsets from the window anchor ascend
    as well. *)
Theorem batch_sorted_by_timestamp
        (argsort : list string -> list nat)
        (Hsort : argsort_contract argsort)
        (n : Z) (w : World) (Hn : 1 <= n) (Hclock : clock_ok w) :
  exists df w',
    generer_batch_transactions CONFIG argsort n w = Ok (df, w')
    /\ List.length df = Z.to_nat n
    /\ Sorted str_le (map timestamp df)
    /\ exists offsets,
        map timestamp df
        = map (fun k => strftime (local_now (tape_hd (clock w))
                                  - timedelta_days 7 + timedelta_hours k))
              offsets
        /\ Sorted Z.le offsets.
Proof.
  destruct (total_datetime_now w Hclock) as (now & w1 & E1 & [H7 H0] & Hw1).
  assert (H0' : datetime_in_range (now - timedelta_days 7 + timedelta_days 7) = true)
    by (replace (now - timedelta_days 7 + timedelta_days 7) with now by lia;
        exact H0).
  destruct (total_generer_loop_CONFIG (now - timedelta_days 7) (Z.to_nat n)
                                      H7 H0' [] w1 Hw1)
    as (records & w2 & E2 & Hlen & _).
  cbn [List.length Nat.add] in Hlen.
  set (frame := pd_DataFrame records).
  set (indexer := argsort (map timestamp frame)).
  destruct (Hsort (map timestamp frame)) as [Hperm Hsorted].
  rewrite length_map in Hperm.
  assert (Hrun : generer_batch_transactions CONFIG argsort n w
                 = Ok (take frame indexer, w2)).
  { unfold generer_batch_transactions, bind. rewrite E1.
    unfold datetime_sub, datetime_add, lift.
    replace (now + - timedelta_days 7) with (now - timedelta_days 7) by lia.
    rewrite H7, E2. fold frame. unfold sort_values_timestamp.
    destruct frame as [ | r0 rows] eqn:Hf; [ | reflexivity ].
    apply (f_equal (@List.length _)) in Hf. subst frame.
    rewrite pd_DataFrame_length, Hlen in Hf. cbn in Hf. lia. }
  assert (Hs : Sorted str_le (map timestamp (take frame indexer)))
    by (rewrite take_map; exact Hsorted).
  exists (take frame indexer), w2. split; [ exact Hrun | ]. split; [ | split ].
  - rewrite (Permutation_length (take_Permutation frame indexer Hperm)).
    subst frame. rewrite pd_DataFrame_length. exact Hlen.
  - exact Hs.
  - destruct (batch_offsets _ _ _ _ _ _ Hrun) as (_ & _ & offsets & Hmap & Hr).
    exists offsets. split; [ exact Hmap | ].
    rewrite Hmap in Hs. eapply sorted_offsets; eassumption.
Qed.

Lemma batch_sorted_by_timestamp_witness :
  exists df w',
    generer_batch_transactions CONFIG argsort_stable 6 sample_world = Ok (df, w')
    /\ List.length df = Z.to_nat 6
    /\ Sorted str_le (map timestamp df)
    /\ exists offsets,
        map timestamp df
        = map (fun k => strftime (sample_now - timedelta_days 7
                                  + timedelta_hours k)) offsets
        /\ Sorted Z.le offsets.
Proof.
  apply (batch_sorted_by_timestamp argsort_stable argsort_stable_contract
                                   6 sample_world).
  - lia.
  - exact sample_world_clock_ok.
Defined.

(** ** Timestamps *)

(** The timestamp of every row is the text of the anchor plus a whole
    number of hours of [0 .. 7*24]. *)
Lemma batch_timestamps (cfg : Config) (argsort : list string -> list nat)
      (n : Z) (w : World) (df : DataFrame) (w' : World) :
  generer_batch_transactions cfg argsort n w = Ok (df, w') ->
  Forall (fun r =>
            exists k,
              0 <= k <= 7 * 24
              /\ timestamp r
                 = strftime (local_now (tape_hd (clock w)) - timedelta_days 7
                             + timedelta_hours k)) df.
Proof.
  intros H. apply batch_rows in H. eapply Forall_impl; [ | exact H ].
  intros r (g & (g0 & k & _ & Hk & _ & ->) & Hrow).
  exists k. split; [ exact Hk | ]. rewrite (row_of_timestamp _ _ Hrow). reflexivity.
Qed.

(** C5.  In a batch, with [window_start] the first clock reading minus
    seven days, the timestamp of every transaction is [window_start] plus a
    whole number [k] of hours with [0 <= k <= 7*24], a date-time of the
    closed interval from [window_start] to [window_start] plus seven days.
    The field holds the text of that date-time, which has no fraction of a
    second: it is also the text of the truncated [window_start] plus [k]
    hours, and as a text it lies between the texts of the two ends of the
    window. *)
Theorem timestamps_within_window
        (cfg : Config) (argsort : list string -> list nat) (n : Z) (w : World)
        (df : DataFrame) (w' : World)
        (Hrun : generer_batch_transactions cfg argsort n w = Ok (df, w')) :
  let window_start := local_now (tape_hd (clock w)) - timedelta_days 7 in
  Forall (fun r =>
            exists k,
              0 <= k <= 7 * 24
              /\ timestamp r = strftime (window_start + timedelta_hours k)
              /\ window_start <= window_start + timedelta_hours k
                 <= window_start + timedelta_days 7
              /\ timestamp r
                 = strftime (dt_truncate window_start + timedelta_hours k)
              /\ str_le (strftime window_start) (timestamp r)
              /\ str_le (timestamp r)
                        (strftime (window_start + timedelta_days 7))) df.
Proof.
  intros window_start.
  destruct (batch_offsets _ _ _ _ _ _ Hrun) as (Hws & Hwe & _).
  fold window_start in Hws, Hwe.
  apply batch_rows in Hrun. fold window_start in Hrun.
  eapply Forall_impl; [ | exact Hrun ].
  intros r (g & (g0 & k & _ & Hk & Hr & ->) & Hrow).
  exists k. rewrite (row_of_timestamp _ _ Hrow). cbn [timestamp set_timestamp].
  assert (Hin : window_start <= window_start + timedelta_hours k
                <= window_start + timedelta_days 7)
    by (unfold timedelta_hours, timedelta_days, US_PER_DAY, US_PER_HOUR,
          US_PER_SECOND; lia).
  split; [ exact Hk | ]. split; [ reflexivity | ]. split; [ exact Hin | ].
  split; [ | split ].
  - rewrite <- dt_truncate_add_hours, strftime_truncate. reflexivity.
  - apply strftime_le_iff; try assumption.
    apply Z.div_le_mono; [ reflexivity | lia ].
  - apply strftime_le_iff; try assumption.
    apply Z.div_le_mono; [ reflexivity | lia ].
Qed.

Lemma timestamps_within_window_witness :
  exists df w',
    generer_batch_transactions CONFIG argsort_stable 6 sample_world = Ok (df, w')
    /\ Forall (fun r =>
                 exists k,
                   0 <= k <= 7 * 24
                   /\ timestamp r
                      = strftime (sample_now - timedelta_days 7 + timedelta_hours k)
                   /\ sample_now - timedelta_days 7
                      <= sample_now - timedelta_days 7 + timedelta_hours k
                      <= sample_now - timedelta_days 7 + timedelta_days 7
                   /\ timestamp r
                      = strftime (dt_truncate (sample_now - timedelta_days 7)
                                  + timedelta_hours k)
                   /\ str_le (strftime (sample_now - timedelta_days 7))
                             (timestamp r)
                   /\ str_le (timestamp r)
                             (strftime (sample_now - timedelta_days 7
                                        + timedelta_days 7))) df.
Proof.
  assert (H : is_Ok (generer_batch_transactions CONFIG argsort_stable 6 sample_world)
              = true) by (vm_compute; reflexivity).
  destruct (is_Ok_true _ H) as [[df w'] E].
  exists df, w'. split; [ exact E | ].
  exact (timestamps_within_window CONFIG argsort_stable 6 sample_world df w' E).
Defined.

Lemma dt_minute_add_hours (t k : Z) :
  dt_minute (t + timedelta_hours k) = dt_minute t.
Proof.
  unfold dt_minute, timedelta_hours, US_PER_DAY, US_PER_HOUR, US_PER_SECOND.
  dlia.
Qed.

Lemma dt_second_add_hours (t k : Z) :
  dt_second (t + timedelta_hours k) = dt_second t.
Proof.
  unfold dt_second, timedelta_hours, US_PER_DAY, US_PER_HOUR, US_PER_SECOND.
  dlia.
Qed.

(** C10.  Within one batch every timestamp carries the minute and the
    second of the window anchor, since it is the anchor plus whole hours;
    and the timestamps of a batch take at most 169 distinct values, one per
    offset of 0 to 168 hours. *)
Theorem timestamps_share_minute_second
        (cfg : Config) (argsort : list string -> list nat) (n : Z) (w : World)
        (df : DataFrame) (w' : World)
        (Hrun : generer_batch_transactions cfg argsort n w = Ok (df, w')) :
  let window_start := local_now (tape_hd (clock w)) - timedelta_days 7 in
  Forall (fun r =>
            exists k,
              0 <= k <= 7 * 24
              /\ timestamp r
                 = strftime_date (window_start + timedelta_hours k) +++ " "
                   +++ pad2 (dt_hour (window_start + timedelta_hours k)) +++ ":"
                   +++ pad2 (dt_minute window_start) +++ ":"
                   +++ pad2 (dt_second window_start)) df
  /\ (List.length (nodup string_dec (map timestamp df)) <= 169)%nat.
Proof.
  intros window_start. apply batch_timestamps in Hrun. fold window_start in Hrun.
  split.
  - eapply Forall_impl; [ | exact Hrun ].
    intros r (k & Hk & Hts). exists k. split; [ exact Hk | ].
    rewrite Hts. unfold strftime, strftime_clock.
    rewrite dt_minute_add_hours, dt_second_add_hours. reflexivity.
  - set (stamp := fun i : nat =>
                    strftime (window_start + timedelta_hours (Z.of_nat i))).
    replace 169%nat with (List.length (map stamp (seq 0 169)))
      by (rewrite length_map, length_seq; reflexivity).
    apply NoDup_incl_length; [ apply NoDup_nodup | ].
    intros ts Hts. apply nodup_In in Hts. apply in_map_iff in Hts.
    destruct Hts as (r & <- & Hr).
    rewrite Forall_forall in Hrun. destruct (Hrun r Hr) as (k & Hk & ->).
    apply in_map_iff. exists (Z.to_nat k). split.
    + unfold stamp. rewrite Z2Nat.id by lia. reflexivity.
    + apply in_seq. lia.
Qed.

Lemma timestamps_share_minute_second_witness :
  exists df w',
    generer_batch_transactions CONFIG argsort_stable 6 sample_world = Ok (df, w')
    /\ Forall (fun r =>
                 exists k,
                   0 <= k <= 7 * 24
                   /\ timestamp r
                      = strftime_date (sample_now - timedelta_days 7
                                       + timedelta_hours k) +++ " "
                        +++ pad2 (dt_hour (sample_now - timedelta_days 7
                                           + timedelta_hours k)) +++ ":"
                        +++ pad2 (dt_minute (sample_now - timedelta_days 7)) +++ ":"
                        +++ pad2 (dt_second (sample_now - timedelta_days 7))) df
    /\ (List.length (nodup string_dec (map timestamp df)) <= 169)%nat.
Proof.
  assert (H : is_Ok (generer_batch_transactions CONFIG argsort_stable 6 sample_world)
              = true) by (vm_compute; reflexivity).
  destruct (is_Ok_true _ H) as [[df w'] E].
  exists df, w'. split; [ exact E | ].
  exact (timestamps_share_minute_second CONFIG argsort_stable 6 sample_world
                                        df w' E).
Defined.

(** ** Identifiers *)

Lemma str_of_Z_digits (k : nat) (n : Z) :
  10 ^ Z.of_nat k <= n < 10 ^ Z.of_nat (S k) ->
  String.length (str_of_Z n) = S k /\ all_digits (str_of_Z n) = true.
Proof.
  intros H.
  assert (Hp : 0 < 10 ^ Z.of_nat k) by (apply Z.pow_pos_nonneg; lia).
  rewrite str_of_Z_nonneg by lia.
  split; [ apply str_nat_length; exact H | apply str_nat_all_digits ].
Qed.

Lemma row_of_user_id (g r : Transaction) : row_of g r -> user_id r = user_id g.
Proof. intros [-> | ->]; reflexivity. Qed.

Lemma row_of_transaction_id (g r : Transaction) :
  row_of g r -> transaction_id r = transaction_id g.
Proof. intros [-> | ->]; reflexivity. Qed.

(** Every prefix and every number of the range is a possible outcome of
    [generer_user_id]. *)
Lemma generer_user_id_onto (prefix : string) (n : Z) :
  In prefix PREFIXES -> 1000000 <= n <= 9999999 ->
  exists w w', generer_user_id w = Ok (format_user_id prefix n, w').
Proof.
  intros Hp Hn.
  assert (E : exists i, 0 <= i < 5 /\ nth (Z.to_nat i) PREFIXES "77" = prefix).
  { cbn in Hp. destruct Hp as [<- | [<- | [<- | [<- | [<- | []]]]]];
      [ exists 0 | exists 1 | exists 2 | exists 3 | exists 4 ];
      (split; [ lia | reflexivity ]). }
  destruct E as (i & Hi & <-).
  exists (mkWorld (const_tape 0) (const_tape S754_nan)
                  (list_tape [i; n - 1000000] 0)
                  (const_tape (mkClockReading 0 0))).
  eexists. unfold generer_user_id, bind, random_choice, random_randint, bind,
    random_randbelow, ret.
  cbn [PREFIXES List.length py_random tape_hd tape_tl list_tape nth Z.of_nat
       np_uniform np_lognormal clock Pos.of_succ_nat Pos.succ].
  change (0 <? 9999999 + 1 - 1000000) with true. cbv iota.
  rewrite (Z.mod_small i) by lia.
  rewrite (Z.mod_small (n - 1000000)) by lia.
  replace (1000000 + (n - 1000000)) with n by lia.
  reflexivity.
Qed.

Lemma generer_batch_transactions_split
      (cfg : Config) (argsort : list string -> list nat) (n : Z) (w : World)
      (df : DataFrame) (w' : World) :
  generer_batch_transactions cfg argsort n w = Ok (df, w') ->
  exists records,
    generated_records cfg n w = Ok (records, w')
    /\ sort_values_timestamp argsort (pd_DataFrame records) = Ok df.
Proof.
  unfold generer_batch_transactions, generated_records. intros H. do 3 step H.
  apply lift_Ok in H. destruct H as [Hs Hw]. cbn [fst snd] in Hs, Hw. subst w2.
  exists a1. split; [ | exact Hs ].
  unfold bind. rewrite Hc, Hc0. exact Hc1.
Qed.

(** ** Which draw and which reading make which field *)

Lemma advanced_refl (w : World) : advanced 0 0 w w.
Proof. split; intros j; reflexivity. Qed.

Lemma advanced_trans (a b c d : nat) (w w1 w2 : World) :
  advanced a b w w1 -> advanced c d w1 w2 -> advanced (a + c) (b + d) w w2.
Proof.
  intros [P1 C1] [P2 C2]. split; intros j.
  - rewrite P2, P1. f_equal. lia.
  - rewrite C2, C1. f_equal. lia.
Qed.

Lemma random_randbelow_trace (n : Z) (w : World) (i : Z) (w' : World) :
  random_randbelow n w = Ok (i, w') ->
  i = py_random w O mod n /\ advanced 1 0 w w'.
Proof.
  unfold random_randbelow. intros H. injection H as <- <-.
  split; [ reflexivity | ]. split; intros j; reflexivity.
Qed.

Lemma random_randint_trace (a b : Z) (w : World) (x : Z) (w' : World) :
  random_randint a b w = Ok (x, w') ->
  x = a + py_random w O mod (b + 1 - a) /\ advanced 1 0 w w'.
Proof.
  unfold random_randint. destruct (0 <? b + 1 - a); [ | discriminate ].
  intros H. step H. step H. injection H as <- <-.
  apply random_randbelow_trace in Hc. destruct Hc as [-> Hadv]. auto.
Qed.

Lemma random_choice_trace {A : Type} (items : list A) (w : World)
      (x : A) (w' : World) :
  random_choice items w = Ok (x, w') ->
  nth_error items
            (Z.to_nat (py_random w O mod Z.of_nat (List.length items)))
  = Some x
  /\ advanced 1 0 w w'.
Proof.
  destruct items as [ | a items]; [ discriminate | ].
  unfold random_choice. intros H. step H. step H. injection H as <- <-.
  pose proof Hc as Hr. apply random_randbelow_Ok in Hr;
    [ | cbn [List.length]; lia ].
  apply random_randbelow_trace in Hc. destruct Hc as [E Hadv].
  split; [ | exact Hadv ]. rewrite <- E.
  change (nth_error (a :: items) (Z.to_nat a0)
          = Some (nth (Z.to_nat a0) (a :: items) a)).
  apply nth_error_nth'. lia.
Qed.

Lemma np_random_choice_trace (a : list string) (p : list Q) (w : World)
      (x : string) (w' : World) :
  np_random_choice a p w = Ok (x, w') -> advanced 0 0 w w'.
Proof.
  unfold np_random_choice. destruct a as [ | a0 a]; [ discriminate | ].
  destruct (negb _); [ discriminate | ].
  destruct (existsb _ _); [ discriminate | ].
  destruct (negb _); [ discriminate | ].
  intros H. step H. unfold np_random_sample in Hc. injection Hc as _ <-.
  destruct (nth_error _ _); [ | discriminate ].
  step H. injection H as _ <-. split; intros j; reflexivity.
Qed.

Lemma generer_montant_trace (cfg : Config) (ty : string) (w : World)
      (x : PyNum) (w' : World) :
  generer_montant cfg ty w = Ok (x, w') -> advanced 0 0 w w'.
Proof.
  unfold generer_montant.
  destruct (dict_get _ _) as [[min_val max_val] | ]; [ | discriminate ].
  intros H. do 3 step H. step H. injection H as _ <-.
  apply lift_Ok in Hc, Hc0. destruct Hc as [_ Hc]. destruct Hc0 as [_ Hc0].
  cbn [snd] in Hc, Hc0. subst w0 w1.
  unfold np_random_lognormal in Hc1. injection Hc1 as _ <-.
  split; intros j; reflexivity.
Qed.

(** [generer_user_id] never raises: the prefix is the entry of the list
    at the first outcome, the number is 1000000 plus the second. *)
Lemma generer_user_id_trace (w : World) :
  exists w',
    generer_user_id w
    = Ok (user_id_of_draws (py_random w 0%nat) (py_random w 1%nat), w')
    /\ advanced 2 0 w w'.
Proof.
  eexists. split; [ reflexivity | ]. split; intros j; reflexivity.
Qed.

Lemma generer_transaction_trace (cfg : Config) (w : World)
      (t : Transaction) (w' : World) :
  generer_transaction cfg w = Ok (t, w') ->
  nth_error (VILLES cfg)
            (Z.to_nat (py_random w 0%nat mod Z.of_nat (List.length (VILLES cfg))))
  = Some (city t)
  /\ nth_error (OPERATEURS cfg)
               (Z.to_nat (py_random w 1%nat
                          mod Z.of_nat (List.length (OPERATEURS cfg))))
     = Some (operator t)
  /\ user_id t = user_id_of_draws (py_random w 2%nat) (py_random w 3%nat)
  /\ transaction_id t
     = format_transaction_id (epoch_ms (clock w 1%nat))
                             (suffix_of_draw (py_random w 4%nat))
  /\ advanced 5 2 w w'.
Proof.
  unfold generer_transaction. intros H. do 8 step H. step H.
  injection H as <- <-.
  apply np_random_choice_trace in Hc. apply generer_montant_trace in Hc0.
  apply random_choice_trace in Hc1, Hc2.
  destruct Hc1 as [Ecity A1]. destruct Hc2 as [Eop A2].
  destruct (generer_user_id_trace w3) as (w4' & Eu & A3).
  rewrite Eu in Hc3. injection Hc3 as <- <-.
  unfold datetime_now in Hc4.
  destruct (datetime_in_range _); [ | discriminate ].
  injection Hc4 as _ <-.
  unfold time_time_ms in Hc5. injection Hc5 as <- <-.
  apply random_randint_trace in Hc6. destruct Hc6 as [-> A6].
  cbn [city operator user_id transaction_id].
  pose proof (advanced_trans _ _ _ _ _ _ _ Hc Hc0) as B0.
  pose proof (advanced_trans _ _ _ _ _ _ _ B0 A1) as B1.
  pose proof (advanced_trans _ _ _ _ _ _ _ B1 A2) as B2.
  pose proof (advanced_trans _ _ _ _ _ _ _ B2 A3) as B3.
  destruct B0 as [P0 C0]. destruct B1 as [P1 C1]. destruct B2 as [P2 C2].
  destruct B3 as [P3 C3]. destruct A6 as [P6 C6].
  cbn [Nat.add] in P0, P1, P2, P3, P6, C0, C1, C2, C3, C6.
  split; [ rewrite <- (P0 O); exact Ecity | ].
  split; [ rewrite <- (P1 O); exact Eop | ].
  split; [ rewrite <- (P2 O), <- (P2 1%nat); reflexivity | ].
  split.
  - unfold tape_hd, tape_tl. cbn [clock_tick clock py_random].
    rewrite (C3 1%nat), (P3 O). reflexivity.
  - split; intros j.
    + rewrite P6. cbn [clock_tick py_random]. rewrite P3. reflexivity.
    + rewrite C6. cbn [clock_tick clock]. unfold tape_tl. rewrite C3.
      reflexivity.
Qed.

Lemma generer_loop_trace (cfg : Config) (base : datetime) (count : nat) :
  forall acc w l w',
    generer_loop cfg base count acc w = Ok (l, w') ->
    exists l',
      l = acc ++ l' /\ List.length l' = count
      /\ forall i r,
          nth_error l' i = Some r ->
          transaction_id r
          = format_transaction_id (epoch_ms (clock w (2 * i + 1)%nat))
                                  (suffix_of_draw (py_random w (6 * i + 4)%nat))
          /\ user_id r
             = user_id_of_draws (py_random w (6 * i + 2)%nat)
                                (py_random w (6 * i + 3)%nat)
          /\ timestamp r
             = strftime (base + timedelta_hours
                                  (offset_of_draw (py_random w (6 * i + 5)%nat))).
Proof.
  induction count as [ | count IH]; intros acc w l w' H; cbn [generer_loop] in H.
  - step H. injection H as <- _. exists []. rewrite app_nil_r.
    split; [ reflexivity | ]. split; [ reflexivity | ].
    intros [ | i] r E; discriminate E.
  - do 3 step H. apply IH in H. destruct H as (l' & -> & Hlen & Hrec).
    apply generer_transaction_trace in Hc.
    destruct Hc as (_ & _ & Hu & Hid & A1).
    apply random_randint_trace in Hc0. destruct Hc0 as [-> A2].
    apply lift_Ok in Hc1. destruct Hc1 as [Hadd Hw]. cbn [fst snd] in Hadd, Hw.
    subst w2. apply datetime_add_Ok in Hadd. destruct Hadd as [-> _].
    pose proof (advanced_trans _ _ _ _ _ _ _ A1 A2) as [P C].
    destruct A1 as [P1 C1]. cbn [Nat.add] in P, C, P1, C1.
    eexists (_ :: l'). rewrite <- app_assoc. split; [ reflexivity | ].
    split; [ cbn [List.length]; rewrite Hlen; reflexivity | ].
    intros [ | i] r E; cbn [nth_error] in E.
    + injection E as <-. cbn [transaction_id user_id timestamp set_timestamp].
      split; [ exact Hid | ]. split; [ exact Hu | ].
      rewrite (P1 O). reflexivity.
    + destruct (Hrec i r E) as (Hi & Hui & Hti).
      rewrite Hi, Hui, Hti. rewrite !P, C.
      replace (2 * S i + 1)%nat with (S (S (2 * i + 1))) by lia.
      replace (6 * S i + 4)%nat with (S (S (S (S (S (S (6 * i + 4))))))) by lia.
      replace (6 * S i + 2)%nat with (S (S (S (S (S (S (6 * i + 2))))))) by lia.
      replace (6 * S i + 3)%nat with (S (S (S (S (S (S (6 * i + 3))))))) by lia.
      replace (6 * S i + 5)%nat with (S (S (S (S (S (S (6 * i + 5))))))) by lia.
      auto.
Qed.

Lemma pd_DataFrame_map {B : Type} (f : Transaction -> B) (records : list Transaction) :
  (forall t, f (upcast_amount t) = f t) ->
  map f (pd_DataFrame records) = map f records.
Proof.
  intros Hf. unfold pd_DataFrame. destruct (existsb _ records); [ | reflexivity ].
  rewrite map_map. apply map_ext. exact Hf.
Qed.

(** The records of a batch, in generation order: the record of rank [i]
    is made of the outcomes [6 i + 2 .. 6 i + 5] of the [random] module and
    of the clock reading of rank [2 i + 2]; the frame returned is the frame
    of these records in the order of the sort. *)
Lemma batch_trace (cfg : Config) (argsort : list string -> list nat) (n : Z)
      (w : World) (df : DataFrame) (w' : World) :
  generer_batch_transactions cfg argsort n w = Ok (df, w') ->
  exists records,
    List.length records = Z.to_nat n
    /\ (forall i r, nth_error records i = Some r -> traced w i r)
    /\ df = take (pd_DataFrame records)
                 (argsort (map timestamp (pd_DataFrame records))).
Proof.
  intros H. apply generer_batch_transactions_split in H.
  destruct H as (records & Hgen & Hs).
  unfold generated_records in Hgen. do 2 step Hgen.
  unfold datetime_now in Hc.
  destruct (datetime_in_range (local_now (tape_hd (clock w)))); [ | discriminate ].
  injection Hc as <- <-.
  apply lift_Ok in Hc0. destruct Hc0 as [Hb Hw]. cbn [fst snd] in Hb, Hw.
  subst w1. unfold datetime_sub in Hb. apply datetime_add_Ok in Hb.
  destruct Hb as [-> _].
  apply generer_loop_trace in Hgen. destruct Hgen as (l' & -> & Hlen & Hrec).
  cbn [app] in Hs. exists l'. split; [ exact Hlen | ]. split.
  - intros i r E. destruct (Hrec i r E) as (Hi & Hu & Ht).
    unfold traced. rewrite Hi, Hu, Ht. cbn [clock_tick clock py_random].
    unfold tape_tl, tape_hd.
    replace (2 * i + 2)%nat with (S (2 * i + 1)) by lia.
    replace (local_now (clock w 0%nat) + - timedelta_days 7)
      with (local_now (clock w 0%nat) - timedelta_days 7) by lia.
    auto.
  - unfold sort_values_timestamp in Hs.
    destruct (pd_DataFrame l'); [ discriminate | ]. injection Hs as <-.
    reflexivity.
Qed.

Lemma map_by_rank {A B : Type} (f : A -> B) (g : nat -> B) (l : list A) :
  forall s,
    (forall i r, nth_error l i = Some r -> f r = g (s + i)%nat) ->
    map f l = map g (seq s (List.length l)).
Proof.
  induction l as [ | x l IH]; intros s H; [ reflexivity | ].
  cbn [map List.length seq]. f_equal.
  - rewrite (H O x eq_refl). f_equal. lia.
  - apply IH. intros i r E. rewrite (H (S i) r E). f_equal. lia.
Qed.

Lemma NoDup_map_seq {B : Type} (g : nat -> B) (n : nat) :
  NoDup (map g (seq 0 n))
  <-> forall i j, (i < j < n)%nat -> g i <> g j.
Proof.
  split.
  - intros H i j Hij E. rewrite NoDup_nth_error in H.
    assert (Ei : nth_error (map g (seq 0 n)) i = Some (g i))
      by (rewrite nth_error_map, nth_error_seq;
          destruct (Nat.ltb_spec i n); [ reflexivity | lia ]).
    assert (Ej : nth_error (map g (seq 0 n)) j = Some (g j))
      by (rewrite nth_error_map, nth_error_seq;
          destruct (Nat.ltb_spec j n); [ reflexivity | lia ]).
    specialize (H i j). rewrite length_map, length_seq, Ei, Ej, E in H.
    specialize (H ltac:(lia) eq_refl). lia.
  - intros H. apply NoDup_nth_error. intros i j Hi E.
    rewrite length_map, length_seq in Hi.
    rewrite !nth_error_map, !nth_error_seq in E.
    destruct (Nat.ltb_spec i n); [ | lia ].
    destruct (Nat.ltb_spec j n); [ | discriminate E ].
    cbn [option_map Nat.add] in E. injection E as E.
    destruct (Nat.lt_trichotomy i j) as [L | [L | L]]; [ | exact L | ];
      exfalso.
    + apply (H i j); [ lia | exact E ].
    + apply (H j i); [ lia | symmetry; exact E ].
Qed.

Lemma format_user_id_inj (prefix prefix' : string) (n n' : Z) :
  In prefix PREFIXES -> In prefix' PREFIXES ->
  format_user_id prefix n = format_user_id prefix' n' ->
  prefix = prefix' /\ n = n'.
Proof.
  intros Hp Hp' Hid.
  unfold PREFIXES in Hp, Hp'. cbn [In] in Hp, Hp'. unfold format_user_id in Hid.
  destruct Hp as [<- | [<- | [<- | [<- | [<- | []]]]]];
    destruct Hp' as [<- | [<- | [<- | [<- | [<- | []]]]]];
    cbn [String.append] in Hid; try discriminate Hid;
    injection Hid as Hid; apply str_of_Z_inj in Hid; auto.
Qed.

Lemma small_cases (a : Z) : 0 <= a < 5 -> a = 0 \/ a = 1 \/ a = 2 \/ a = 3 \/ a = 4.
Proof. lia. Qed.

Lemma prefix_of_draw_In (d : Z) : In (prefix_of_draw d) PREFIXES.
Proof.
  unfold prefix_of_draw.
  pose proof (Z.mod_pos_bound d 5 ltac:(lia)) as B.
  destruct (small_cases _ B) as [-> | [-> | [-> | [-> | ->]]]]; cbn; auto 6.
Qed.

Lemma prefix_of_draw_inj (a a' : Z) :
  0 <= a < 5 -> 0 <= a' < 5 -> prefix_of_draw a = prefix_of_draw a' -> a = a'.
Proof.
  intros Ha Ha'. unfold prefix_of_draw.
  rewrite (Z.mod_small a 5 Ha), (Z.mod_small a' 5 Ha').
  destruct (small_cases _ Ha) as [-> | [-> | [-> | [-> | ->]]]];
    destruct (small_cases _ Ha') as [-> | [-> | [-> | [-> | ->]]]];
    cbn; intros E; try reflexivity; discriminate E.
Qed.

Lemma numero_of_draw_range (d : Z) : 1000000 <= numero_of_draw d <= 9999999.
Proof.
  unfold numero_of_draw.
  pose proof (Z.mod_pos_bound d 9000000 ltac:(lia)). lia.
Qed.

Lemma suffix_of_draw_range (d : Z) : 1000 <= suffix_of_draw d <= 9999.
Proof.
  unfold suffix_of_draw.
  pose proof (Z.mod_pos_bound d 9000 ltac:(lia)). lia.
Qed.

(** Each identifier is made by exactly one pair of outcomes. *)
Lemma user_id_of_draws_bijective (prefix : string) (numero : Z) :
  In prefix PREFIXES -> 1000000 <= numero <= 9999999 ->
  exists a b,
    (0 <= a < 5 /\ 0 <= b < 9000000)
    /\ user_id_of_draws a b = format_user_id prefix numero
    /\ forall a' b',
        0 <= a' < 5 -> 0 <= b' < 9000000 ->
        user_id_of_draws a' b' = format_user_id prefix numero ->
        a' = a /\ b' = b.
Proof.
  intros Hp Hn.
  assert (E : exists a, 0 <= a < 5 /\ prefix_of_draw a = prefix).
  { cbn in Hp. destruct Hp as [<- | [<- | [<- | [<- | [<- | []]]]]];
      [ exists 0 | exists 1 | exists 2 | exists 3 | exists 4 ];
      (split; [ lia | reflexivity ]). }
  destruct E as (a & Ha & <-).
  exists a, (numero - 1000000).
  assert (En : numero_of_draw (numero - 1000000) = numero)
    by (unfold numero_of_draw; rewrite Z.mod_small by lia; lia).
  split; [ lia | ]. split.
  - unfold user_id_of_draws. rewrite En. reflexivity.
  - intros a' b' Ha' Hb' E. unfold user_id_of_draws in E.
    apply format_user_id_inj in E; try apply prefix_of_draw_In.
    destruct E as [E1 E2]. split.
    + apply prefix_of_draw_inj; assumption.
    + unfold numero_of_draw in E2. rewrite Z.mod_small in E2 by lia. lia.
Qed.

(** C7.  The [user_id] of every transaction is [user_], one of the five
    two-digit prefixes 77, 78, 76, 70, 75, and the seven digits of a number
    of 1,000,000 to 9,999,999, and every prefix and every number of the
    range is an outcome.  The draw is uniform: the number of the record of
    rank [i] is [1000000] plus the outcome of [_randbelow(9000000)] taken
    for it, the prefix is the entry of the list at the outcome of
    [_randbelow(5)], and the outcomes of the two calls correspond one to
    one to the identifiers, so that outcomes of equal probability, which
    is what the [random] module provides, give identifiers of equal
    probability. *)
Theorem user_id_pattern
        (cfg : Config) (argsort : list string -> list nat) (n : Z) (w : World)
        (df : DataFrame) (w' : World)
        (Hrun : generer_batch_transactions cfg argsort n w = Ok (df, w')) :
  Forall (fun r =>
            exists prefix numero,
              In prefix ["77"; "78"; "76"; "70"; "75"]
              /\ 1000000 <= numero <= 9999999
              /\ user_id r = "user_" +++ prefix +++ str_of_Z numero
              /\ String.length prefix = 2%nat
              /\ all_digits prefix = true
              /\ String.length (str_of_Z numero) = 7%nat
              /\ all_digits (str_of_Z numero) = true) df
  /\ (forall prefix numero,
         In prefix ["77"; "78"; "76"; "70"; "75"] ->
         1000000 <= numero <= 9999999 ->
         exists w0 w1,
           generer_user_id w0 = Ok ("user_" +++ prefix +++ str_of_Z numero, w1))
  /\ Forall (fun r =>
               exists i : nat,
                 (i < Z.to_nat n)%nat
                 /\ user_id r
                    = "user_"
                      +++ nth (Z.to_nat (py_random w (6 * i + 2)%nat mod 5))
                              ["77"; "78"; "76"; "70"; "75"] "77"
                      +++ str_of_Z (1000000
                                    + py_random w (6 * i + 3)%nat mod 9000000)) df
  /\ (forall w0, exists w1,
         generer_user_id w0
         = Ok (user_id_of_draws (py_random w0 0%nat) (py_random w0 1%nat), w1))
  /\ (forall prefix numero,
         In prefix ["77"; "78"; "76"; "70"; "75"] ->
         1000000 <= numero <= 9999999 ->
         exists a b,
           (0 <= a < 5 /\ 0 <= b < 9000000)
           /\ user_id_of_draws a b = "user_" +++ prefix +++ str_of_Z numero
           /\ forall a' b',
               0 <= a' < 5 -> 0 <= b' < 9000000 ->
               user_id_of_draws a' b' = "user_" +++ prefix +++ str_of_Z numero ->
               a' = a /\ b' = b).
Proof.
  split; [ | split; [ exact generer_user_id_onto | split; [ | split ] ] ].
  - apply batch_rows in Hrun. eapply Forall_impl; [ | exact Hrun ].
    intros r (g & (g0 & k & Hgen & _ & _ & ->) & Hrow).
    destruct (gen_user _ _ Hgen) as (prefix & numero & Hp & Hn & Hu).
    exists prefix, numero.
    destruct (str_of_Z_digits 6 numero) as [Hlen Hdig];
      [ change (10 ^ Z.of_nat 6) with 1000000;
        change (10 ^ Z.of_nat 7) with 10000000; lia | ].
    rewrite (row_of_user_id _ _ Hrow). cbn [user_id set_timestamp].
    repeat split; try assumption; try lia;
      cbn in Hp; destruct Hp as [<- | [<- | [<- | [<- | [<- | []]]]]]; reflexivity.
  - apply batch_trace in Hrun. destruct Hrun as (records & Hlen & Hrec & ->).
    apply Forall_forall. intros r Hr.
    apply take_In, pd_DataFrame_In in Hr. destruct Hr as (g & Hg & Hrow).
    apply In_nth_error in Hg. destruct Hg as [i Hi].
    exists i. split.
    + rewrite <- Hlen. apply nth_error_Some. rewrite Hi. discriminate.
    + rewrite (row_of_user_id _ _ Hrow).
      destruct (Hrec i g Hi) as (_ & Hu & _). exact Hu.
  - intros w0. destruct (generer_user_id_trace w0) as (w1 & E & _).
    exists w1. exact E.
  - exact user_id_of_draws_bijective.
Qed.

Lemma user_id_pattern_witness :
  exists df w',
    generer_batch_transactions CONFIG argsort_stable 6 sample_world = Ok (df, w')
    /\ Forall (fun r =>
                 exists prefix numero,
                   In prefix ["77"; "78"; "76"; "70"; "75"]
                   /\ 1000000 <= numero <= 9999999
                   /\ user_id r = "user_" +++ prefix +++ str_of_Z numero
                   /\ String.length prefix = 2%nat
                   /\ all_digits prefix = true
                   /\ String.length (str_of_Z numero) = 7%nat
                   /\ all_digits (str_of_Z numero) = true) df.
Proof.
  assert (H : is_Ok (generer_batch_transactions CONFIG argsort_stable 6 sample_world)
              = true) by (vm_compute; reflexivity).
  destruct (is_Ok_true _ H) as [[df w'] E].
  exists df, w'. split; [ exact E | ].
  exact (proj1 (user_id_pattern CONFIG argsort_stable 6 sample_world df w' E)).
Defined.

(** The shape of the identifiers of a batch. *)
Lemma batch_transaction_ids
      (cfg : Config) (argsort : list string -> list nat) (n : Z) (w : World)
      (df : DataFrame) (w' : World) :
  generer_batch_transactions cfg argsort n w = Ok (df, w') ->
  Forall (fun r =>
            exists ms suffix,
              1000 <= suffix <= 9999
              /\ transaction_id r = "TXN" +++ str_of_Z ms +++ "_" +++ str_of_Z suffix
              /\ String.length (str_of_Z suffix) = 4%nat
              /\ all_digits (str_of_Z suffix) = true
              /\ count_char "_" (transaction_id r) = 1%nat) df.
Proof.
  intros Hrun.
  apply batch_rows in Hrun. eapply Forall_impl; [ | exact Hrun ].
  intros r (g & (g0 & k & Hgen & _ & _ & ->) & Hrow).
  destruct (gen_id _ _ Hgen) as (ms & suffix & Hs & Hid).
  exists ms, suffix.
  destruct (str_of_Z_digits 3 suffix) as [Hlen Hdig];
    [ change (10 ^ Z.of_nat 3) with 1000;
      change (10 ^ Z.of_nat 4) with 10000; lia | ].
  rewrite (row_of_transaction_id _ _ Hrow). cbn [transaction_id set_timestamp].
  rewrite Hid. unfold format_transaction_id.
  repeat split; try assumption; try lia.
  rewrite !count_char_append, !count_underscore_str_of_Z. reflexivity.
Qed.

(** C9.  Every [transaction_id] is [TXN], the decimal text of an integer
    (the millisecond clock reading), one underscore, and the four digits of
    a number of 1000 to 9999; the underscore between the two parts is the
    only one. *)
Theorem transaction_id_shape
        (cfg : Config) (argsort : list string -> list nat) (n : Z) (w : World)
        (df : DataFrame) (w' : World)
        (Hrun : generer_batch_transactions cfg argsort n w = Ok (df, w')) :
  Forall (fun r =>
            exists ms suffix,
              1000 <= suffix <= 9999
              /\ transaction_id r = "TXN" +++ str_of_Z ms +++ "_" +++ str_of_Z suffix
              /\ String.length (str_of_Z suffix) = 4%nat
              /\ all_digits (str_of_Z suffix) = true
              /\ count_char "_" (transaction_id r) = 1%nat) df.
Proof. exact (batch_transaction_ids cfg argsort n w df w' Hrun). Qed.

Lemma transaction_id_shape_witness :
  exists df w',
    generer_batch_transactions CONFIG argsort_stable 6 sample_world = Ok (df, w')
    /\ Forall (fun r =>
                 exists ms suffix,
                   1000 <= suffix <= 9999
                   /\ transaction_id r
                      = "TXN" +++ str_of_Z ms +++ "_" +++ str_of_Z suffix
                   /\ String.length (str_of_Z suffix) = 4%nat
                   /\ all_digits (str_of_Z suffix) = true
                   /\ count_char "_" (transaction_id r) = 1%nat) df.
Proof.
  assert (H : is_Ok (generer_batch_transactions CONFIG argsort_stable 6 sample_world)
              = true) by (vm_compute; reflexivity).
  destruct (is_Ok_true _ H) as [[df w'] E].
  exists df, w'. split; [ exact E | ].
  exact (transaction_id_shape CONFIG argsort_stable 6 sample_world df w' E).
Defined.

(** The identifier determines the clock reading and the suffix. *)
Lemma split_at_underscore (a a' b b' : string) :
  count_char "_" a = O -> count_char "_" a' = O ->
  a +++ String "_" b = a' +++ String "_" b' -> a = a' /\ b = b'.
Proof.
  revert a'. induction a as [ | c a IH]; intros [ | c' a'] Ha Ha' E;
    cbn [String.append] in E.
  - injection E as <-. auto.
  - injection E as <- _. cbn in Ha'. discriminate.
  - injection E as -> _. cbn in Ha. discriminate.
  - injection E as <- E. cbn [count_char] in Ha, Ha'.
    destruct (Ascii.eqb c "_"); [ discriminate | ].
    destruct (IH a' Ha Ha' E) as [-> ->]. auto.
Qed.

Lemma format_transaction_id_inj (ms suffix ms' suffix' : Z) :
  format_transaction_id ms suffix = format_transaction_id ms' suffix' ->
  ms = ms' /\ suffix = suffix'.
Proof.
  unfold format_transaction_id. intros E. injection E as E.
  apply split_at_underscore in E; try apply count_underscore_str_of_Z.
  destruct E as [E1 E2]. apply str_of_Z_inj in E1, E2. auto.
Qed.

Lemma NoDup_map_injective {A B : Type} (f : A -> B) (l : list A) :
  (forall x y, f x = f y -> x = y) -> NoDup l -> NoDup (map f l).
Proof.
  intros Hf. induction 1 as [ | x l Hnin _ IH]; cbn [map]; constructor;
    [ | exact IH ].
  rewrite in_map_iff. intros (y & E & Hy). apply Hf in E. subst y. contradiction.
Qed.

Lemma transaction_id_collision_run :
  value_of (generer_batch_transactions CONFIG argsort_stable 2 collision_world)
  = Some [mkTransaction "TXN1770728462000_5321" "2026-02-04 06:01:02"
                        "user_766551234" (PyFloat (S754_finite false 9830 0))
                        "Kaolack" "transfer" "Wave" "completed";
          mkTransaction "TXN1770728462000_5321" "2026-02-07 16:01:02"
                        "user_752234567" (PyFloat (S754_finite false 1000 0))
                        "Dakar" "transfer" "Free Money" "completed"].
Proof. vm_compute. reflexivity. Qed.

(** C6 as stated fails: two records generated within one millisecond that
    draw the same suffix carry the same [transaction_id]. *)
Lemma transaction_id_not_unique :
  exists df,
    value_of (generer_batch_transactions CONFIG argsort_stable 2 collision_world)
    = Some df
    /\ map transaction_id df = ["TXN1770728462000_5321"; "TXN1770728462000_5321"]
    /\ ~ NoDup (map transaction_id df).
Proof.
  eexists. split; [ exact transaction_id_collision_run | ].
  split; [ reflexivity | ].
  cbn [map transaction_id]. intros H. inversion H as [ | x l Hnin _]; subst.
  apply Hnin. left. reflexivity.
Qed.

(** C6, amended.  The clock is read once for the base date and twice for
    each record: the record of rank [i] takes its milliseconds from the
    reading [2 * i + 2] and its suffix, [1000] plus the outcome of
    [_randbelow(9000)], from the outcome [6 * i + 4] of the [random] module.
    The identifiers of the batch are, up to the order of the rows, the
    images of these pairs under an injective format: two records share a
    [transaction_id] exactly when they were generated in the same
    millisecond and drew the same suffix, and the identifiers of a batch are
    pairwise distinct exactly when no two of its records did. *)
Theorem transaction_id_unique_iff_draws_distinct
        (cfg : Config) (argsort : list string -> list nat) (n : Z) (w : World)
        (df : DataFrame) (w' : World)
        (Hsort : argsort_contract argsort)
        (Hrun : generer_batch_transactions cfg argsort n w = Ok (df, w')) :
  let ms := fun i : nat => epoch_ms (clock w (2 * i + 2)%nat) in
  let suffix := fun i : nat => 1000 + py_random w (6 * i + 4)%nat mod 9000 in
  Permutation (map transaction_id df)
              (map (fun i => format_transaction_id (ms i) (suffix i))
                   (seq 0 (Z.to_nat n)))
  /\ (forall i, 1000 <= suffix i <= 9999)
  /\ (forall i j,
         format_transaction_id (ms i) (suffix i)
         = format_transaction_id (ms j) (suffix j)
         <-> ms i = ms j /\ suffix i = suffix j)
  /\ (NoDup (map transaction_id df)
      <-> forall i j,
          (i < j < Z.to_nat n)%nat -> ~ (ms i = ms j /\ suffix i = suffix j)).
Proof.
  intros ms suffix.
  assert (Hinj : forall i j,
             format_transaction_id (ms i) (suffix i)
             = format_transaction_id (ms j) (suffix j)
             <-> ms i = ms j /\ suffix i = suffix j).
  { intros i j. split.
    - apply format_transaction_id_inj.
    - intros [-> ->]. reflexivity. }
  apply batch_trace in Hrun. destruct Hrun as (records & Hlen & Hrec & ->).
  assert (Hids : map transaction_id records
                 = map (fun i => format_transaction_id (ms i) (suffix i))
                       (seq 0 (Z.to_nat n))).
  { rewrite <- Hlen. apply map_by_rank. intros i r E.
    destruct (Hrec i r E) as (Hid & _). exact Hid. }
  assert (Hperm : Permutation
                    (map transaction_id
                         (take (pd_DataFrame records)
                               (argsort (map timestamp (pd_DataFrame records)))))
                    (map (fun i => format_transaction_id (ms i) (suffix i))
                         (seq 0 (Z.to_nat n)))).
  { rewrite <- Hids.
    rewrite <- (pd_DataFrame_map transaction_id records (fun t => eq_refl)).
    apply Permutation_map, take_Permutation.
    destruct (Hsort (map timestamp (pd_DataFrame records))) as [P _].
    rewrite length_map in P. exact P. }
  split; [ exact Hperm | ].
  split; [ intros i; apply suffix_of_draw_range | ].
  split; [ exact Hinj | ].
  split.
  - intros H i j Hij E.
    apply (Permutation_NoDup Hperm) in H.
    apply (proj1 (NoDup_map_seq _ _) H i j Hij). apply Hinj. exact E.
  - intros H. apply (Permutation_NoDup (Permutation_sym Hperm)).
    apply NoDup_map_seq. intros i j Hij E. apply (H i j Hij).
    apply Hinj. exact E.
Qed.

Lemma transaction_id_unique_iff_draws_distinct_witness :
  exists df w',
    generer_batch_transactions CONFIG argsort_stable 6 sample_world = Ok (df, w')
    /\ Permutation (map transaction_id df)
                   (map (fun i : nat =>
                           format_transaction_id
                             (epoch_ms (clock sample_world (2 * i + 2)%nat))
                             (1000 + py_random sample_world (6 * i + 4)%nat
                                     mod 9000))
                        (seq 0 (Z.to_nat 6))).
Proof.
  assert (H : is_Ok (generer_batch_transactions CONFIG argsort_stable 6 sample_world)
              = true) by (vm_compute; reflexivity).
  destruct (is_Ok_true _ H) as [[df w'] E].
  exists df, w'. split; [ exact E | ].
  exact (proj1 (transaction_id_unique_iff_draws_distinct
                  CONFIG argsort_stable 6 sample_world df w'
                  argsort_stable_contract E)).
Defined.

(** ** The relative order of equal timestamps *)

Lemma Permutation_filter {A : Type} (f : A -> bool) (l l' : list A) :
  Permutation l l' -> Permutation (filter f l) (filter f l').
Proof.
  induction 1 as [ | x l l' _ IH | x y l | l l' l'' _ IH1 _ IH2]; cbn [filter].
  - constructor.
  - destruct (f x); [ apply perm_skip | ]; exact IH.
  - destruct (f x), (f y); try reflexivity. apply perm_swap.
  - etransitivity; eassumption.
Qed.

(** The two transcribed sorts at work on [sample_keys]: each returns the
    keys in ascending order. *)
Lemma npy_sorts_sample_keys :
  let sorted :=
    ["A"; "A"; "A"; "B"; "B"; "C"; "C"; "D"; "D"; "E"; "E"; "F"; "F";
     "G"; "G"; "H"; "H"; "H"; "I"; "I"; "J"; "J"; "K"; "K"; "L"; "L";
     "M"; "M"; "N"; "N"; "O"; "O"; "O"; "P"; "P"; "Q"; "Q"; "R"; "R";
     "S"; "S"; "T"; "T"; "U"; "U"; "V"; "V"; "V"; "W"; "W"] in
  option_map (take sample_keys) (np_argsort_quicksort sample_keys) = Some sorted
  /\ option_map (take sample_keys)
                (npy_aheapsort sample_keys (seq 0 50) 0 50) = Some sorted.
Proof. split; vm_compute; reflexivity. Qed.

(** On the two records of [tie_world] the positions are sorted by insertion
    alone, which leaves equal keys in place. *)
Lemma nargsort_two_rows_in_order :
  exists records out,
    value_of (generated_records CONFIG 2 tie_world) = Some records
    /\ value_of (generer_batch_transactions CONFIG nargsort 2 tie_world) = Some out
    /\ out = pd_DataFrame records.
Proof.
  eexists. eexists.
  split; [ vm_compute; reflexivity | ].
  split; [ vm_compute; reflexivity | ].
  vm_compute. reflexivity.
Qed.

(** C4 as stated fails.  [sort_values] is called without [kind], that is
    with the default quicksort, which on a column of Python strings held as
    a NumPy [object] array is [npy_aquicksort].  Up to seventeen rows are
    sorted by insertion alone; from eighteen rows on the array is
    partitioned, and the partition exchanges rows of equal key.  Of
    eighteen records that all draw the same offset, the record of rank 15
    comes out second and the record of rank 1 sixteenth. *)
Lemma sort_not_stable :
  exists records out,
    value_of (generated_records CONFIG 18 tied_world) = Some records
    /\ map timestamp (pd_DataFrame records) = repeat "2026-02-04 06:01:02" 18
    /\ np_argsort_quicksort (map timestamp (pd_DataFrame records))
       = Some [0; 15; 14; 13; 12; 11; 10; 9; 8; 7; 6; 5; 4; 3; 2; 1; 16; 17]%nat
    /\ value_of (generer_batch_transactions CONFIG nargsort 18 tied_world)
       = Some out
    /\ map transaction_id (pd_DataFrame records)
       = ["TXN1770728462000_1000"; "TXN1770728462000_1001";
          "TXN1770728462000_1002"; "TXN1770728462000_1003";
          "TXN1770728462000_1004"; "TXN1770728462000_1005";
          "TXN1770728462000_1006"; "TXN1770728462000_1007";
          "TXN1770728462000_1008"; "TXN1770728462000_1009";
          "TXN1770728462000_1010"; "TXN1770728462000_1011";
          "TXN1770728462001_1012"; "TXN1770728462001_1013";
          "TXN1770728462001_1014"; "TXN1770728462001_1015";
          "TXN1770728462001_1016"; "TXN1770728462001_1017"]
    /\ map transaction_id out
       = ["TXN1770728462000_1000"; "TXN1770728462001_1015";
          "TXN1770728462001_1014"; "TXN1770728462001_1013";
          "TXN1770728462001_1012"; "TXN1770728462000_1011";
          "TXN1770728462000_1010"; "TXN1770728462000_1009";
          "TXN1770728462000_1008"; "TXN1770728462000_1007";
          "TXN1770728462000_1006"; "TXN1770728462000_1005";
          "TXN1770728462000_1004"; "TXN1770728462000_1003";
          "TXN1770728462000_1002"; "TXN1770728462000_1001";
          "TXN1770728462001_1016"; "TXN1770728462001_1017"]
    /\ ~ ties_in_order (pd_DataFrame records) out.
Proof.
  eexists. eexists.
  split; [ vm_compute; reflexivity | ].
  split; [ vm_compute; reflexivity | ].
  split; [ vm_compute; reflexivity | ].
  split; [ vm_compute; reflexivity | ].
  split; [ vm_compute; reflexivity | ].
  split; [ vm_compute; reflexivity | ].
  intros H. specialize (H "2026-02-04 06:01:02").
  apply (f_equal (map transaction_id)) in H.
  vm_compute in H. discriminate H.
Qed.

(** C4, amended.  The final step orders the frame by [timestamp] with the
    default sort: the result is a permutation of the generated rows in
    ascending order of timestamp, and for each timestamp it holds the same
    rows as the frame before the sort; their relative order is the one the
    sort algorithm yields. *)
Theorem sort_values_sorted_permutation
        (argsort : list string -> list nat) (Hsort : argsort_contract argsort)
        (cfg : Config) (n : Z) (w : World) (df : DataFrame) (w' : World)
        (Hrun : generer_batch_transactions cfg argsort n w = Ok (df, w')) :
  exists records,
    value_of (generated_records cfg n w) = Some records
    /\ Permutation df (pd_DataFrame records)
    /\ Sorted str_le (map timestamp df)
    /\ forall ts,
        Permutation (filter (has_timestamp ts) df)
                    (filter (has_timestamp ts) (pd_DataFrame records)).
Proof.
  apply generer_batch_transactions_split in Hrun.
  destruct Hrun as (records & Hgen & Hs). exists records.
  split; [ rewrite Hgen; reflexivity | ].
  assert (Hdf : df = take (pd_DataFrame records)
                          (argsort (map timestamp (pd_DataFrame records))))
    by (unfold sort_values_timestamp in Hs;
        destruct (pd_DataFrame records);
        [ discriminate | injection Hs as <-; reflexivity ]).
  subst df.
  destruct (Hsort (map timestamp (pd_DataFrame records))) as [Hperm Hsorted].
  rewrite length_map in Hperm.
  assert (P : Permutation (take (pd_DataFrame records)
                                (argsort (map timestamp (pd_DataFrame records))))
                          (pd_DataFrame records))
    by (apply take_Permutation; exact Hperm).
  split; [ exact P | ]. split.
  - rewrite take_map. exact Hsorted.
  - intros ts. apply Permutation_filter. exact P.
Qed.

Lemma sort_values_sorted_permutation_witness :
  exists df w',
    generer_batch_transactions CONFIG argsort_stable 2 tie_world = Ok (df, w')
    /\ exists records,
        value_of (generated_records CONFIG 2 tie_world) = Some records
        /\ Permutation df (pd_DataFrame records)
        /\ Sorted str_le (map timestamp df)
        /\ forall ts,
            Permutation (filter (has_timestamp ts) df)
                        (filter (has_timestamp ts) (pd_DataFrame records)).
Proof.
  assert (H : is_Ok (generer_batch_transactions CONFIG argsort_stable 2 tie_world)
              = true) by (vm_compute; reflexivity).
  destruct (is_Ok_true _ H) as [[df w'] E].
  exists df, w'. split; [ exact E | ].
  exact (sort_values_sorted_permutation argsort_stable argsort_stable_contract
                                        CONFIG 2 tie_world df w' E).
Defined.

(** ** Configurations that are not valid *)

Lemma np_random_choice_rejects (d : list (string * Q)) (w : World) :
  weights_rejected (map snd d) = true ->
  exists msg, np_random_choice (map fst d) (map snd d) w = Err (ValueError msg).
Proof.
  destruct d as [ | [k v] d]; intros H.
  - eexists. reflexivity.
  - unfold np_random_choice. cbn [map fst snd].
    replace (negb (List.length (v :: map snd d) =? List.length (k :: map fst d))%nat)
      with false
      by (cbn [List.length]; rewrite !length_map, Nat.eqb_refl; reflexivity).
    cbn [map snd weights_rejected] in H.
    destruct (existsb _ (v :: map snd d)); [ eexists; reflexivity | ].
    cbn [orb] in H. rewrite H. eexists. reflexivity.
Qed.

(** C8 as stated fails: nothing checks the configuration before the
    generation.  With the bounds of [transfer] exchanged the batch is
    generated all the same; so it is with weights whose sum differs from 1
    by less than the tolerance of the categorical draw; and with a count of
    zero, weights that sum to 0.9 are never looked at: what is raised is the
    [KeyError] of the sort of an empty frame. *)
Lemma invalid_configuration_not_rejected :
  (dict_get (MONTANT_RANGES inverted_range_config) "transfer"
   = Some (100000, 1000)
   /\ exists df,
       value_of (generer_batch_transactions inverted_range_config argsort_stable
                                            6 sample_world) = Some df
       /\ List.length df = 6%nat
       /\ map (fun r => (transaction_type r, num_as_Z (amount r))) df
          = [("transfer", Some 100000); ("payment", Some 50000);
             ("transfer", Some 100000); ("payment", Some 50000);
             ("withdrawal", Some 200000); ("transfer", Some 100000)])
  /\ (~ Qeq (Qsum (map snd (TRANSACTION_TYPES near_weights_config))) 1
      /\ exists df,
          value_of (generer_batch_transactions near_weights_config argsort_stable
                                               6 sample_world) = Some df
          /\ List.length df = 6%nat)
  /\ (weights_rejected (map snd (TRANSACTION_TYPES short_weights_config)) = true
      /\ generer_batch_transactions short_weights_config argsort_stable
                                    0 sample_world
         = Err (KeyError "timestamp")).
Proof.
  split; [ | split ].
  - split; [ reflexivity | ].
    eexists. split; [ vm_compute; reflexivity | ].
    split; reflexivity.
  - split; [ intros H; vm_compute in H; discriminate H | ].
    eexists. split; [ vm_compute; reflexivity | reflexivity ].
  - split; vm_compute; reflexivity.
Qed.

(** C8, amended.  The code validates nothing before it generates.  For a
    count of one or more: a weight table that the categorical draw refuses
    (empty, with a negative weight, or with a sum that is not 1 within the
    tolerance) makes the generation of the first record raise [ValueError];
    an empty list of cities or of operators makes it raise as well; in both
    cases no frame is returned. *)
Theorem invalid_configuration_raises
        (cfg : Config) (argsort : list string -> list nat) (n : Z) (w : World)
        (Hn : 1 <= n) :
  (weights_rejected (map snd (TRANSACTION_TYPES cfg)) = true ->
   clock_ok w ->
   exists msg, generer_batch_transactions cfg argsort n w = Err (ValueError msg))
  /\ (VILLES cfg = [] \/ OPERATEURS cfg = [] ->
      exists e, generer_batch_transactions cfg argsort n w = Err e).
Proof.
  split.
  - intros Hrej Hclock.
    destruct (total_datetime_now w Hclock) as (now & w1 & E1 & [H7 _] & _).
    unfold generer_batch_transactions, bind. rewrite E1.
    unfold datetime_sub, datetime_add, lift.
    replace (now + - timedelta_days 7) with (now - timedelta_days 7) by lia.
    rewrite H7.
    destruct (Z.to_nat n) as [ | count] eqn:Hc; [ lia | ].
    cbn [generer_loop]. unfold bind, generer_transaction, bind.
    destruct (np_random_choice_rejects (TRANSACTION_TYPES cfg) w1 Hrej) as [msg ->].
    exists msg. reflexivity.
  - intros Hempty.
    destruct (generer_batch_transactions cfg argsort n w) as [[df w'] | e] eqn:E;
      [ | exists e; reflexivity ].
    exfalso. apply generer_batch_transactions_Ok in E.
    destruct E as (records & _ & _ & Hne & Hall & _).
    destruct records as [ | r records]; [ congruence | ].
    inversion Hall as [ | r' l' (g & k & Hgen & _) _]; subst.
    pose proof (gen_city _ _ Hgen) as Hc. pose proof (gen_operator _ _ Hgen) as Ho.
    destruct Hempty as [E | E]; rewrite E in *; contradiction.
Qed.

Lemma invalid_configuration_raises_witness :
  (exists msg,
      generer_batch_transactions short_weights_config argsort_stable 6 sample_world
      = Err (ValueError msg))
  /\ 1 <= 6.
Proof.
  split; [ | lia ].
  apply (proj1 (invalid_configuration_raises short_weights_config argsort_stable
                                             6 sample_world ltac:(lia))).
  - vm_compute. reflexivity.
  - exact sample_world_clock_ok.
Defined.

(** ** Determinism *)

Lemma related_bind {A B : Type}
      (C C1 C2 : tape ClockReading -> tape ClockReading -> Prop)
      (eqA : A -> A -> Prop) (eqB : B -> B -> Prop)
      (c1 c2 : M A) (k1 k2 : A -> M B) :
  related C C1 eqA c1 c2 ->
  (forall a1 a2, eqA a1 a2 -> related C1 C2 eqB (k1 a1) (k2 a2)) ->
  related C C2 eqB (bind c1 k1) (bind c2 k2).
Proof.
  intros Hc Hk w1 w2 Hw. unfold bind.
  destruct (Hc w1 w2 Hw) as [a1 a2 w1' w2' Ha Hw' | e].
  - apply Hk; assumption.
  - constructor.
Qed.

Lemma related_ret {A : Type} (C : tape ClockReading -> tape ClockReading -> Prop)
      (eqA : A -> A -> Prop) (a1 a2 : A) :
  eqA a1 a2 -> related C C eqA (ret a1) (ret a2).
Proof. intros Ha w1 w2 Hw. constructor; assumption. Qed.

Lemma clock_free_ret {A : Type} (a : A) : clock_free (ret a).
Proof. intros C. apply related_ret. reflexivity. Qed.

Lemma clock_free_raise {A : Type} (e : PyError) : clock_free (@raise A e).
Proof. intros C w1 w2 _. constructor. Qed.

Lemma clock_free_lift {A : Type} (r : Result A) : clock_free (lift r).
Proof.
  intros C w1 w2 Hw. unfold lift. destruct r; constructor;
    [ reflexivity | exact Hw ].
Qed.

Lemma clock_free_bind {A B : Type} (c : M A) (k : A -> M B) :
  clock_free c -> (forall a, clock_free (k a)) -> clock_free (bind c k).
Proof.
  intros Hc Hk C. eapply related_bind; [ apply Hc | ].
  intros a1 a2 <-. apply Hk.
Qed.

(** A step that reads one generator and leaves the clock alone. *)
Ltac generator_step :=
  let C := fresh "C" in
  let w1 := fresh "w1" in
  let w2 := fresh "w2" in
  let H1 := fresh "H" in
  let H2 := fresh "H" in
  let H3 := fresh "H" in
  let H4 := fresh "H" in
  intros C w1 w2 (H1 & H2 & H3 & H4);
  cbv beta delta [random_randbelow np_random_sample np_random_lognormal];
  rewrite ?H1, ?H2, ?H3;
  constructor; [ reflexivity | repeat split; cbn; congruence ].

Lemma clock_free_randbelow (n : Z) : clock_free (random_randbelow n).
Proof. generator_step. Qed.

Lemma clock_free_random_sample : clock_free np_random_sample.
Proof. generator_step. Qed.

Lemma clock_free_lognormal (m sigma : Q) : clock_free (np_random_lognormal m sigma).
Proof. generator_step. Qed.

Lemma clock_free_choice {A : Type} (items : list A) : clock_free (random_choice items).
Proof.
  destruct items as [ | a items]; [ apply clock_free_raise | ].
  apply clock_free_bind; [ apply clock_free_randbelow | ].
  intros i. apply clock_free_ret.
Qed.

Lemma clock_free_randint (a b : Z) : clock_free (random_randint a b).
Proof.
  unfold random_randint. destruct (0 <? b + 1 - a); [ | apply clock_free_raise ].
  apply clock_free_bind; [ apply clock_free_randbelow | ].
  intros i. apply clock_free_ret.
Qed.

Lemma clock_free_np_random_choice (a : list string) (p : list Q) :
  clock_free (np_random_choice a p).
Proof.
  unfold np_random_choice. destruct a as [ | a0 a]; [ apply clock_free_raise | ].
  destruct (negb _); [ apply clock_free_raise | ].
  destruct (existsb _ _); [ apply clock_free_raise | ].
  destruct (negb _); [ apply clock_free_raise | ].
  apply clock_free_bind; [ apply clock_free_random_sample | ].
  intros u. destruct (nth_error _ _);
    [ apply clock_free_ret | apply clock_free_raise ].
Qed.

Lemma clock_free_generer_montant (cfg : Config) (ty : string) :
  clock_free (generer_montant cfg ty).
Proof.
  unfold generer_montant.
  destruct (dict_get _ _) as [[min_val max_val] | ]; [ | apply clock_free_raise ].
  apply clock_free_bind; [ apply clock_free_lift | ]. intros third.
  apply clock_free_bind; [ apply clock_free_lift | ]. intros m.
  apply clock_free_bind; [ apply clock_free_lognormal | ].
  intros montant. apply clock_free_ret.
Qed.

Lemma clock_free_generer_user_id : clock_free generer_user_id.
Proof.
  unfold generer_user_id.
  apply clock_free_bind; [ apply clock_free_choice | ]. intros prefix.
  apply clock_free_bind; [ apply clock_free_randint | ]. intros n.
  apply clock_free_ret.
Qed.

Lemma agree_now_tl (c1 c2 : tape ClockReading) :
  agree_from_now c1 c2 -> agree_from_time (tape_tl c1) (tape_tl c2).
Proof.
  intros H i. unfold tape_tl. split.
  - replace (S (2 * i)) with (2 * i + 1)%nat by lia. apply H.
  - replace (S (2 * i + 1)) with (2 * (i + 1))%nat by lia. apply H.
Qed.

Lemma agree_time_tl (c1 c2 : tape ClockReading) :
  agree_from_time c1 c2 -> agree_from_now (tape_tl c1) (tape_tl c2).
Proof.
  intros H i. unfold tape_tl. split.
  - replace (S (2 * i)) with (2 * i + 1)%nat by lia. apply H.
  - replace (S (2 * i + 1)) with (2 * (i + 1))%nat by lia. apply H.
Qed.

(** The [datetime.now()] of a record: the two values may differ. *)
Lemma related_datetime_now_record :
  related agree_from_now agree_from_time (fun _ _ => True)
          datetime_now datetime_now.
Proof.
  intros w1 w2 (H1 & H2 & H3 & H4). unfold datetime_now.
  destruct (H4 O) as [Hr _]. unfold same_range in Hr.
  change (clock w1 (2 * 0)%nat) with (tape_hd (clock w1)) in Hr.
  change (clock w2 (2 * 0)%nat) with (tape_hd (clock w2)) in Hr.
  rewrite Hr. destruct (datetime_in_range (local_now (tape_hd (clock w2))));
    [ | constructor ].
  constructor; [ exact I | ].
  split; [ | split; [ | split ] ]; cbn; try assumption.
  apply agree_now_tl. exact H4.
Qed.

Lemma related_time_time_ms :
  related agree_from_time agree_from_now eq time_time_ms time_time_ms.
Proof.
  intros w1 w2 (H1 & H2 & H3 & H4). unfold time_time_ms.
  destruct (H4 O) as [Hm _]. unfold same_ms in Hm.
  change (clock w1 (2 * 0)%nat) with (tape_hd (clock w1)) in Hm.
  change (clock w2 (2 * 0)%nat) with (tape_hd (clock w2)) in Hm.
  rewrite Hm. constructor; [ reflexivity | ].
  split; [ | split; [ | split ] ]; cbn; try assumption.
  apply agree_time_tl. exact H4.
Qed.

(** The [datetime.now()] of the anchor: the two values are equal. *)
Lemma related_datetime_now_anchor :
  related agree_clocks agree_from_now eq datetime_now datetime_now.
Proof.
  intros w1 w2 (H1 & H2 & H3 & H4 & H5). unfold datetime_now.
  change (clock w1 O) with (tape_hd (clock w1)) in H4.
  change (clock w2 O) with (tape_hd (clock w2)) in H4.
  rewrite H4. destruct (datetime_in_range (local_now (tape_hd (clock w2))));
    [ | constructor ].
  constructor; [ reflexivity | ].
  split; [ | split; [ | split ] ]; cbn; assumption.
Qed.

Lemma related_generer_transaction (cfg : Config) :
  related agree_from_now agree_from_now same_but_timestamp
          (generer_transaction cfg) (generer_transaction cfg).
Proof.
  unfold generer_transaction.
  eapply related_bind; [ apply clock_free_np_random_choice | ]. intros ty ? <-.
  eapply related_bind; [ apply clock_free_generer_montant | ]. intros x ? <-.
  eapply related_bind; [ apply clock_free_choice | ]. intros c ? <-.
  eapply related_bind; [ apply clock_free_choice | ]. intros o ? <-.
  eapply related_bind; [ apply clock_free_generer_user_id | ]. intros u ? <-.
  eapply related_bind; [ apply related_datetime_now_record | ]. intros t1 t2 _.
  eapply related_bind; [ apply related_time_time_ms | ]. intros ms ? <-.
  eapply related_bind; [ apply clock_free_randint | ]. intros suffix ? <-.
  apply related_ret. intros ts. reflexivity.
Qed.

Lemma related_generer_loop (cfg : Config) (base : datetime) (count : nat) :
  forall acc,
    related agree_from_now agree_from_now eq
            (generer_loop cfg base count acc) (generer_loop cfg base count acc).
Proof.
  induction count as [ | count IH]; intros acc; cbn [generer_loop].
  - apply related_ret. reflexivity.
  - eapply related_bind; [ apply related_generer_transaction | ].
    intros t1 t2 Ht.
    eapply related_bind; [ apply clock_free_randint | ]. intros k ? <-.
    eapply related_bind; [ apply clock_free_lift | ]. intros t ? <-.
    rewrite (Ht (strftime t)). apply IH.
Qed.

Lemma related_generer_batch_transactions
      (cfg : Config) (argsort : list string -> list nat) (n : Z) :
  related agree_clocks agree_from_now eq
          (generer_batch_transactions cfg argsort n)
          (generer_batch_transactions cfg argsort n).
Proof.
  unfold generer_batch_transactions.
  eapply related_bind; [ apply related_datetime_now_anchor | ]. intros now ? <-.
  eapply related_bind; [ apply clock_free_lift | ]. intros base ? <-.
  eapply related_bind; [ apply related_generer_loop | ]. intros records ? <-.
  apply clock_free_lift.
Qed.

(** C3, amended.  With the same seeds and the same configuration, two runs
    write the same bytes whenever their clocks agree on what the run reads
    from them: the anchor [datetime.now()] of the batch, the [time.time()]
    of each identifier, and whether each overwritten [datetime.now()] is a
    representable date-time.  If one run raises, the other raises the same
    exception. *)
Theorem run_determined_by_seed_and_clock
        (np_seed : Z -> tape Z * tape spec_float) (py_seed : Z -> tape Z)
        (argsort : list string -> list nat) (cfg : Config) (n : Z)
        (clk1 clk2 : tape ClockReading)
        (Hclk : agree_clocks clk1 clk2) :
  run np_seed py_seed argsort cfg n clk1 = run np_seed py_seed argsort cfg n clk2.
Proof.
  unfold run, pipeline.
  assert (R : related agree_clocks agree_from_now eq
                      (df <- generer_batch_transactions cfg argsort n ;;
                       ret (to_csv df))
                      (df <- generer_batch_transactions cfg argsort n ;;
                       ret (to_csv df))).
  { eapply related_bind; [ apply related_generer_batch_transactions | ].
    intros df ? <-. apply related_ret. reflexivity. }
  specialize (R (boot np_seed py_seed clk1) (boot np_seed py_seed clk2)).
  destruct R as [csv1 csv2 w1 w2 E _ | e].
  - split; [ | split; [ | split ] ]; try reflexivity. exact Hclk.
  - rewrite E. reflexivity.
  - reflexivity.
Qed.

(** C3 as stated fails: the anchor of the timestamps and the time part of
    the identifiers come from the wall clock, not from the seed.  The same
    seeds and configuration, run an hour apart, write different bytes. *)
Lemma output_depends_on_clock :
  is_Ok (run sample_np_seed sample_py_seed argsort_stable CONFIG 2 sample_clock)
  = true
  /\ is_Ok (run sample_np_seed sample_py_seed argsort_stable CONFIG 2 later_clock)
     = true
  /\ run sample_np_seed sample_py_seed argsort_stable CONFIG 2 sample_clock
     <> run sample_np_seed sample_py_seed argsort_stable CONFIG 2 later_clock.
Proof.
  split; [ vm_compute; reflexivity | ].
  split; [ vm_compute; reflexivity | ].
  intros H. vm_compute in H. discriminate H.
Qed.

Lemma jitter_clock_agrees : agree_clocks sample_clock jitter_clock.
Proof.
  split; [ reflexivity | ].
  intros i. unfold tape_tl, jitter_clock. split.
  - replace (S (2 * i)) with (1 + 2 * i)%nat by lia.
    rewrite Nat.odd_add_mul_2. change (Nat.odd 1) with true. cbv iota.
    unfold same_range. cbn [local_now].
    destruct (sample_world_clock_ok (1 + 2 * i)%nat) as [_ H].
    cbn [clock sample_world] in H. rewrite H. symmetry.
    revert H. unfold sample_clock. cbn [local_now].
    unfold datetime_in_range, sample_now, MAXORDINAL, US_PER_DAY, US_PER_HOUR,
      US_PER_SECOND.
    intros _. apply andb_true_intro.
    split; [ apply Z.leb_le | apply Z.ltb_lt ]; lia.
  - replace (S (2 * i + 1)) with (0 + 2 * (i + 1))%nat by lia.
    rewrite Nat.odd_add_mul_2. reflexivity.
Qed.

Lemma run_determined_by_seed_and_clock_witness :
  run sample_np_seed sample_py_seed argsort_stable CONFIG 6 sample_clock
  = run sample_np_seed sample_py_seed argsort_stable CONFIG 6 jitter_clock.
Proof.
  apply (run_determined_by_seed_and_clock sample_np_seed sample_py_seed
                                          argsort_stable CONFIG 6
                                          sample_clock jitter_clock).
  exact jitter_clock_agrees.
Defined.

(** * Further properties *)

(** ** The fields of a row *)

(** The categorical fields of the rows of a batch. *)
Lemma batch_fields (cfg : Config) (argsort : list string -> list nat) (n : Z)
      (w : World) (df : DataFrame) (w' : World) :
  generer_batch_transactions cfg argsort n w = Ok (df, w') ->
  Forall (fun r =>
            In (city r) (VILLES cfg)
            /\ In (operator r) (OPERATEURS cfg)
            /\ In (transaction_type r) (map fst (TRANSACTION_TYPES cfg))
            /\ status r = "completed") df.
Proof.
  intros Hrun.
  apply batch_rows in Hrun. eapply Forall_impl; [ | exact Hrun ].
  intros r (g & (g0 & k & Hgen & _ & _ & ->) & Hrow).
  destruct Hgen as [Hty _ Hcity Hop _ _ Hst].
  destruct Hrow as [-> | ->]; cbn; auto.
Qed.

(** X1.  Every row of a batch carries a city of [VILLES], an operator of
    [OPERATEURS], a transaction type that is a key of [TRANSACTION_TYPES],
    and the status [completed]. *)
Theorem batch_fields_from_configuration
        (cfg : Config) (argsort : list string -> list nat) (n : Z) (w : World)
        (df : DataFrame) (w' : World)
        (Hrun : generer_batch_transactions cfg argsort n w = Ok (df, w')) :
  Forall (fun r =>
            In (city r) (VILLES cfg)
            /\ In (operator r) (OPERATEURS cfg)
            /\ In (transaction_type r) (map fst (TRANSACTION_TYPES cfg))
            /\ status r = "completed") df.
Proof. exact (batch_fields cfg argsort n w df w' Hrun). Qed.

Lemma batch_fields_from_configuration_witness :
  exists df w',
    generer_batch_transactions CONFIG argsort_stable 6 sample_world = Ok (df, w')
    /\ Forall (fun r =>
                 In (city r) (VILLES CONFIG)
                 /\ In (operator r) (OPERATEURS CONFIG)
                 /\ In (transaction_type r) (map fst (TRANSACTION_TYPES CONFIG))
                 /\ status r = "completed") df.
Proof.
  assert (H : is_Ok (generer_batch_transactions CONFIG argsort_stable 6 sample_world)
              = true) by (vm_compute; reflexivity).
  destruct (is_Ok_true _ H) as [[df w'] E].
  exists df, w'. split; [ exact E | ].
  exact (batch_fields_from_configuration CONFIG argsort_stable 6 sample_world
                                         df w' E).
Defined.

(** ** The size of a batch *)

(** X2.  A batch that returns was asked for one transaction or more, and,
    with an indirect sort that meets its contract, has exactly as many rows
    as were asked for, whatever the configuration. *)
Theorem batch_row_count
        (cfg : Config) (argsort : list string -> list nat) (n : Z) (w : World)
        (df : DataFrame) (w' : World)
        (Hrun : generer_batch_transactions cfg argsort n w = Ok (df, w')) :
  1 <= n /\ (argsort_contract argsort -> List.length df = Z.to_nat n).
Proof.
  apply generer_batch_transactions_Ok in Hrun.
  destruct Hrun as (records & _ & Hlen & Hne & _ & -> & _).
  split.
  - destruct records as [ | r records]; [ congruence | ].
    cbn [List.length] in Hlen. lia.
  - intros Hsort.
    destruct (Hsort (map timestamp (pd_DataFrame records))) as [Hperm _].
    rewrite length_map in Hperm.
    rewrite (Permutation_length (take_Permutation _ _ Hperm)).
    rewrite pd_DataFrame_length. exact Hlen.
Qed.

Lemma batch_row_count_witness :
  exists df w',
    generer_batch_transactions CONFIG argsort_reversing 6 sample_world
    = Ok (df, w')
    /\ 1 <= 6
    /\ (argsort_contract argsort_reversing -> List.length df = Z.to_nat 6).
Proof.
  assert (H : is_Ok (generer_batch_transactions CONFIG argsort_reversing 6
                                                sample_world)
              = true) by (vm_compute; reflexivity).
  destruct (is_Ok_true _ H) as [[df w'] E].
  exists df, w'. split; [ exact E | ].
  exact (batch_row_count CONFIG argsort_reversing 6 sample_world df w' E).
Defined.

(** X3.  Asked for no transaction (a count of zero or less), a batch whose
    anchor date is representable raises the [KeyError] of the sort key:
    the frame of an empty list has no [timestamp] column.  No
    configuration is looked at. *)
Theorem empty_batch_raises
        (cfg : Config) (argsort : list string -> list nat) (n : Z) (w : World)
        (Hn : n <= 0)
        (Hnow : datetime_in_range (local_now (tape_hd (clock w))) = true)
        (Hbase : datetime_in_range
                   (local_now (tape_hd (clock w)) - timedelta_days 7) = true) :
  generer_batch_transactions cfg argsort n w = Err (KeyError "timestamp").
Proof.
  unfold generer_batch_transactions, bind, datetime_now. rewrite Hnow.
  unfold datetime_sub, datetime_add, lift.
  replace (local_now (tape_hd (clock w)) + - timedelta_days 7)
    with (local_now (tape_hd (clock w)) - timedelta_days 7) by lia.
  rewrite Hbase.
  replace (Z.to_nat n) with O by lia.
  reflexivity.
Qed.

Lemma empty_batch_raises_witness :
  generer_batch_transactions short_weights_config argsort_stable (-3) sample_world
  = Err (KeyError "timestamp").
Proof.
  apply (empty_batch_raises short_weights_config argsort_stable (-3) sample_world).
  - lia.
  - vm_compute. reflexivity.
  - vm_compute. reflexivity.
Defined.

(** ** The amount is the draw, rounded and clamped *)

Lemma round_half_even_nearest (num sh : Z) :
  0 <= sh -> nearest_even (round_half_even num sh) num sh.
Proof.
  intros Hsh. unfold nearest_even, round_half_even. cbv zeta.
  assert (Hd : 0 < 2 ^ sh) by (apply Z.pow_pos_nonneg; lia).
  set (d := 2 ^ sh) in *.
  pose proof (Z.div_mod num d ltac:(lia)) as E.
  pose proof (Z.mod_pos_bound num d Hd) as B.
  set (q := num / d) in *. set (r := num mod d) in *.
  assert (Eq' : q * d = num - r) by lia.
  clearbody q r d.
  destruct (2 * r ?= d) eqn:C.
  - apply Z.compare_eq in C. destruct (Z.even q) eqn:Ev.
    + split; [ lia | intros _; exact Ev ].
    + split; [ lia | intros _ ].
      change (q + 1) with (Z.succ q).
      rewrite Z.even_succ, <- Z.negb_even, Ev. reflexivity.
  - pose proof (proj1 (Z.compare_lt_iff _ _) C). split; lia.
  - pose proof (proj1 (Z.compare_gt_iff _ _) C). split; lia.
Qed.

Lemma round_half_even_nonneg (num sh : Z) :
  0 <= num -> 0 <= sh -> 0 <= round_half_even num sh.
Proof.
  intros Hn Hsh. unfold round_half_even. cbv zeta.
  assert (Hd : 0 < 2 ^ sh) by (apply Z.pow_pos_nonneg; lia).
  pose proof (Z.div_pos num (2 ^ sh) Hn Hd) as Q.
  destruct (2 * (num mod 2 ^ sh) ?= 2 ^ sh); [ destruct (Z.even _) | | ]; lia.
Qed.

Lemma nearest_even_signed (s : bool) (r num sh : Z) :
  nearest_even r num sh -> nearest_even (signed s r) (signed s num) sh.
Proof.
  destruct s; [ | exact (fun H => H) ].
  unfold nearest_even, signed. intros [H1 H2].
  replace (- r * 2 ^ sh - - num) with (- (r * 2 ^ sh - num)) by lia.
  rewrite Z.abs_opp, Z.even_opp. split; assumption.
Qed.

(** [round(x, 0)] of a finite float is the nearest integer, ties to
    even. *)
Lemma py_round0_nearest (f : spec_float) (num sh : Z) :
  float_exact f = Some (Dyadic num sh) ->
  exists r, float_exact (py_round0 f) = Some (Dyadic r 0)
            /\ nearest_even r num sh.
Proof.
  destruct f as [s | s | | s m e]; cbn [float_exact py_round0].
  - intros H. injection H as <- <-. exists 0. split; [ reflexivity | ].
    split; [ cbn; lia | cbn; lia ].
  - destruct s; discriminate.
  - discriminate.
  - destruct (0 <=? e) eqn:He.
    + intros H. injection H as <- <-.
      cbn [float_exact]. rewrite He.
      exists (signed s (Z.pos m * 2 ^ e)). split; [ reflexivity | ].
      unfold nearest_even. rewrite Z.pow_0_r, Z.mul_1_r, Z.sub_diag.
      cbn [Z.abs]. split; lia.
    + intros H. injection H as <- <-. apply Z.leb_gt in He.
      pose proof (round_half_even_nearest (Z.pos m) (- e) ltac:(lia)) as N.
      pose proof (round_half_even_nonneg (Z.pos m) (- e) ltac:(lia) ltac:(lia))
        as P.
      exists (signed s (round_half_even (Z.pos m) (- e))).
      split; [ | apply nearest_even_signed; exact N ].
      destruct (round_half_even (Z.pos m) (- e)) as [ | p | p ];
        cbn [float_exact Z.leb Z.compare].
      * destruct s; reflexivity.
      * rewrite Z.pow_0_r, Z.mul_1_r. reflexivity.
      * lia.
Qed.

(** Python's [max] and [min] on an [int] and an integral [float] pick the
    value that [Z.max] and [Z.min] pick. *)
Lemma clamp_value (min_val max_val r : Z) (g : spec_float) :
  float_exact g = Some (Dyadic r 0) ->
  num_as_Z (py_max (PyInt min_val) (py_min (PyInt max_val) (PyFloat g)))
  = Some (Z.max min_val (Z.min max_val r)).
Proof.
  intros E. unfold py_max, py_min.
  rewrite py_lt_float, E.
  change (num_exact (PyInt max_val)) with (Some (Dyadic max_val 0)).
  cbv iota beta. rewrite exact_ltb_int.
  destruct (r <? max_val) eqn:H1.
  - rewrite py_lt_int_float, E. rewrite exact_ltb_int.
    apply Z.ltb_lt in H1.
    destruct (min_val <? r) eqn:H2.
    + apply Z.ltb_lt in H2. unfold num_as_Z.
      change (num_exact (PyFloat g)) with (float_exact g). rewrite E.
      cbn [exact_as_Z]. rewrite Z.pow_0_r, Z.mod_1_r, Z.div_1_r.
      cbn [Z.eqb]. f_equal. lia.
    + apply Z.ltb_ge in H2. rewrite num_as_Z_int. f_equal. lia.
  - apply Z.ltb_ge in H1.
    change (py_lt (PyInt min_val) (PyInt max_val))
      with (exact_ltb (Dyadic min_val 0) (Dyadic max_val 0)).
    rewrite exact_ltb_int.
    destruct (min_val <? max_val) eqn:H2.
    + apply Z.ltb_lt in H2. rewrite num_as_Z_int. f_equal. lia.
    + apply Z.ltb_ge in H2. rewrite num_as_Z_int. f_equal. lia.
Qed.

Lemma has_range_bounds (cfg : Config) (ty : string) :
  has_range cfg ty = true ->
  exists min_val max_val,
    dict_get (MONTANT_RANGES cfg) ty = Some (min_val, max_val)
    /\ Z.abs min_val <= 2 ^ 53 /\ Z.abs max_val <= 2 ^ 53.
Proof.
  unfold has_range.
  destruct (dict_get (MONTANT_RANGES cfg) ty) as [[min_val max_val] | ];
    [ | discriminate ].
  intros H. apply andb_prop in H as [H1 H2]. apply Z.leb_le in H1, H2.
  exists min_val, max_val. auto.
Qed.

(** X4.  For a type that has bounds, [generer_montant] first forms the
    argument of the logarithm, on integers: when the difference of the
    bounds, divided by three, or the lower bound does not fit a float
    (from [2^1024 - 2^970] on), it raises [OverflowError], whatever the
    draw.  Otherwise, for a finite log-normal draw of exact value
    [num / 2^sh], it returns the integer nearest to the draw (the even one
    on a tie), brought into the bounds: the lower bound when it is below,
    the upper bound when it is above.  With the bounds exchanged the result
    is the lower one. *)
Theorem generer_montant_rounds_then_clamps
        (cfg : Config) (ty : string) (min_val max_val : Z) (w : World)
        (num sh : Z)
        (Hrange : dict_get (MONTANT_RANGES cfg) ty = Some (min_val, max_val))
        (Hdraw : float_exact (tape_hd (np_lognormal w)) = Some (Dyadic num sh)) :
  (Z.abs (max_val - min_val) < FLOAT_LIMIT * 3 ->
   Z.abs min_val < FLOAT_LIMIT ->
   exists x w' r,
     generer_montant cfg ty w = Ok (x, w')
     /\ nearest_even r num sh
     /\ num_as_Z x = Some (Z.max min_val (Z.min max_val r))
     /\ (max_val <= min_val -> num_as_Z x = Some min_val))
  /\ (FLOAT_LIMIT * 3 <= Z.abs (max_val - min_val)
      \/ FLOAT_LIMIT <= Z.abs min_val ->
      exists msg, generer_montant cfg ty w = Err (OverflowError msg)).
Proof.
  unfold generer_montant. rewrite Hrange.
  unfold bind, lift, int_true_divide, int_add_float. split.
  - intros Hd Hm.
    destruct (py_round0_nearest _ _ _ Hdraw) as (r & Er & Nr).
    replace (FLOAT_LIMIT * 3 <=? Z.abs (max_val - min_val)) with false
      by (symmetry; apply Z.leb_gt; exact Hd).
    replace (FLOAT_LIMIT <=? Z.abs min_val) with false
      by (symmetry; apply Z.leb_gt; exact Hm).
    unfold np_random_lognormal, ret.
    eexists. eexists. exists r. split; [ reflexivity | ].
    split; [ exact Nr | ].
    unfold clamp_montant. rewrite (clamp_value _ _ _ _ Er).
    split; [ reflexivity | ]. intros H. f_equal. lia.
  - intros H.
    destruct (FLOAT_LIMIT * 3 <=? Z.abs (max_val - min_val)) eqn:Hd;
      [ eexists; reflexivity | ].
    destruct (FLOAT_LIMIT <=? Z.abs min_val) eqn:Hm;
      [ eexists; reflexivity | ].
    apply Z.leb_gt in Hd, Hm. lia.
Qed.

Lemma generer_montant_rounds_then_clamps_witness :
  exists x w' r,
    generer_montant CONFIG "transfer" sample_world = Ok (x, w')
    /\ nearest_even r 5404319552844595 39
    /\ num_as_Z x = Some (Z.max 1000 (Z.min 100000 r))
    /\ (100000 <= 1000 -> num_as_Z x = Some 1000).
Proof.
  apply (proj1 (generer_montant_rounds_then_clamps
                  CONFIG "transfer" 1000 100000 sample_world
                  5404319552844595 39 eq_refl eq_refl)).
  - vm_compute. reflexivity.
  - vm_compute. reflexivity.
Defined.

(** With an upper bound of [10^400] the call raises before any draw. *)
Lemma generer_montant_huge_range :
  generer_montant huge_range_config "transfer" sample_world
  = Err (OverflowError "integer division result too large for a float").
Proof. vm_compute. reflexivity. Qed.

(** ** Configurations that generate *)

Lemma filter_length_lt {A : Type} (f : A -> bool) (l : list A) (x : A) :
  In x l -> f x = false -> (List.length (filter f l) < List.length l)%nat.
Proof.
  induction l as [ | a l IH]; intros Hin Hx; [ contradiction | ].
  cbn [filter List.length]. destruct Hin as [-> | Hin].
  - rewrite Hx. pose proof (filter_length_le f l). lia.
  - specialize (IH Hin Hx). destruct (f a); cbn [List.length]; lia.
Qed.

Lemma cumsum_last (p : list Q) :
  forall acc, p <> [] -> In (fold_left Qplus p acc) (cumsum acc p).
Proof.
  induction p as [ | x p IH]; intros acc Hne; [ congruence | ].
  cbn [cumsum fold_left]. destruct p as [ | y p].
  - left. reflexivity.
  - right. apply IH. discriminate.
Qed.

Lemma cumsum_length (p : list Q) : forall acc, List.length (cumsum acc p) = List.length p.
Proof.
  induction p as [ | x p IH]; intros acc; [ reflexivity | ].
  cbn [cumsum List.length]. rewrite IH. reflexivity.
Qed.

Lemma weights_accepted (p : list Q) :
  weights_rejected p = false ->
  p <> []
  /\ existsb (fun x => negb (Qle_bool 0 x)) p = false
  /\ negb (Qle_bool (Qabs_diff (Qsum p) 1) atol) = false
  /\ ~ (Qsum p == 0)%Q.
Proof.
  destruct p as [ | x p]; [ discriminate | ].
  unfold weights_rejected. intros H. apply orb_false_elim in H as [H1 H2].
  split; [ discriminate | ]. split; [ exact H1 | ]. split; [ exact H2 | ].
  apply negb_false_iff, Qle_bool_iff in H2.
  intros Z0. unfold Qabs_diff in H2.
  destruct (Qle_bool (Qsum (x :: p)) 1) eqn:L.
  - rewrite Z0 in H2. unfold atol in H2. revert H2. unfold Qle. cbn. lia.
  - rewrite Z0 in L. discriminate L.
Qed.

Lemma np_random_choice_accepts (d : list (string * Q)) (w : World) :
  weights_rejected (map snd d) = false ->
  exists x,
    np_random_choice (map fst d) (map snd d) w
    = Ok (x, mkWorld (tape_tl (np_uniform w)) (np_lognormal w)
                     (py_random w) (clock w)).
Proof.
  intros H. apply weights_accepted in H. destruct H as (Hne & H1 & H2 & H0).
  unfold np_random_choice.
  destruct (map fst d) as [ | a0 a] eqn:Ea.
  - destruct d; [ contradiction Hne; reflexivity | discriminate ].
  - rewrite <- Ea.
    replace (negb (List.length (map snd d) =? List.length (map fst d))%nat)
      with false
      by (rewrite !length_map, Nat.eqb_refl; reflexivity).
    rewrite H1, H2.
    unfold bind, np_random_sample.
    set (u := Qmake (tape_hd (np_uniform w) mod 2 ^ 53) (2 ^ 53)).
    set (cdf := map (fun c => (c / Qsum (map snd d))%Q) (cumsum 0 (map snd d))).
    assert (Hlt : (searchsorted_right cdf u < List.length (map fst d))%nat).
    { unfold searchsorted_right.
      replace (List.length (map fst d)) with (List.length cdf)
        by (unfold cdf; rewrite !length_map, cumsum_length, length_map;
            reflexivity).
      apply (filter_length_lt _ _ (Qsum (map snd d) / Qsum (map snd d))%Q).
      - unfold cdf. apply in_map_iff. exists (Qsum (map snd d)).
        split; [ reflexivity | ]. apply cumsum_last. exact Hne.
      - destruct (Qle_bool _ u) eqn:L; [ exfalso | reflexivity ].
        apply Qle_bool_iff in L.
        assert (E1 : (Qsum (map snd d) / Qsum (map snd d) == 1)%Q)
          by (apply Qmult_inv_r; exact H0).
        rewrite E1 in L.
        assert (Hr : 0 <= tape_hd (np_uniform w) mod 2 ^ 53 < 2 ^ 53)
          by (apply Z.mod_pos_bound; reflexivity).
        revert L. unfold u, Qle. cbn [Qnum Qden].
        change (Z.pos (2 ^ 53)) with (2 ^ 53). lia. }
    apply nth_error_Some in Hlt.
    destruct (nth_error (map fst d) (searchsorted_right cdf u)) as [x | ];
      [ | congruence ].
    exists x. reflexivity.
Qed.

Lemma total_np_random_choice_ok (d : list (string * Q)) :
  weights_rejected (map snd d) = false ->
  total (np_random_choice (map fst d) (map snd d)) (fun x => In x (map fst d)).
Proof.
  intros H w Hw. destruct (np_random_choice_accepts d w H) as [x E].
  exists x. eexists. split; [ exact E | ]. split; [ | exact Hw ].
  eapply np_random_choice_Ok. exact E.
Qed.

Lemma total_generer_montant_ok (cfg : Config) (ty : string) :
  has_range cfg ty = true -> total (generer_montant cfg ty) (fun _ => True).
Proof.
  intros H. apply has_range_bounds in H.
  destruct H as (min_val & max_val & E & Hmin & Hmax).
  unfold generer_montant. rewrite E.
  rewrite int_true_divide_small by lia.
  eapply total_bind; [ apply total_lift_Ok | ]. intros third _.
  rewrite int_add_float_small by lia.
  eapply total_bind; [ apply total_lift_Ok | ]. intros m _.
  eapply total_bind; [ apply total_lognormal | ].
  intros montant _. apply total_ret. exact I.
Qed.

Lemma config_ok_parts (cfg : Config) :
  config_ok cfg = true ->
  weights_rejected (map snd (TRANSACTION_TYPES cfg)) = false
  /\ (forall ty, In ty (map fst (TRANSACTION_TYPES cfg)) -> has_range cfg ty = true)
  /\ VILLES cfg <> [] /\ OPERATEURS cfg <> [].
Proof.
  unfold config_ok. intros H.
  apply andb_prop in H as [H Ho]. apply andb_prop in H as [H Hv].
  apply andb_prop in H as [Hw Hr].
  split; [ apply negb_true_iff; exact Hw | ].
  split; [ rewrite forallb_forall in Hr; exact Hr | ].
  split; intros E; rewrite E in *; discriminate.
Qed.

Lemma total_generer_transaction_ok (cfg : Config) :
  config_ok cfg = true -> total (generer_transaction cfg) (fun _ => True).
Proof.
  intros H. apply config_ok_parts in H. destruct H as (Hw & Hr & Hv & Ho).
  unfold generer_transaction.
  eapply total_bind; [ apply total_np_random_choice_ok; exact Hw | ].
  intros ty Hty.
  eapply total_bind; [ apply total_generer_montant_ok, Hr; exact Hty | ].
  intros x _.
  eapply total_bind; [ apply total_choice; exact Hv | ]. intros c _.
  eapply total_bind; [ apply total_choice; exact Ho | ]. intros o _.
  eapply total_bind; [ apply total_generer_user_id | ]. intros u _.
  eapply total_bind; [ apply total_datetime_now | ]. intros t _.
  eapply total_bind; [ apply total_time_ms | ]. intros ms _.
  eapply total_bind; [ apply total_randint; lia | ]. intros suffix _.
  apply total_ret. exact I.
Qed.

Lemma total_generer_loop_ok (cfg : Config) (base : datetime) (count : nat) :
  config_ok cfg = true ->
  datetime_in_range base = true ->
  datetime_in_range (base + timedelta_days 7) = true ->
  forall acc,
    total (generer_loop cfg base count acc)
          (fun l => List.length l = (List.length acc + count)%nat).
Proof.
  intros Hcfg Hb Hb7. induction count as [ | count IH]; intros acc;
    cbn [generer_loop].
  - apply total_ret. lia.
  - eapply total_bind; [ apply total_generer_transaction_ok; exact Hcfg | ].
    intros trans _.
    eapply total_bind; [ apply total_randint; lia | ]. intros k Hk.
    cbv beta in Hk.
    assert (Hr : datetime_in_range (base + timedelta_hours k) = true).
    { apply (datetime_in_range_between base (base + timedelta_days 7));
        try assumption.
      unfold timedelta_hours, timedelta_days, US_PER_DAY, US_PER_HOUR,
        US_PER_SECOND. lia. }
    unfold datetime_add. rewrite Hr.
    eapply total_bind;
      [ exact (total_ret (base + timedelta_hours k) (fun _ => True) I) | ].
    intros t _.
    intros w Hw. destruct (IH (acc ++ [set_timestamp trans (strftime t)]) w Hw)
      as (l & w' & E & Hl & Hw').
    exists l, w'. split; [ exact E | ]. split; [ | exact Hw' ].
    rewrite Hl, length_app. cbn [List.length]. lia.
Qed.

(** With a configuration that is enough, a clock that is representable and
    a count of one or more, the batch returns a frame of that many rows. *)
Lemma batch_returns (cfg : Config) (argsort : list string -> list nat)
      (n : Z) (w : World) :
  config_ok cfg = true -> argsort_contract argsort -> 1 <= n -> clock_ok w ->
  exists df w',
    generer_batch_transactions cfg argsort n w = Ok (df, w')
    /\ List.length df = Z.to_nat n.
Proof.
  intros Hcfg Hsort Hn Hclock.
  destruct (total_datetime_now w Hclock) as (now & w1 & E1 & [H7 H0] & Hw1).
  assert (H0' : datetime_in_range (now - timedelta_days 7 + timedelta_days 7) = true)
    by (replace (now - timedelta_days 7 + timedelta_days 7) with now by lia;
        exact H0).
  destruct (total_generer_loop_ok cfg (now - timedelta_days 7) (Z.to_nat n)
                                  Hcfg H7 H0' [] w1 Hw1)
    as (records & w2 & E2 & Hlen & _).
  cbn [List.length Nat.add] in Hlen.
  set (frame := pd_DataFrame records).
  set (indexer := argsort (map timestamp frame)).
  destruct (Hsort (map timestamp frame)) as [Hperm _].
  rewrite length_map in Hperm.
  exists (take frame indexer), w2. split.
  - unfold generer_batch_transactions, bind. rewrite E1.
    unfold datetime_sub, datetime_add, lift.
    replace (now + - timedelta_days 7) with (now - timedelta_days 7) by lia.
    rewrite H7, E2. fold frame. unfold sort_values_timestamp.
    destruct frame as [ | r0 rows] eqn:Hf; [ | reflexivity ].
    apply (f_equal (@List.length _)) in Hf. subst frame.
    rewrite pd_DataFrame_length, Hlen in Hf. cbn in Hf. lia.
  - rewrite (Permutation_length (take_Permutation frame indexer Hperm)).
    subst frame. rewrite pd_DataFrame_length. exact Hlen.
Qed.

Lemma CONFIG_ok : config_ok CONFIG = true.
Proof. vm_compute. reflexivity. Qed.

(** X5.  A configuration generates whenever its weights are accepted by the
    categorical draw (none negative, sum 1 within the tolerance), every type
    that has a weight has bounds, both of absolute value at most [2^53], and
    there is a city and an operator: for every count of one or more, every
    state of the generators and every representable clock, the batch
    returns a frame of that many rows.  (Bounds beyond the floats make
    [generer_montant] raise: [generer_montant_huge_range].) *)
Theorem valid_configuration_returns
        (cfg : Config) (argsort : list string -> list nat) (n : Z) (w : World)
        (Hcfg : config_ok cfg = true) (Hsort : argsort_contract argsort)
        (Hn : 1 <= n) (Hclock : clock_ok w) :
  exists df w',
    generer_batch_transactions cfg argsort n w = Ok (df, w')
    /\ List.length df = Z.to_nat n.
Proof. exact (batch_returns cfg argsort n w Hcfg Hsort Hn Hclock). Qed.

Lemma valid_configuration_returns_witness :
  exists df w',
    generer_batch_transactions near_weights_config argsort_reversing 6
                               sample_world = Ok (df, w')
    /\ List.length df = Z.to_nat 6.
Proof.
  apply (valid_configuration_returns near_weights_config argsort_reversing 6
                                     sample_world).
  - vm_compute. reflexivity.
  - exact argsort_reversing_contract.
  - lia.
  - exact sample_world_clock_ok.
Defined.

(** ** One record, generated alone *)

Lemma keeps_clock_ret {A : Type} (a : A) : keeps_clock (ret a).
Proof. intros w a' w' H. apply ret_Ok in H. injection H as _ <-. reflexivity. Qed.

Lemma keeps_clock_bind {A B : Type} (c : M A) (k : A -> M B) :
  keeps_clock c -> (forall a, keeps_clock (k a)) -> keeps_clock (bind c k).
Proof.
  intros Hc Hk w b w' H. step H.
  rewrite (Hk _ _ _ _ H). exact (Hc _ _ _ Hc0).
Qed.

Lemma keeps_clock_lift {A : Type} (r : Result A) : keeps_clock (lift r).
Proof.
  intros w a w' H. apply lift_Ok in H. destruct H as [_ H]. cbn [snd] in H.
  congruence.
Qed.

Lemma keeps_clock_randbelow (n : Z) : keeps_clock (random_randbelow n).
Proof. intros w a w' H. injection H as _ <-. reflexivity. Qed.

Lemma keeps_clock_randint (a b : Z) : keeps_clock (random_randint a b).
Proof.
  unfold random_randint. destruct (0 <? b + 1 - a); [ | discriminate ].
  apply keeps_clock_bind; [ apply keeps_clock_randbelow | ].
  intros i. apply keeps_clock_ret.
Qed.

Lemma keeps_clock_choice {A : Type} (items : list A) :
  keeps_clock (random_choice items).
Proof.
  destruct items as [ | a items]; [ discriminate | ].
  apply keeps_clock_bind; [ apply keeps_clock_randbelow | ].
  intros i. apply keeps_clock_ret.
Qed.

Lemma keeps_clock_np_random_choice (a : list string) (p : list Q) :
  keeps_clock (np_random_choice a p).
Proof.
  unfold np_random_choice. destruct a as [ | a0 a]; [ discriminate | ].
  destruct (negb _); [ discriminate | ].
  destruct (existsb _ _); [ discriminate | ].
  destruct (negb _); [ discriminate | ].
  apply keeps_clock_bind.
  - intros w u w' H. injection H as _ <-. reflexivity.
  - intros u. destruct (nth_error _ _); [ apply keeps_clock_ret | discriminate ].
Qed.

Lemma keeps_clock_generer_montant (cfg : Config) (ty : string) :
  keeps_clock (generer_montant cfg ty).
Proof.
  unfold generer_montant.
  destruct (dict_get _ _) as [[min_val max_val] | ]; [ | discriminate ].
  apply keeps_clock_bind; [ apply keeps_clock_lift | ]. intros third.
  apply keeps_clock_bind; [ apply keeps_clock_lift | ]. intros m.
  apply keeps_clock_bind.
  - intros w u w' H. injection H as _ <-. reflexivity.
  - intros u. apply keeps_clock_ret.
Qed.

Lemma keeps_clock_generer_user_id : keeps_clock generer_user_id.
Proof.
  unfold generer_user_id.
  apply keeps_clock_bind; [ apply keeps_clock_choice | ]. intros prefix.
  apply keeps_clock_bind; [ apply keeps_clock_randint | ]. intros n.
  apply keeps_clock_ret.
Qed.

(** What a record takes from the clock. *)
Lemma generer_transaction_clock (cfg : Config) (w : World)
      (t : Transaction) (w' : World) :
  generer_transaction cfg w = Ok (t, w') ->
  datetime_in_range (local_now (clock w 0%nat)) = true
  /\ timestamp t = strftime (local_now (clock w 0%nat))
  /\ (exists suffix,
         1000 <= suffix <= 9999
         /\ transaction_id t
            = format_transaction_id (epoch_ms (clock w 1%nat)) suffix)
  /\ clock w' = tape_tl (tape_tl (clock w)).
Proof.
  intros Hrun.
  unfold generer_transaction in Hrun. do 8 step Hrun. step Hrun.
  injection Hrun as <- <-.
  apply keeps_clock_np_random_choice in Hc.
  apply keeps_clock_generer_montant in Hc0.
  apply keeps_clock_choice in Hc1, Hc2.
  apply keeps_clock_generer_user_id in Hc3.
  assert (E4 : clock w4 = clock w) by congruence.
  unfold datetime_now in Hc4. rewrite E4 in Hc4.
  change (tape_hd (clock w)) with (clock w 0%nat) in Hc4.
  destruct (datetime_in_range (local_now (clock w 0%nat))) eqn:R;
    [ | discriminate ].
  injection Hc4 as <- <-.
  unfold time_time_ms in Hc5. injection Hc5 as <- <-.
  pose proof (random_randint_Ok _ _ _ _ _ Hc6) as Hs.
  apply keeps_clock_randint in Hc6.
  cbn [timestamp transaction_id].
  split; [ reflexivity | ]. split; [ reflexivity | ]. split.
  - exists a6. split; [ exact Hs | ].
    cbn [clock_tick clock tape_hd tape_tl]. rewrite E4. reflexivity.
  - rewrite Hc6. cbn [clock_tick clock]. rewrite E4. reflexivity.
Qed.

(** X6.  A record that [generer_transaction] returns carries, as its
    timestamp, the text of the clock reading made for it, a representable
    date-time; its identifier carries the millisecond reading made next,
    with a suffix of 1000 to 9999.  The call reads the clock exactly
    twice. *)
Theorem generer_transaction_reads_clock
        (cfg : Config) (w : World) (t : Transaction) (w' : World)
        (Hrun : generer_transaction cfg w = Ok (t, w')) :
  datetime_in_range (local_now (clock w 0%nat)) = true
  /\ timestamp t = strftime (local_now (clock w 0%nat))
  /\ (exists suffix,
         1000 <= suffix <= 9999
         /\ transaction_id t
            = format_transaction_id (epoch_ms (clock w 1%nat)) suffix)
  /\ clock w' = tape_tl (tape_tl (clock w)).
Proof. exact (generer_transaction_clock cfg w t w' Hrun). Qed.

Lemma generer_transaction_reads_clock_witness :
  exists t w',
    generer_transaction CONFIG sample_world = Ok (t, w')
    /\ datetime_in_range (local_now (clock sample_world 0%nat)) = true
    /\ timestamp t = strftime (local_now (clock sample_world 0%nat))
    /\ (exists suffix,
           1000 <= suffix <= 9999
           /\ transaction_id t
              = format_transaction_id (epoch_ms (clock sample_world 1%nat))
                                      suffix)
    /\ clock w' = tape_tl (tape_tl (clock sample_world)).
Proof.
  assert (H : is_Ok (generer_transaction CONFIG sample_world) = true)
    by (vm_compute; reflexivity).
  destruct (is_Ok_true _ H) as [[t w'] E].
  exists t, w'. split; [ exact E | ].
  exact (generer_transaction_reads_clock CONFIG sample_world t w' E).
Defined.

(** ** User identifiers *)

(** X7.  The user identifier determines the prefix and the number it was
    made of: two identifiers made of prefixes of the list are equal only
    when prefix and number are. *)
Theorem user_id_determines_number
        (prefix prefix' : string) (n n' : Z)
        (Hp : In prefix PREFIXES) (Hp' : In prefix' PREFIXES)
        (Hid : format_user_id prefix n = format_user_id prefix' n') :
  prefix = prefix' /\ n = n'.
Proof.
  unfold PREFIXES in Hp, Hp'. cbn [In] in Hp, Hp'. unfold format_user_id in Hid.
  destruct Hp as [<- | [<- | [<- | [<- | [<- | []]]]]];
    destruct Hp' as [<- | [<- | [<- | [<- | [<- | []]]]]];
    cbn [String.append] in Hid; try discriminate Hid;
    injection Hid as Hid; apply str_of_Z_inj in Hid; auto.
Qed.

Lemma user_id_determines_number_witness :
  In "76" PREFIXES /\ "76" = "76" /\ 5551234 = 5551234.
Proof.
  split; [ cbn; auto | ].
  apply (user_id_determines_number "76" "76" 5551234 5551234).
  - cbn. auto.
  - cbn. auto.
  - reflexivity.
Defined.

(** ** The text of a timestamp *)

Lemma has_shape_append (p1 p2 s1 s2 : string) :
  has_shape p1 s1 = true -> has_shape p2 s2 = true ->
  has_shape (p1 +++ p2) (s1 +++ s2) = true.
Proof.
  revert s1. induction p1 as [ | p p1 IH]; intros [ | c s1] H1 H2;
    cbn [has_shape String.append] in *; try discriminate; [ exact H2 | ].
  apply andb_prop in H1 as [Hc H1]. rewrite Hc. cbn [andb].
  apply IH; assumption.
Qed.

Lemma has_shape_dd (s : string) :
  all_digits s = true -> String.length s = 2%nat -> has_shape "dd" s = true.
Proof.
  destruct s as [ | a [ | b [ | c s]]]; try discriminate. intros D _.
  cbn [all_digits] in D. cbn [has_shape].
  change (Ascii.eqb "d" "d") with true. cbv iota.
  apply andb_prop in D as [Da D]. apply andb_prop in D as [Db _].
  rewrite Da, Db. reflexivity.
Qed.

Lemma has_shape_dddd (s : string) :
  all_digits s = true -> String.length s = 4%nat -> has_shape "dddd" s = true.
Proof.
  destruct s as [ | a [ | b [ | c [ | d [ | e s]]]]]; try discriminate.
  intros D _. cbn [all_digits] in D. cbn [has_shape].
  change (Ascii.eqb "d" "d") with true. cbv iota.
  apply andb_prop in D as [Da D]. apply andb_prop in D as [Db D].
  apply andb_prop in D as [Dc D]. apply andb_prop in D as [Dd _].
  rewrite Da, Db, Dc, Dd. reflexivity.
Qed.

(** The calendar fields of a representable date-time. *)
Lemma dt_fields_calendar (t : datetime) :
  datetime_in_range t = true ->
  exists y mo d h mi s,
    dt_fields t = [y; mo; d; h; mi; s]
    /\ 1 <= y <= 9999 /\ 1 <= mo <= 12 /\ 1 <= d <= 31
    /\ 0 <= h <= 23 /\ 0 <= mi <= 59 /\ 0 <= s <= 59.
Proof.
  unfold datetime_in_range. intros R.
  apply andb_prop in R as [R R']. apply Z.leb_le in R. apply Z.ltb_lt in R'.
  unfold dt_fields.
  assert (Hn : 1 <= t / US_PER_DAY + 1 <= MAXORDINAL)
    by (revert R R'; unfold MAXORDINAL, US_PER_DAY, US_PER_HOUR, US_PER_SECOND;
        dlia).
  pose proof (ord2ymd_range _ Hn) as Y.
  destruct (ord2ymd (t / US_PER_DAY + 1)) as [[y m] d].
  assert (Hc : 0 <= dt_hour t < 24 /\ 0 <= dt_minute t < 60
               /\ 0 <= dt_second t < 60)
    by (unfold dt_hour, dt_minute, dt_second, US_PER_DAY, US_PER_HOUR,
          US_PER_SECOND; dlia).
  exists y, m, d, (dt_hour t), (dt_minute t), (dt_second t).
  split; [ reflexivity | lia ].
Qed.

Lemma year_from_1000 (t : datetime) :
  YEAR_1000 <= t ->
  let '(y, _, _) := ord2ymd (t / US_PER_DAY + 1) in 1000 <= y.
Proof.
  intros H.
  assert (Hn : 364878 <= t / US_PER_DAY + 1).
  { revert H. unfold YEAR_1000. change (days_before_year 1000) with 364877.
    unfold US_PER_DAY, US_PER_HOUR, US_PER_SECOND. dlia. }
  apply Z.le_lteq in Hn. destruct Hn as [Hn | <-].
  - pose proof (ord2ymd_lt 364878 (t / US_PER_DAY + 1) ltac:(lia) Hn) as L.
    change (ord2ymd 364878) with (1000, 1, 1) in L.
    destruct (ord2ymd (t / US_PER_DAY + 1)) as [[y m] d].
    cbv beta iota in L. cbv beta iota. lia.
  - change (ord2ymd 364878) with (1000, 1, 1). cbv beta iota. lia.
Qed.

Lemma strftime_shape (t : datetime) :
  datetime_in_range t = true -> YEAR_1000 <= t ->
  has_shape "dddd-dd-dd dd:dd:dd" (strftime t) = true
  /\ exists y mo d h mi s,
      strftime t = format_fields [y; mo; d; h; mi; s]
      /\ 1000 <= y <= 9999 /\ 1 <= mo <= 12 /\ 1 <= d <= 31
      /\ 0 <= h <= 23 /\ 0 <= mi <= 59 /\ 0 <= s <= 59.
Proof.
  intros R Hera. destruct (dt_fields_calendar t R)
    as (y & mo & d & h & mi & s & E & Hy & Hmo & Hd & Hh & Hmi & Hs).
  assert (Hy' : 1000 <= y).
  { pose proof (year_from_1000 t Hera) as Y. unfold dt_fields in E.
    destruct (ord2ymd (t / US_PER_DAY + 1)) as [[y0 m0] d0].
    injection E as <- _ _ _ _ _. exact Y. }
  rewrite strftime_format, E. split.
  - cbn [format_fields].
    destruct (pad4_spec y ltac:(lia)) as (Dy & Ly & _).
    destruct (pad2_spec mo ltac:(lia)) as (Dmo & Lmo & _).
    destruct (pad2_spec d ltac:(lia)) as (Dd & Ld & _).
    destruct (pad2_spec h ltac:(lia)) as (Dh & Lh & _).
    destruct (pad2_spec mi ltac:(lia)) as (Dmi & Lmi & _).
    destruct (pad2_spec s ltac:(lia)) as (Ds & Ls & _).
    apply (has_shape_append "dddd" "-dd-dd dd:dd:dd");
      [ apply has_shape_dddd; assumption | ].
    apply (has_shape_append "-" "dd-dd dd:dd:dd"); [ reflexivity | ].
    apply (has_shape_append "dd" "-dd dd:dd:dd");
      [ apply has_shape_dd; assumption | ].
    apply (has_shape_append "-" "dd dd:dd:dd"); [ reflexivity | ].
    apply (has_shape_append "dd" " dd:dd:dd");
      [ apply has_shape_dd; assumption | ].
    apply (has_shape_append " " "dd:dd:dd"); [ reflexivity | ].
    apply (has_shape_append "dd" ":dd:dd");
      [ apply has_shape_dd; assumption | ].
    apply (has_shape_append ":" "dd:dd"); [ reflexivity | ].
    apply (has_shape_append "dd" ":dd");
      [ apply has_shape_dd; assumption | ].
    apply (has_shape_append ":" "dd"); [ reflexivity | ].
    apply has_shape_dd; assumption.
  - exists y, mo, d, h, mi, s. repeat split; lia.
Qed.

(** X8.  When the window starts in the year 1000 or later, every timestamp
    of a batch has the fixed shape [YYYY-MM-DD HH:MM:SS]: nineteen
    characters, digits around the separators; and it is the text of a
    calendar date and a time of day: year 1000 to 9999, month 1 to 12, day
    1 to 31, hour 0 to 23, minute and second 0 to 59. *)
Theorem timestamp_text_shape
        (cfg : Config) (argsort : list string -> list nat) (n : Z) (w : World)
        (df : DataFrame) (w' : World)
        (Hera : YEAR_1000 <= local_now (tape_hd (clock w)) - timedelta_days 7)
        (Hrun : generer_batch_transactions cfg argsort n w = Ok (df, w')) :
  Forall (fun r =>
            has_shape "dddd-dd-dd dd:dd:dd" (timestamp r) = true
            /\ exists y mo d h mi s,
                timestamp r = format_fields [y; mo; d; h; mi; s]
                /\ 1000 <= y <= 9999 /\ 1 <= mo <= 12 /\ 1 <= d <= 31
                /\ 0 <= h <= 23 /\ 0 <= mi <= 59 /\ 0 <= s <= 59) df.
Proof.
  apply batch_rows in Hrun. eapply Forall_impl; [ | exact Hrun ].
  intros r (g & (g0 & k & _ & Hk & Hr & ->) & Hrow).
  rewrite (row_of_timestamp _ _ Hrow). cbn [timestamp set_timestamp].
  apply strftime_shape; [ exact Hr | ].
  unfold timedelta_hours, US_PER_HOUR, US_PER_SECOND. lia.
Qed.

Lemma timestamp_text_shape_witness :
  exists df w',
    generer_batch_transactions CONFIG argsort_stable 6 sample_world = Ok (df, w')
    /\ Forall (fun r =>
                 has_shape "dddd-dd-dd dd:dd:dd" (timestamp r) = true
                 /\ exists y mo d h mi s,
                     timestamp r = format_fields [y; mo; d; h; mi; s]
                     /\ 1000 <= y <= 9999 /\ 1 <= mo <= 12 /\ 1 <= d <= 31
                     /\ 0 <= h <= 23 /\ 0 <= mi <= 59 /\ 0 <= s <= 59) df.
Proof.
  assert (H : is_Ok (generer_batch_transactions CONFIG argsort_stable 6 sample_world)
              = true) by (vm_compute; reflexivity).
  destruct (is_Ok_true _ H) as [[df w'] E].
  exists df, w'. split; [ exact E | ].
  apply (timestamp_text_shape CONFIG argsort_stable 6 sample_world df w');
    [ vm_compute; discriminate | exact E ].
Defined.

(** ** The exported text *)

Lemma needs_quote_append (a b : string) :
  needs_quote (a +++ b) = needs_quote a || needs_quote b.
Proof.
  induction a as [ | c a IH]; cbn [String.append needs_quote]; [ reflexivity | ].
  rewrite IH, !orb_assoc. reflexivity.
Qed.

Lemma needs_quote_all_digits (s : string) :
  all_digits s = true -> needs_quote s = false.
Proof.
  induction s as [ | c s IH]; cbn [all_digits needs_quote]; [ reflexivity | ].
  intros H. apply andb_prop in H as [Hc Hs]. rewrite (IH Hs), orb_false_r.
  destruct (Ascii.eqb_spec c ","); [ subst c; discriminate Hc | ].
  destruct (Ascii.eqb_spec c QUOTE); [ subst c; discriminate Hc | ].
  destruct (Ascii.eqb_spec c LF); [ subst c; discriminate Hc | ].
  destruct (Ascii.eqb_spec c CR); [ subst c; discriminate Hc | ].
  reflexivity.
Qed.

Lemma needs_quote_str_of_Z (n : Z) : needs_quote (str_of_Z n) = false.
Proof.
  unfold str_of_Z. destruct (n <? 0); cbn [needs_quote];
    rewrite needs_quote_all_digits by apply str_nat_all_digits; reflexivity.
Qed.

Lemma needs_quote_count (s : string) :
  needs_quote s = false ->
  count_char "," s = O /\ count_char QUOTE s = O
  /\ count_char LF s = O /\ count_char CR s = O.
Proof.
  induction s as [ | c s IH]; cbn [needs_quote count_char]; [ auto | ].
  intros H. apply orb_false_elim in H as [H Hs].
  apply orb_false_elim in H as [H H4]. apply orb_false_elim in H as [H H3].
  apply orb_false_elim in H as [H1 H2].
  rewrite H1, H2, H3, H4. exact (IH Hs).
Qed.

Lemma needs_quote_has_shape (pattern s : string) :
  needs_quote pattern = false -> has_shape pattern s = true ->
  needs_quote s = false.
Proof.
  revert s. induction pattern as [ | p pattern IH]; intros [ | c s] Hp Hs;
    cbn [has_shape needs_quote] in *; try discriminate; [ reflexivity | ].
  apply andb_prop in Hs as [Hc Hs].
  apply orb_false_elim in Hp as [Hp Hp'].
  rewrite (IH s Hp' Hs), orb_false_r.
  destruct (Ascii.eqb p "d").
  - pose proof (needs_quote_all_digits (String c "")) as D.
    cbn [all_digits needs_quote] in D. rewrite Hc in D.
    rewrite orb_false_r in D. apply D. reflexivity.
  - apply Ascii.eqb_eq in Hc. subst c. exact Hp.
Qed.

Lemma needs_quote_strftime (t : datetime) :
  datetime_in_range t = true -> needs_quote (strftime t) = false.
Proof.
  intros R. rewrite strftime_format.
  pose proof (dt_fields_range t R) as F.
  destruct (dt_fields t) as [ | y [ | m [ | d [ | h [ | i [ | s [ | ? ?]]]]]]];
    try contradiction.
  destruct F as (Hy & Hm & Hd & Hh & Hi & Hs).
  destruct (pad4_spec y Hy) as (Dy & _). destruct (pad2_spec m Hm) as (Dm & _).
  destruct (pad2_spec d Hd) as (Dd & _). destruct (pad2_spec h Hh) as (Dh & _).
  destruct (pad2_spec i Hi) as (Di & _). destruct (pad2_spec s Hs) as (Ds & _).
  cbn [format_fields]. rewrite !needs_quote_append.
  rewrite (needs_quote_all_digits _ Dy), (needs_quote_all_digits _ Dm),
    (needs_quote_all_digits _ Dd), (needs_quote_all_digits _ Dh),
    (needs_quote_all_digits _ Di), (needs_quote_all_digits _ Ds).
  reflexivity.
Qed.

Lemma clamp_montant_whole (min_val max_val : Z) (montant : spec_float) :
  exists z, num_as_Z (clamp_montant min_val max_val montant) = Some z.
Proof.
  destruct (clamp_montant_cases min_val max_val montant)
    as [E | [E | (n & En & E & _)]]; rewrite E.
  - exists min_val. apply num_as_Z_int.
  - exists max_val. apply num_as_Z_int.
  - exists n. unfold num_as_Z.
    change (num_exact (PyFloat (py_round0 montant)))
      with (float_exact (py_round0 montant)).
    rewrite En. cbn [exact_as_Z]. rewrite Z.pow_0_r, Z.mod_1_r, Z.div_1_r.
    reflexivity.
Qed.

Lemma config_plain_parts (cfg : Config) :
  config_plain cfg = true ->
  (forall s, In s (VILLES cfg) -> needs_quote s = false)
  /\ (forall s, In s (OPERATEURS cfg) -> needs_quote s = false)
  /\ (forall s, In s (map fst (TRANSACTION_TYPES cfg)) -> needs_quote s = false).
Proof.
  unfold config_plain, plain. intros H.
  apply andb_prop in H as [H H3]. apply andb_prop in H as [H1 H2].
  rewrite forallb_forall in H1, H2, H3.
  repeat split; intros s Hs; apply negb_true_iff; auto.
Qed.

(** The rows of a batch under a plain configuration are plain. *)
Lemma batch_rows_plain (cfg : Config) (argsort : list string -> list nat)
      (n : Z) (w : World) (df : DataFrame) (w' : World) :
  config_plain cfg = true ->
  generer_batch_transactions cfg argsort n w = Ok (df, w') ->
  Forall plain_row df.
Proof.
  intros Hplain Hrun. apply config_plain_parts in Hplain.
  destruct Hplain as (Pv & Po & Pt).
  apply batch_rows in Hrun. eapply Forall_impl; [ | exact Hrun ].
  intros r (g & (g0 & k & Hgen & _ & Hr & ->) & Hrow).
  destruct Hgen as [Hty Ham Hcity Hop Hu Hid Hst].
  destruct Ham as (min_val & max_val & montant & _ & Ham).
  destruct Hu as (prefix & num & Hp & _ & Hu).
  destruct Hid as (ms & suffix & _ & Hid).
  assert (Pp : needs_quote prefix = false)
    by (cbn in Hp; destruct Hp as [<- | [<- | [<- | [<- | [<- | []]]]]];
        reflexivity).
  assert (Hwhole : exists z, num_as_Z (amount r) = Some z).
  { destruct (clamp_montant_whole min_val max_val montant) as [z Hz].
    exists z. destruct Hrow as [-> | ->]; cbn [amount set_timestamp upcast_amount];
      rewrite ?num_as_Z_to_float, Ham; exact Hz. }
  unfold plain_row.
  destruct Hrow as [-> | ->]; cbn [transaction_id timestamp user_id amount city
    transaction_type operator status set_timestamp upcast_amount] in *;
    rewrite Hid, Hu, Hst; unfold format_transaction_id, format_user_id;
    rewrite !needs_quote_append, !needs_quote_str_of_Z, Pp,
      (needs_quote_strftime _ Hr), (Pv _ Hcity), (Po _ Hop), (Pt _ Hty);
    repeat match goal with |- _ /\ _ => split end;
    try reflexivity; exact Hwhole.
Qed.

Lemma needs_quote_csv_amount (x : PyNum) : needs_quote (csv_amount x) = false.
Proof.
  destruct x as [z | f]; cbn [csv_amount]; [ apply needs_quote_str_of_Z | ].
  assert (G : needs_quote
                match num_as_Z (PyFloat f) with
                | Some z => str_of_Z z +++ ".0"
                | None => ""
                end = false).
  { destruct (num_as_Z (PyFloat f)); [ | reflexivity ].
    rewrite needs_quote_append, needs_quote_str_of_Z. reflexivity. }
  destruct f as [[ | ] | | | ]; first [ exact G | reflexivity ].
Qed.

(** The line of a plain row: the eight fields as they are, with seven
    commas between them. *)
Lemma csv_row_plain (r : Transaction) :
  plain_row r ->
  csv_row r
  = transaction_id r +++ "," +++ timestamp r +++ "," +++ user_id r +++ ","
    +++ csv_amount (amount r) +++ "," +++ city r +++ ","
    +++ transaction_type r +++ "," +++ operator r +++ "," +++ status r.
Proof.
  intros (H1 & H2 & H3 & _ & H5 & H6 & H7 & H8).
  unfold csv_row, csv_field. rewrite H1, H2, H3, H5, H6, H7, H8. reflexivity.
Qed.

Lemma csv_row_counts (r : Transaction) :
  plain_row r ->
  count_char "," (csv_row r) = 7%nat /\ count_char QUOTE (csv_row r) = O
  /\ count_char LF (csv_row r) = O /\ count_char CR (csv_row r) = O.
Proof.
  intros P. rewrite (csv_row_plain r P).
  destruct P as (H1 & H2 & H3 & _ & H5 & H6 & H7 & H8).
  pose proof (needs_quote_csv_amount (amount r)) as H4.
  apply needs_quote_count in H1, H2, H3, H4, H5, H6, H7, H8.
  destruct H1 as (A1 & B1 & C1 & D1). destruct H2 as (A2 & B2 & C2 & D2).
  destruct H3 as (A3 & B3 & C3 & D3). destruct H4 as (A4 & B4 & C4 & D4).
  destruct H5 as (A5 & B5 & C5 & D5). destruct H6 as (A6 & B6 & C6 & D6).
  destruct H7 as (A7 & B7 & C7 & D7). destruct H8 as (A8 & B8 & C8 & D8).
  rewrite !count_char_append.
  rewrite A1, A2, A3, A4, A5, A6, A7, A8, B1, B2, B3, B4, B5, B6, B7, B8,
    C1, C2, C3, C4, C5, C6, C7, C8, D1, D2, D3, D4, D5, D6, D7, D8.
  repeat split; reflexivity.
Qed.

Lemma csv_body_counts (df : DataFrame) :
  Forall plain_row df ->
  let body := fold_right (fun line rest => line +++ String LF rest) ""
                         (map csv_row df) in
  count_char LF body = List.length df
  /\ count_char "," body = (7 * List.length df)%nat
  /\ count_char QUOTE body = O
  /\ count_char CR body = O.
Proof.
  induction 1 as [ | r df Hr _ IH]; cbn [map fold_right List.length].
  - repeat split; reflexivity.
  - cbv zeta in IH. destruct IH as (I1 & I2 & I3 & I4).
    destruct (csv_row_counts r Hr) as (A & B & C & D).
    cbv zeta. rewrite !count_char_append. cbn [count_char].
    rewrite A, B, C, D, I1, I2, I3, I4.
    change (Ascii.eqb LF LF) with true.
    change (Ascii.eqb LF ",") with false.
    change (Ascii.eqb LF QUOTE) with false.
    change (Ascii.eqb LF CR) with false.
    cbv iota. repeat split; lia.
Qed.

Lemma to_csv_counts (df : DataFrame) :
  Forall plain_row df ->
  count_char LF (to_csv df) = S (List.length df)
  /\ count_char "," (to_csv df) = (7 * S (List.length df))%nat
  /\ count_char QUOTE (to_csv df) = O
  /\ count_char CR (to_csv df) = O.
Proof.
  intros H. destruct (csv_body_counts df H) as (I1 & I2 & I3 & I4).
  unfold to_csv. cbn [fold_right]. rewrite !count_char_append.
  cbn [count_char]. rewrite I1, I2, I3, I4.
  change (count_char LF csv_header) with O.
  change (count_char "," csv_header) with 7%nat.
  change (count_char QUOTE csv_header) with O.
  change (count_char CR csv_header) with O.
  change (Ascii.eqb LF LF) with true.
  change (Ascii.eqb LF ",") with false.
  change (Ascii.eqb LF QUOTE) with false.
  change (Ascii.eqb LF CR) with false.
  cbv iota. repeat split; lia.
Qed.

(** *** Reading the text back *)

Lemma split_at_char (c : ascii) (a a' b b' : string) :
  count_char c a = O -> count_char c a' = O ->
  a +++ String c b = a' +++ String c b' -> a = a' /\ b = b'.
Proof.
  revert a'. induction a as [ | x a IH]; intros [ | x' a'] Ha Ha' E;
    cbn [String.append] in E.
  - injection E as <-. auto.
  - injection E as <- _. cbn [count_char] in Ha'.
    rewrite Ascii.eqb_refl in Ha'. discriminate.
  - injection E as -> _. cbn [count_char] in Ha.
    rewrite Ascii.eqb_refl in Ha. discriminate.
  - injection E as <- E. cbn [count_char] in Ha, Ha'.
    destruct (Ascii.eqb x c); [ discriminate | ].
    destruct (IH a' Ha Ha' E) as [-> ->]. auto.
Qed.

Lemma count_dot_str_of_Z (n : Z) : count_char "." (str_of_Z n) = O.
Proof.
  unfold str_of_Z. destruct (n <? 0); simpl;
    apply count_char_all_digits; try reflexivity; apply str_nat_all_digits.
Qed.

Lemma str_of_Z_not_minus_zero (z : Z) : str_of_Z z <> "-0".
Proof.
  unfold str_of_Z. destruct (z <? 0) eqn:L; intros E.
  - injection E as E. apply Z.ltb_lt in L.
    change "0" with (str_nat 0) in E. apply str_nat_inj in E; lia.
  - pose proof (str_nat_all_digits z) as D. rewrite E in D. discriminate D.
Qed.

Lemma csv_amount_float (f : spec_float) (z : Z) :
  num_as_Z (PyFloat f) = Some z ->
  csv_amount (PyFloat f) = "-0.0" /\ z = 0
  \/ csv_amount (PyFloat f) = str_of_Z z +++ ".0".
Proof.
  intros H. destruct f as [[ | ] | s | | s m e]; cbn [csv_amount];
    try (rewrite H; right; reflexivity).
  left. split; [ reflexivity | ]. revert H. vm_compute. congruence.
Qed.

(** The text of a whole amount determines its value and its kind. *)
Lemma csv_amount_inj (x y : PyNum) (zx zy : Z) :
  num_as_Z x = Some zx -> num_as_Z y = Some zy ->
  csv_amount x = csv_amount y ->
  zx = zy /\ is_float x = is_float y.
Proof.
  intros Hx Hy E.
  assert (Dot : forall z f v, num_as_Z (PyFloat f) = Some v ->
                              str_of_Z z <> csv_amount (PyFloat f)).
  { intros z f v Hf C. apply (f_equal (count_char ".")) in C.
    rewrite count_dot_str_of_Z in C.
    destruct (csv_amount_float f v Hf) as [[F _] | F]; rewrite F in C.
    - discriminate C.
    - rewrite count_char_append, count_dot_str_of_Z in C. discriminate C. }
  destruct x as [a | f], y as [b | g]; cbn [is_float].
  - rewrite num_as_Z_int in Hx, Hy. injection Hx as <-. injection Hy as <-.
    cbn [csv_amount] in E. apply str_of_Z_inj in E. auto.
  - exfalso. exact (Dot a g zy Hy E).
  - exfalso. symmetry in E. exact (Dot b f zx Hx E).
  - split; [ | reflexivity ].
    destruct (csv_amount_float f zx Hx) as [[F Zx] | F];
      destruct (csv_amount_float g zy Hy) as [[G Zy] | G];
      rewrite F, G in E.
    + lia.
    + exfalso. change "-0.0" with ("-0" +++ String "." "0") in E.
      change (str_of_Z zy +++ ".0") with (str_of_Z zy +++ String "." "0") in E.
      apply split_at_char in E; [ | reflexivity | apply count_dot_str_of_Z ].
      destruct E as [E _]. symmetry in E. exact (str_of_Z_not_minus_zero _ E).
    + exfalso. change "-0.0" with ("-0" +++ String "." "0") in E.
      change (str_of_Z zx +++ ".0") with (str_of_Z zx +++ String "." "0") in E.
      apply split_at_char in E; [ | apply count_dot_str_of_Z | reflexivity ].
      destruct E as [E _]. exact (str_of_Z_not_minus_zero _ E).
    + change (str_of_Z zx +++ ".0") with (str_of_Z zx +++ String "." "0") in E.
      change (str_of_Z zy +++ ".0") with (str_of_Z zy +++ String "." "0") in E.
      apply split_at_char in E; try apply count_dot_str_of_Z.
      destruct E as [E _]. apply str_of_Z_inj in E. exact E.
Qed.

Lemma comma_append (s : string) : "," +++ s = String "," s.
Proof. reflexivity. Qed.

(** The line of a plain row determines its fields. *)
Lemma csv_row_inj (r1 r2 : Transaction) :
  plain_row r1 -> plain_row r2 -> csv_row r1 = csv_row r2 -> same_row r1 r2.
Proof.
  intros P1 P2 E. rewrite (csv_row_plain r1 P1), (csv_row_plain r2 P2) in E.
  destruct P1 as (A1 & A2 & A3 & (z1 & A4) & A5 & A6 & A7 & A8).
  destruct P2 as (B1 & B2 & B3 & (z2 & B4) & B5 & B6 & B7 & B8).
  pose proof (needs_quote_csv_amount (amount r1)) as A4'.
  pose proof (needs_quote_csv_amount (amount r2)) as B4'.
  apply needs_quote_count in A1, A2, A3, A4', A5, A6, A7,
    B1, B2, B3, B4', B5, B6, B7.
  rewrite !comma_append in E.
  apply split_at_char in E; [ | apply A1 | apply B1 ]. destruct E as [E1 E].
  apply split_at_char in E; [ | apply A2 | apply B2 ]. destruct E as [E2 E].
  apply split_at_char in E; [ | apply A3 | apply B3 ]. destruct E as [E3 E].
  apply split_at_char in E; [ | apply A4' | apply B4' ]. destruct E as [E4 E].
  apply split_at_char in E; [ | apply A5 | apply B5 ]. destruct E as [E5 E].
  apply split_at_char in E; [ | apply A6 | apply B6 ]. destruct E as [E6 E].
  apply split_at_char in E; [ | apply A7 | apply B7 ]. destruct E as [E7 E8].
  destruct (csv_amount_inj _ _ _ _ A4 B4 E4) as [Ez Ef].
  unfold same_row. rewrite A4, B4, Ez. auto 10.
Qed.

Lemma append_LF_not_empty (a b : string) : a +++ String LF b <> "".
Proof. destruct a; discriminate. Qed.

Lemma csv_body_inj (df1 : DataFrame) :
  forall df2,
    Forall plain_row df1 -> Forall plain_row df2 ->
    fold_right (fun line rest => line +++ String LF rest) "" (map csv_row df1)
    = fold_right (fun line rest => line +++ String LF rest) "" (map csv_row df2) ->
    Forall2 same_row df1 df2.
Proof.
  induction df1 as [ | r1 df1 IH]; intros [ | r2 df2] P1 P2 E;
    cbn [map fold_right] in E.
  - constructor.
  - symmetry in E. apply append_LF_not_empty in E. contradiction.
  - apply append_LF_not_empty in E. contradiction.
  - inversion P1 as [ | ? ? Hr1 P1']; subst.
    inversion P2 as [ | ? ? Hr2 P2']; subst.
    apply split_at_char in E;
      [ | apply (csv_row_counts r1 Hr1) | apply (csv_row_counts r2 Hr2) ].
    destruct E as [Er E]. constructor.
    + apply csv_row_inj; assumption.
    + apply IH; assumption.
Qed.

Lemma to_csv_inj (df1 df2 : DataFrame) :
  Forall plain_row df1 -> Forall plain_row df2 ->
  to_csv df1 = to_csv df2 -> Forall2 same_row df1 df2.
Proof.
  intros P1 P2 E. unfold to_csv in E. cbn [fold_right] in E.
  apply split_at_char in E; try reflexivity.
  destruct E as [_ E]. apply csv_body_inj; assumption.
Qed.

Lemma text_lines_line (l rest : string) :
  count_char LF l = O ->
  text_lines (l +++ String LF rest) = l :: text_lines rest.
Proof.
  induction l as [ | c l IH]; intros H.
  - cbn [String.append text_lines]. rewrite Ascii.eqb_refl. reflexivity.
  - cbn [count_char] in H.
    change (String c l +++ String LF rest) with (String c (l +++ String LF rest)).
    cbn [text_lines].
    destruct (Ascii.eqb c LF) eqn:E; [ discriminate H | ].
    rewrite (IH H). reflexivity.
Qed.

Lemma text_lines_to_csv (df : DataFrame) :
  Forall plain_row df ->
  text_lines (to_csv df) = csv_header :: map csv_row df.
Proof.
  intros H. unfold to_csv. cbn [fold_right].
  rewrite text_lines_line by reflexivity. f_equal.
  induction H as [ | r df Hr _ IH]; cbn [map fold_right].
  - reflexivity.
  - destruct (csv_row_counts r Hr) as (_ & _ & C & _).
    rewrite (text_lines_line _ _ C), IH. reflexivity.
Qed.

Lemma split_on_length (sep : ascii) (s : string) :
  List.length (split_on sep s) = S (count_char sep s).
Proof.
  induction s as [ | c s IH]; cbn [split_on count_char].
  - reflexivity.
  - destruct (Ascii.eqb c sep).
    + cbn [List.length]. rewrite IH. reflexivity.
    + destruct (split_on sep s); cbn [List.length] in *; [ discriminate IH | ].
      exact IH.
Qed.

Lemma csv_row_eight_fields (r : Transaction) :
  plain_row r -> eight_plain_fields (csv_row r).
Proof.
  intros P. destruct (csv_row_counts r P) as (A & B & _ & D).
  unfold eight_plain_fields. rewrite split_on_length, A. auto.
Qed.

Lemma csv_header_eight_fields : eight_plain_fields csv_header.
Proof. repeat split. Qed.

(** The lines of the text of a frame of plain rows. *)
Lemma to_csv_lines (df : DataFrame) :
  Forall plain_row df ->
  nth_error (text_lines (to_csv df)) 0 = Some csv_header
  /\ List.length (text_lines (to_csv df)) = S (List.length df)
  /\ Forall eight_plain_fields (text_lines (to_csv df)).
Proof.
  intros H. rewrite (text_lines_to_csv df H).
  split; [ reflexivity | ].
  split; [ cbn [List.length]; rewrite length_map; reflexivity | ].
  constructor; [ exact csv_header_eight_fields | ].
  apply Forall_map. eapply Forall_impl; [ | exact H ].
  exact csv_row_eight_fields.
Qed.

(** X9.  Under a configuration whose cities, operators and types hold no
    comma, quote or line break, the text that [to_csv] makes of a batch has
    one line for the header, which comes first, and one per row; every line
    is ended by a line feed and has exactly seven commas, that is eight
    fields, and holds no quote and no carriage return: no field is
    quoted. *)
Theorem to_csv_lines_and_fields
        (cfg : Config) (argsort : list string -> list nat) (n : Z) (w : World)
        (df : DataFrame) (w' : World)
        (Hplain : config_plain cfg = true)
        (Hrun : generer_batch_transactions cfg argsort n w = Ok (df, w')) :
  nth_error (text_lines (to_csv df)) 0 = Some csv_header
  /\ List.length (text_lines (to_csv df)) = S (List.length df)
  /\ Forall (fun line =>
               List.length (split_on "," line) = 8%nat
               /\ count_char "," line = 7%nat
               /\ count_char QUOTE line = O
               /\ count_char CR line = O) (text_lines (to_csv df))
  /\ count_char LF (to_csv df) = S (List.length df)
  /\ count_char "," (to_csv df) = (7 * S (List.length df))%nat
  /\ count_char QUOTE (to_csv df) = O
  /\ count_char CR (to_csv df) = O.
Proof.
  pose proof (batch_rows_plain _ _ _ _ _ _ Hplain Hrun) as P.
  destruct (to_csv_lines df P) as (L1 & L2 & L3).
  split; [ exact L1 | ]. split; [ exact L2 | ]. split; [ exact L3 | ].
  exact (to_csv_counts df P).
Qed.

Lemma to_csv_lines_and_fields_witness :
  exists df w',
    generer_batch_transactions CONFIG argsort_stable 6 sample_world = Ok (df, w')
    /\ nth_error (text_lines (to_csv df)) 0 = Some csv_header
    /\ List.length (text_lines (to_csv df)) = S (List.length df)
    /\ Forall (fun line =>
                 List.length (split_on "," line) = 8%nat
                 /\ count_char "," line = 7%nat
                 /\ count_char QUOTE line = O
                 /\ count_char CR line = O) (text_lines (to_csv df))
    /\ count_char LF (to_csv df) = S (List.length df)
    /\ count_char "," (to_csv df) = (7 * S (List.length df))%nat
    /\ count_char QUOTE (to_csv df) = O
    /\ count_char CR (to_csv df) = O.
Proof.
  assert (H : is_Ok (generer_batch_transactions CONFIG argsort_stable 6 sample_world)
              = true) by (vm_compute; reflexivity).
  destruct (is_Ok_true _ H) as [[df w'] E].
  exists df, w'. split; [ exact E | ].
  apply (to_csv_lines_and_fields CONFIG argsort_stable 6 sample_world df w');
    [ vm_compute; reflexivity | exact E ].
Defined.

(** X10.  The exported text loses nothing.  Two batches, each under a
    configuration without comma, quote or line break in its texts, that
    are written to the same text have the same number of rows and, row by
    row, the same fields: the same texts, and amounts of the same value and
    kind. *)
Theorem to_csv_determines_rows
        (cfg1 cfg2 : Config) (argsort1 argsort2 : list string -> list nat)
        (n1 n2 : Z) (w1 w2 : World) (df1 df2 : DataFrame) (w1' w2' : World)
        (Hplain1 : config_plain cfg1 = true)
        (Hplain2 : config_plain cfg2 = true)
        (Hrun1 : generer_batch_transactions cfg1 argsort1 n1 w1 = Ok (df1, w1'))
        (Hrun2 : generer_batch_transactions cfg2 argsort2 n2 w2 = Ok (df2, w2'))
        (Hcsv : to_csv df1 = to_csv df2) :
  Forall2 same_row df1 df2.
Proof.
  apply to_csv_inj; [ | | exact Hcsv ].
  - exact (batch_rows_plain _ _ _ _ _ _ Hplain1 Hrun1).
  - exact (batch_rows_plain _ _ _ _ _ _ Hplain2 Hrun2).
Qed.

Lemma to_csv_determines_rows_witness :
  exists df w',
    generer_batch_transactions CONFIG argsort_stable 6 sample_world = Ok (df, w')
    /\ Forall2 same_row df df.
Proof.
  assert (H : is_Ok (generer_batch_transactions CONFIG argsort_stable 6 sample_world)
              = true) by (vm_compute; reflexivity).
  destruct (is_Ok_true _ H) as [[df w'] E].
  exists df, w'. split; [ exact E | ].
  apply (to_csv_determines_rows CONFIG CONFIG argsort_stable argsort_stable 6 6
                                sample_world sample_world df df w' w').
  - vm_compute. reflexivity.
  - vm_compute. reflexivity.
  - exact E.
  - exact E.
  - reflexivity.
Defined.

(** ** The script, end to end *)

Lemma CONFIG_plain : config_plain CONFIG = true.
Proof. vm_compute. reflexivity. Qed.

(** ** Statistics *)

Lemma str_le_trans (a : string) :
  forall b c, str_le a b -> str_le b c -> str_le a c.
Proof.
  unfold str_le, String.leb.
  induction a as [ | x a IH]; intros [ | y b] [ | z c];
    cbn [String.compare]; try (intros; reflexivity); try discriminate.
  rewrite !ascii_compare_value.
  set (vx := Z.of_nat (nat_of_ascii x) - 48).
  set (vy := Z.of_nat (nat_of_ascii y) - 48).
  set (vz := Z.of_nat (nat_of_ascii z) - 48).
  destruct (Z.compare_spec vx vy), (Z.compare_spec vy vz),
    (Z.compare_spec vx vz); try lia; intros Hab Hbc;
    try reflexivity; try discriminate.
  exact (IH b c Hab Hbc).
Qed.

Lemma str_min_le (m y : string) :
  str_le (str_min m y) m /\ str_le (str_min m y) y
  /\ (str_min m y = m \/ str_min m y = y).
Proof.
  unfold str_min. destruct (String.ltb y m) eqn:L.
  - split; [ apply ltb_leb; exact L | ]. split; [ apply str_le_refl | auto ].
  - split; [ apply str_le_refl | ]. split; [ apply not_ltb_leb; exact L | auto ].
Qed.

Lemma str_max_ge (m y : string) :
  str_le m (str_max m y) /\ str_le y (str_max m y)
  /\ (str_max m y = m \/ str_max m y = y).
Proof.
  unfold str_max. destruct (String.ltb m y) eqn:L.
  - split; [ apply ltb_leb; exact L | ]. split; [ apply str_le_refl | auto ].
  - split; [ apply str_le_refl | ]. split; [ apply not_ltb_leb; exact L | auto ].
Qed.

(** The fold of [min] returns an entry that is below every entry. *)
Lemma fold_str_min (rest : list string) :
  forall x,
    In (fold_left str_min rest x) (x :: rest)
    /\ Forall (str_le (fold_left str_min rest x)) (x :: rest).
Proof.
  induction rest as [ | y rest IH]; intros x; cbn [fold_left].
  - split; [ left; reflexivity | ].
    constructor; [ apply str_le_refl | constructor ].
  - destruct (IH (str_min x y)) as [Hin Hall].
    destruct (str_min_le x y) as (Lx & Ly & Hc).
    inversion Hall as [ | ? ? Hm Hrest]; subst.
    split.
    + destruct Hin as [E | Hin]; [ | right; right; exact Hin ].
      rewrite <- E. destruct Hc as [-> | ->]; [ left | right; left ]; reflexivity.
    + constructor; [ eapply str_le_trans; eassumption | ].
      constructor; [ eapply str_le_trans; eassumption | exact Hrest ].
Qed.

Lemma fold_str_max (rest : list string) :
  forall x,
    In (fold_left str_max rest x) (x :: rest)
    /\ Forall (fun s => str_le s (fold_left str_max rest x)) (x :: rest).
Proof.
  induction rest as [ | y rest IH]; intros x; cbn [fold_left].
  - split; [ left; reflexivity | ].
    constructor; [ apply str_le_refl | constructor ].
  - destruct (IH (str_max x y)) as [Hin Hall].
    destruct (str_max_ge x y) as (Lx & Ly & Hc).
    inversion Hall as [ | ? ? Hm Hrest]; subst.
    split.
    + destruct Hin as [E | Hin]; [ | right; right; exact Hin ].
      rewrite <- E. destruct Hc as [-> | ->]; [ left | right; left ]; reflexivity.
    + constructor; [ eapply str_le_trans; eassumption | ].
      constructor; [ eapply str_le_trans; eassumption | exact Hrest ].
Qed.

Lemma str_le_antisym (a b : string) : str_le a b -> str_le b a -> a = b.
Proof. exact (String.leb_antisym a b). Qed.

(** In an ascending column the least entry is the first and the greatest
    the last. *)
Lemma series_min_sorted (x : string) (rest : list string) :
  Sorted str_le (x :: rest) -> series_min (x :: rest) = Some x.
Proof.
  intros S. cbn [series_min]. f_equal.
  apply Sorted_StronglySorted in S;
    [ | intros a b c; apply str_le_trans ].
  inversion S as [ | ? ? _ Hall]; subst.
  destruct (fold_str_min rest x) as [Hin Hmin].
  inversion Hmin as [ | ? ? Hx _]; subst.
  destruct Hin as [E | Hin]; [ symmetry; exact E | ].
  apply str_le_antisym; [ exact Hx | ].
  rewrite Forall_forall in Hall. apply Hall. exact Hin.
Qed.

Lemma series_max_sorted (col : list string) (x : string) :
  Sorted str_le (col ++ [x]) -> series_max (col ++ [x]) = Some x.
Proof.
  intros S.
  apply Sorted_StronglySorted in S;
    [ | intros a b c; apply str_le_trans ].
  assert (Hall : Forall (fun s => str_le s x) (col ++ [x])).
  { clear - S. induction col as [ | y col IH]; cbn [app] in *.
    - constructor; [ apply str_le_refl | constructor ].
    - inversion S as [ | ? ? S' Hy]; subst.
      constructor; [ | apply IH; exact S' ].
      rewrite Forall_forall in Hy. apply Hy. apply in_or_app. right.
      left. reflexivity. }
  destruct (col ++ [x]) as [ | y rest] eqn:E;
    [ destruct col; discriminate | ].
  cbn [series_max]. f_equal.
  destruct (fold_str_max rest y) as [Hin Hmax].
  apply str_le_antisym.
  - rewrite Forall_forall in Hall. apply Hall. exact Hin.
  - rewrite Forall_forall in Hmax. apply Hmax. rewrite <- E.
    apply in_or_app. right. left. reflexivity.
Qed.

Lemma pd_unique_In (col : list string) (v : string) :
  In v (pd_unique col) <-> In v col.
Proof.
  induction col as [ | x col IH]; cbn [pd_unique In]; [ reflexivity | ].
  rewrite filter_In, IH. split.
  - intros [E | [H _]]; auto.
  - intros [E | H]; [ auto | ].
    destruct (String.eqb_spec v x) as [-> | Hne]; [ auto | ].
    right. split; [ exact H | reflexivity ].
Qed.

Lemma pd_unique_NoDup (col : list string) : NoDup (pd_unique col).
Proof.
  induction col as [ | x col IH]; cbn [pd_unique]; constructor.
  - rewrite filter_In. intros [_ H].
    rewrite String.eqb_refl in H. discriminate.
  - apply NoDup_filter. exact IH.
Qed.

Lemma count_str_pos (v : string) (col : list string) :
  In v col -> (1 <= count_str v col)%nat.
Proof.
  induction col as [ | x col IH]; cbn [In count_str]; [ contradiction | ].
  intros [-> | H]; [ rewrite String.eqb_refl; lia | ].
  specialize (IH H). lia.
Qed.

Lemma list_sum_cons (x : nat) (l : list nat) :
  list_sum (x :: l) = (x + list_sum l)%nat.
Proof. reflexivity. Qed.

Lemma list_sum_indicator (x : string) (l : list string) :
  NoDup l -> In x l ->
  list_sum (map (fun v => if String.eqb x v then 1 else 0)%nat l) = 1%nat.
Proof.
  induction 1 as [ | y l Hnin Hnd IH]; cbn [In map];
    [ contradiction | ]. rewrite list_sum_cons.
  assert (Z0 : forall l', ~ In x l' ->
                          list_sum (map (fun v => if String.eqb x v then 1 else 0)%nat l')
                          = O).
  { clear. induction l' as [ | z l' IH]; cbn [In map]; [ reflexivity | ].
    rewrite list_sum_cons.
    intros H. destruct (String.eqb_spec x z) as [-> | _];
      [ exfalso; apply H; left; reflexivity | ].
    apply IH. intros H'. apply H. right. exact H'. }
  intros [-> | H].
  - rewrite String.eqb_refl, (Z0 l Hnin). reflexivity.
  - destruct (String.eqb_spec x y) as [-> | _]; [ contradiction | ].
    rewrite (IH H). reflexivity.
Qed.

(** Over a list without repetition that holds every value of the column,
    the counts add up to the length of the column. *)
Lemma count_str_sum (l col : list string) :
  NoDup l -> (forall x, In x col -> In x l) ->
  list_sum (map (fun v => count_str v col) l) = List.length col.
Proof.
  intros Hnd. induction col as [ | x col IH]; intros Hin.
  - cbn [count_str List.length]. clear. induction l; cbn; auto.
  - assert (E : forall l',
               list_sum (map (fun v => count_str v (x :: col)) l')
               = (list_sum (map (fun v => if String.eqb x v then 1 else 0) l')
                  + list_sum (map (fun v => count_str v col) l'))%nat).
    { clear. induction l' as [ | z l' IH]; cbn [map]; [ reflexivity | ].
      rewrite !list_sum_cons, IH. cbn [count_str]. lia. }
    rewrite E, list_sum_indicator, IH; cbn [List.length]; auto.
    + intros y Hy. apply Hin. right. exact Hy.
    + apply Hin. left. reflexivity.
Qed.

Lemma list_sum_Permutation (a b : list nat) :
  Permutation a b -> list_sum a = list_sum b.
Proof. induction 1; rewrite ?list_sum_cons; lia. Qed.

(** The insertion sort of the counts meets the contract. *)
Lemma insert_count_Permutation (x : string * nat) (l : list (string * nat)) :
  Permutation (insert_count x l) (x :: l).
Proof.
  induction l as [ | y l IH]; cbn [insert_count]; [ reflexivity | ].
  destruct (snd y <=? snd x)%nat; [ reflexivity | ].
  rewrite IH. apply perm_swap.
Qed.

Lemma insert_count_Sorted (x : string * nat) (l : list (string * nat)) :
  Sorted count_ge l -> Sorted count_ge (insert_count x l).
Proof.
  induction l as [ | y l IH]; intros S; cbn [insert_count].
  - constructor; constructor.
  - destruct (snd y <=? snd x)%nat eqn:L.
    + apply Nat.leb_le in L. constructor; [ exact S | ].
      constructor. exact L.
    + apply Nat.leb_gt in L. inversion S as [ | ? ? S' Hhd]; subst.
      constructor; [ apply IH; exact S' | ].
      destruct l as [ | z l]; cbn [insert_count].
      * constructor. unfold count_ge. lia.
      * destruct (snd z <=? snd x)%nat.
        -- constructor. unfold count_ge. lia.
        -- constructor. inversion Hhd; subst. assumption.
Qed.

Lemma sort_counts_insertion_contract : sort_counts_contract sort_counts_insertion.
Proof.
  intros items. split.
  - induction items as [ | x items IH]; cbn [sort_counts_insertion];
      [ reflexivity | ].
    rewrite insert_count_Permutation. constructor. exact IH.
  - induction items as [ | x items IH]; cbn [sort_counts_insertion];
      [ constructor | ].
    apply insert_count_Sorted. exact IH.
Qed.

(** What [value_counts] lists, for a column whose values are among
    [allowed]. *)
Lemma value_counts_counts_of
      (sort_counts : list (string * nat) -> list (string * nat))
      (col allowed : list string) :
  sort_counts_contract sort_counts ->
  (forall v, In v col -> In v allowed) ->
  counts_of col allowed (value_counts sort_counts col).
Proof.
  intros Hsort Hallowed. unfold value_counts.
  set (items := map (fun v => (v, count_str v col)) (pd_unique col)).
  destruct (Hsort items) as [Hperm Hsorted].
  assert (Hfst : map fst items = pd_unique col).
  { unfold items. rewrite map_map. cbn [fst]. apply map_id. }
  assert (Hsnd : map snd items = map (fun v => count_str v col) (pd_unique col)).
  { unfold items. rewrite map_map. reflexivity. }
  assert (Pfst : Permutation (map fst (sort_counts items)) (pd_unique col))
    by (rewrite <- Hfst; apply Permutation_map; exact Hperm).
  unfold counts_of. split; [ | split; [ | split; [ | split; [ | split ] ] ] ].
  - eapply Permutation_NoDup; [ symmetry; exact Pfst | apply pd_unique_NoDup ].
  - intros v. rewrite <- (pd_unique_In col v). split; intros H.
    + eapply Permutation_in; [ exact Pfst | exact H ].
    + eapply Permutation_in; [ symmetry; exact Pfst | exact H ].
  - apply Forall_forall. intros p Hp.
    apply (Permutation_in _ Hperm) in Hp. unfold items in Hp.
    apply in_map_iff in Hp. destruct Hp as (v & <- & Hv). cbn [fst snd].
    apply (proj1 (pd_unique_In col v)) in Hv.
    split; [ apply Hallowed; exact Hv | ].
    split; [ apply count_str_pos; exact Hv | reflexivity ].
  - rewrite (list_sum_Permutation _ _ (Permutation_map snd Hperm)), Hsnd.
    apply count_str_sum; [ apply pd_unique_NoDup | ].
    intros x Hx. apply pd_unique_In. exact Hx.
  - rewrite <- (length_map fst). rewrite (Permutation_length Pfst).
    apply NoDup_incl_length; [ apply pd_unique_NoDup | ].
    intros v Hv. apply Hallowed, pd_unique_In. exact Hv.
  - exact Hsorted.
Qed.

(** The timestamps of a batch ascend, with a sort that meets its
    contract. *)
Lemma batch_sorted (cfg : Config) (argsort : list string -> list nat)
      (n : Z) (w : World) (df : DataFrame) (w' : World) :
  argsort_contract argsort ->
  generer_batch_transactions cfg argsort n w = Ok (df, w') ->
  Sorted str_le (map timestamp df) /\ List.length df = Z.to_nat n /\ df <> [].
Proof.
  intros Hsort Hrun. apply generer_batch_transactions_Ok in Hrun.
  destruct Hrun as (records & _ & Hlen & Hne & _ & -> & _).
  destruct (Hsort (map timestamp (pd_DataFrame records))) as [Hperm Hsorted].
  rewrite length_map in Hperm.
  assert (L : List.length (take (pd_DataFrame records)
                                (argsort (map timestamp (pd_DataFrame records))))
              = Z.to_nat n).
  { rewrite (Permutation_length (take_Permutation _ _ Hperm)).
    rewrite pd_DataFrame_length. exact Hlen. }
  split; [ rewrite take_map; exact Hsorted | ]. split; [ exact L | ].
  intros E. rewrite E in L. cbn [List.length] in L.
  destruct records; [ congruence | ]. cbn [List.length] in Hlen. lia.
Qed.

(** As texts, the timestamps of a batch lie between the two ends of the
    window. *)
Lemma batch_timestamps_in_window
      (cfg : Config) (argsort : list string -> list nat)
      (n : Z) (w : World) (df : DataFrame) (w' : World) :
  generer_batch_transactions cfg argsort n w = Ok (df, w') ->
  let window_start := local_now (tape_hd (clock w)) - timedelta_days 7 in
  Forall (fun r =>
            str_le (strftime window_start) (timestamp r)
            /\ str_le (timestamp r)
                      (strftime (window_start + timedelta_days 7))) df.
Proof.
  intros Hrun window_start.
  destruct (batch_offsets _ _ _ _ _ _ Hrun) as (Hws & Hwe & _).
  fold window_start in Hws, Hwe.
  apply batch_rows in Hrun. fold window_start in Hrun.
  eapply Forall_impl; [ | exact Hrun ].
  intros r (g & (g0 & k & _ & Hk & Hr & ->) & Hrow).
  rewrite (row_of_timestamp _ _ Hrow). cbn [timestamp set_timestamp].
  assert (Hin : window_start <= window_start + timedelta_hours k
                <= window_start + timedelta_days 7)
    by (unfold timedelta_hours, timedelta_days, US_PER_DAY, US_PER_HOUR,
          US_PER_SECOND; lia).
  split; apply strftime_le_iff; try assumption;
    apply Z.div_le_mono; try reflexivity; lia.
Qed.

Lemma series_of_sorted (col : list string) :
  Sorted str_le col -> col <> [] ->
  exists first last rest front,
    series_min col = Some first /\ series_max col = Some last
    /\ col = first :: rest /\ col = front ++ [last]
    /\ Forall (fun s => str_le first s /\ str_le s last) col.
Proof.
  intros S Hne.
  destruct col as [ | x rest] eqn:E; [ congruence | ]. rewrite <- E in *.
  destruct (exists_last Hne) as (front & last & El).
  exists x, last, rest, front.
  assert (Hmin : series_min col = Some x)
    by (rewrite E; apply series_min_sorted; rewrite <- E; exact S).
  assert (Hmax : series_max col = Some last)
    by (rewrite El; apply series_max_sorted; rewrite <- El; exact S).
  split; [ exact Hmin | ]. split; [ exact Hmax | ].
  split; [ exact E | ]. split; [ exact El | ].
  rewrite E in Hmin. cbn [series_min] in Hmin. injection Hmin as Hmin.
  destruct (fold_str_min rest x) as [_ Fmin]. rewrite Hmin, <- E in Fmin.
  assert (Fmax : Forall (fun s => str_le s last) col).
  { rewrite E in Hmax. cbn [series_max] in Hmax. injection Hmax as Hmax.
    destruct (fold_str_max rest x) as [_ F]. rewrite Hmax, <- E in F. exact F. }
  rewrite Forall_forall in *. intros s Hs. split; auto.
Qed.

Lemma afficher_statistiques_Ok
      (sort_counts : list (string * nat) -> list (string * nat))
      (df : DataFrame) (first last : string) :
  series_min (map timestamp df) = Some first ->
  series_max (map timestamp df) = Some last ->
  afficher_statistiques sort_counts df
  = Ok (mkStatistiques (List.length df) first last
                       (value_counts sort_counts (map city df))
                       (value_counts sort_counts (map transaction_type df))
                       (value_counts sort_counts (map operator df))).
Proof. intros H1 H2. unfold afficher_statistiques. rewrite H1, H2. reflexivity. Qed.

(** X11.  Whatever the two seeded streams and the two sorts, with an
    indirect sort that meets its contract and a clock whose readings are
    representable, the script generates its 10000 transactions without
    raising, shows statistics of 10000 transactions and hands to [to_csv] a
    text of 10001 lines, each ended by a line feed: the header, then one
    line per transaction, every line of eight fields, none of them quoted.
    The console and the file system are not part of the model. *)
Theorem main_writes_dataset
        (np_seed : Z -> tape Z * tape spec_float) (py_seed : Z -> tape Z)
        (argsort : list string -> list nat)
        (sort_counts : list (string * nat) -> list (string * nat))
        (clk : tape ClockReading)
        (Hsort : argsort_contract argsort)
        (Hclock : clock_ok (boot np_seed py_seed clk)) :
  exists st csv,
    main np_seed py_seed argsort sort_counts clk = Ok (st, csv)
    /\ Z.of_nat (nb_transactions st) = 10000
    /\ nth_error (text_lines csv) 0 = Some csv_header
    /\ Z.of_nat (List.length (text_lines csv)) = 10001
    /\ Forall (fun line =>
                 List.length (split_on "," line) = 8%nat
                 /\ count_char "," line = 7%nat
                 /\ count_char QUOTE line = O
                 /\ count_char CR line = O) (text_lines csv)
    /\ Z.of_nat (count_char LF csv) = 10001
    /\ Z.of_nat (count_char "," csv) = 70007
    /\ count_char QUOTE csv = O
    /\ count_char CR csv = O.
Proof.
  assert (Hn : 1 <= 10000) by lia.
  destruct (batch_returns CONFIG argsort 10000 (boot np_seed py_seed clk)
                          CONFIG_ok Hsort Hn Hclock)
    as (df & w' & E & Hlen).
  pose proof (batch_rows_plain _ _ _ _ _ _ CONFIG_plain E) as P.
  destruct (to_csv_counts df P) as (C1 & C2 & C3 & C4).
  destruct (to_csv_lines df P) as (L1 & L2 & L3).
  assert (Hst : exists first last,
             series_min (map timestamp df) = Some first
             /\ series_max (map timestamp df) = Some last).
  { destruct df as [ | r df]; [ cbn [List.length] in Hlen; lia | ].
    cbn [map series_min series_max]. eexists. eexists. split; reflexivity. }
  destruct Hst as (first & last & Hmin & Hmax).
  eexists. exists (to_csv df). unfold main. rewrite E.
  rewrite (afficher_statistiques_Ok sort_counts df first last Hmin Hmax).
  split; [ reflexivity | ].
  cbn [nb_transactions]. rewrite C1, C2, L2, Hlen.
  repeat match goal with |- _ /\ _ => split end; try assumption; lia.
Qed.

Lemma main_writes_dataset_witness :
  exists st csv,
    main sample_np_seed sample_py_seed argsort_stable sort_counts_insertion
         sample_clock = Ok (st, csv)
    /\ Z.of_nat (nb_transactions st) = 10000
    /\ nth_error (text_lines csv) 0 = Some csv_header
    /\ Z.of_nat (List.length (text_lines csv)) = 10001
    /\ Forall (fun line =>
                 List.length (split_on "," line) = 8%nat
                 /\ count_char "," line = 7%nat
                 /\ count_char QUOTE line = O
                 /\ count_char CR line = O) (text_lines csv)
    /\ Z.of_nat (count_char LF csv) = 10001
    /\ Z.of_nat (count_char "," csv) = 70007
    /\ count_char QUOTE csv = O
    /\ count_char CR csv = O.
Proof.
  apply (main_writes_dataset sample_np_seed sample_py_seed argsort_stable
                             sort_counts_insertion sample_clock).
  - exact argsort_stable_contract.
  - exact sample_world_clock_ok.
Defined.

(** X12.  On the frame of a batch [afficher_statistiques] does not raise.
    The number of transactions it prints is the count asked for; the period
    it prints runs from the timestamp of the first row to that of the last
    row; every timestamp lies between the two, and the two lie between the
    texts of the two ends of the seven-day window. *)
Theorem statistics_period
        (cfg : Config) (argsort : list string -> list nat)
        (sort_counts : list (string * nat) -> list (string * nat))
        (n : Z) (w : World) (df : DataFrame) (w' : World)
        (Hsort : argsort_contract argsort)
        (Hrun : generer_batch_transactions cfg argsort n w = Ok (df, w')) :
  let window_start := local_now (tape_hd (clock w)) - timedelta_days 7 in
  exists st rest front,
    afficher_statistiques sort_counts df = Ok st
    /\ nb_transactions st = Z.to_nat n
    /\ map timestamp df = periode_debut st :: rest
    /\ map timestamp df = front ++ [periode_fin st]
    /\ Forall (fun r => str_le (periode_debut st) (timestamp r)
                        /\ str_le (timestamp r) (periode_fin st)) df
    /\ str_le (strftime window_start) (periode_debut st)
    /\ str_le (periode_fin st) (strftime (window_start + timedelta_days 7)).
Proof.
  intros window_start.
  destruct (batch_sorted _ _ _ _ _ _ Hsort Hrun) as (S & Hlen & Hne).
  pose proof (batch_timestamps_in_window _ _ _ _ _ _ Hrun) as W.
  fold window_start in W. cbv zeta in W.
  assert (Hne' : map timestamp df <> [])
    by (destruct df; [ congruence | discriminate ]).
  destruct (series_of_sorted _ S Hne')
    as (first & last & rest & front & Hmin & Hmax & E1 & E2 & F).
  eexists. exists rest, front.
  split; [ apply afficher_statistiques_Ok; eassumption | ].
  cbn [nb_transactions periode_debut periode_fin].
  split; [ exact Hlen | ]. split; [ exact E1 | ]. split; [ exact E2 | ].
  assert (Hin : forall s, In s (map timestamp df) ->
                          str_le (strftime window_start) s
                          /\ str_le s (strftime (window_start + timedelta_days 7))).
  { intros s Hs. apply in_map_iff in Hs. destruct Hs as (r & <- & Hr).
    rewrite Forall_forall in W. exact (W r Hr). }
  split; [ | split ].
  - rewrite Forall_forall in F. apply Forall_forall. intros r Hr.
    apply F. apply in_map. exact Hr.
  - apply Hin. rewrite E1. left. reflexivity.
  - apply Hin. rewrite E2. apply in_or_app. right. left. reflexivity.
Qed.

Lemma statistics_period_witness :
  exists df w',
    generer_batch_transactions CONFIG argsort_stable 6 sample_world = Ok (df, w')
    /\ exists st rest front,
        afficher_statistiques sort_counts_insertion df = Ok st
        /\ nb_transactions st = Z.to_nat 6
        /\ map timestamp df = periode_debut st :: rest
        /\ map timestamp df = front ++ [periode_fin st]
        /\ Forall (fun r => str_le (periode_debut st) (timestamp r)
                            /\ str_le (timestamp r) (periode_fin st)) df
        /\ str_le (strftime (sample_now - timedelta_days 7)) (periode_debut st)
        /\ str_le (periode_fin st)
                  (strftime (sample_now - timedelta_days 7 + timedelta_days 7)).
Proof.
  assert (H : is_Ok (generer_batch_transactions CONFIG argsort_stable 6 sample_world)
              = true) by (vm_compute; reflexivity).
  destruct (is_Ok_true _ H) as [[df w'] E].
  exists df, w'. split; [ exact E | ].
  exact (statistics_period CONFIG argsort_stable sort_counts_insertion 6
                           sample_world df w' argsort_stable_contract E).
Defined.

(** X13.  On the frame of a batch, each of the three tables of counts that
    [afficher_statistiques] prints (by city, by type, by operator) lists
    every value that occurs in the column exactly once, with the number of
    its rows, which is one or more: a value of the configuration that was
    never drawn is not listed.  The values are among those of the
    configuration, so that a table has no more lines than the configuration
    has values; the counts add up to the number of rows and descend. *)
Theorem statistics_counts
        (cfg : Config) (argsort : list string -> list nat)
        (sort_counts : list (string * nat) -> list (string * nat))
        (n : Z) (w : World) (df : DataFrame) (w' : World)
        (Hsort : argsort_contract argsort)
        (Hcounts : sort_counts_contract sort_counts)
        (Hrun : generer_batch_transactions cfg argsort n w = Ok (df, w')) :
  exists st,
    afficher_statistiques sort_counts df = Ok st
    /\ counts_of (map city df) (VILLES cfg) (par_ville st)
    /\ counts_of (map transaction_type df) (map fst (TRANSACTION_TYPES cfg))
                 (par_type st)
    /\ counts_of (map operator df) (OPERATEURS cfg) (par_operateur st).
Proof.
  destruct (batch_sorted _ _ _ _ _ _ Hsort Hrun) as (S & _ & Hne).
  assert (Hne' : map timestamp df <> [])
    by (destruct df; [ congruence | discriminate ]).
  destruct (series_of_sorted _ S Hne')
    as (first & last & rest & front & Hmin & Hmax & _).
  pose proof (batch_fields _ _ _ _ _ _ Hrun) as F.
  rewrite Forall_forall in F.
  eexists. split; [ apply afficher_statistiques_Ok; eassumption | ].
  cbn [par_ville par_type par_operateur].
  split; [ | split ]; apply value_counts_counts_of; try exact Hcounts;
    intros v Hv; apply in_map_iff in Hv; destruct Hv as (r & <- & Hr);
    apply (F r Hr).
Qed.

Lemma statistics_counts_witness :
  exists df w',
    generer_batch_transactions CONFIG argsort_stable 6 sample_world = Ok (df, w')
    /\ exists st,
        afficher_statistiques sort_counts_insertion df = Ok st
        /\ counts_of (map city df) (VILLES CONFIG) (par_ville st)
        /\ counts_of (map transaction_type df)
                     (map fst (TRANSACTION_TYPES CONFIG)) (par_type st)
        /\ counts_of (map operator df) (OPERATEURS CONFIG) (par_operateur st).
Proof.
  assert (H : is_Ok (generer_batch_transactions CONFIG argsort_stable 6 sample_world)
              = true) by (vm_compute; reflexivity).
  destruct (is_Ok_true _ H) as [[df w'] E].
  exists df, w'. split; [ exact E | ].
  exact (statistics_counts CONFIG argsort_stable sort_counts_insertion 6
                           sample_world df w' argsort_stable_contract
                           sort_counts_insertion_contract E).
Defined.

(** ** What a batch can raise *)

Lemma bind_Err {A B : Type} (c : M A) (k : A -> M B) (w : World) (e : PyError) :
  bind c k w = Err e ->
  c w = Err e \/ exists a w1, c w = Ok (a, w1) /\ k a w1 = Err e.
Proof.
  unfold bind. destruct (c w) as [[a w1] | e']; intros H.
  - right. exists a, w1. auto.
  - left. injection H as <-. reflexivity.
Qed.

Ltac err_step H :=
  let a := fresh "a" in
  let w := fresh "w" in
  let Hc := fresh "Hc" in
  apply bind_Err in H; destruct H as [H | (a & w & Hc & H)].

Lemma random_randint_no_Err (a b : Z) (w : World) (e : PyError) :
  a <= b -> random_randint a b w <> Err e.
Proof.
  intros Hab. unfold random_randint.
  replace (0 <? b + 1 - a) with true by (symmetry; apply Z.ltb_lt; lia).
  discriminate.
Qed.

Lemma random_choice_no_Err {A : Type} (items : list A) (w : World) (e : PyError) :
  items <> [] -> random_choice items w <> Err e.
Proof. destruct items; [ congruence | discriminate ]. Qed.

Lemma generer_user_id_no_Err (w : World) (e : PyError) : generer_user_id w <> Err e.
Proof.
  unfold generer_user_id. intros H. err_step H.
  - revert H. apply random_choice_no_Err. discriminate.
  - err_step H; [ | discriminate H ].
    revert H. apply random_randint_no_Err. lia.
Qed.

Lemma generer_montant_no_Err (cfg : Config) (ty : string) (w : World) (e : PyError) :
  has_range cfg ty = true -> generer_montant cfg ty w <> Err e.
Proof.
  intros H. apply has_range_bounds in H.
  destruct H as (min_val & max_val & E & Hmin & Hmax).
  unfold generer_montant. rewrite E. unfold bind, lift.
  rewrite int_true_divide_small by lia. rewrite int_add_float_small by lia.
  discriminate.
Qed.

Lemma datetime_now_Err (w : World) (e : PyError) :
  datetime_now w = Err e -> e = ValueError "year is out of range".
Proof.
  unfold datetime_now. destruct (datetime_in_range _); [ discriminate | ].
  intros H. injection H as <-. reflexivity.
Qed.

Lemma datetime_add_Err (t : datetime) (d : timedelta) (w : World) (e : PyError) :
  lift (datetime_add t d) w = Err e -> e = OverflowError "date value out of range".
Proof.
  unfold lift, datetime_add. destruct (datetime_in_range _); [ discriminate | ].
  intros H. injection H as <-. reflexivity.
Qed.

(** Under a configuration that is enough, a record fails to be generated
    only when its clock reading is not representable. *)
Lemma generer_transaction_Err (cfg : Config) (w : World) (e : PyError) :
  config_ok cfg = true ->
  generer_transaction cfg w = Err e -> e = ValueError "year is out of range".
Proof.
  intros Hcfg H. apply config_ok_parts in Hcfg.
  destruct Hcfg as (Hw & Hr & Hv & Ho).
  unfold generer_transaction in H.
  err_step H.
  { destruct (np_random_choice_accepts (TRANSACTION_TYPES cfg) w Hw) as [x E].
    rewrite E in H. discriminate. }
  apply np_random_choice_Ok in Hc.
  err_step H; [ exfalso; revert H; apply generer_montant_no_Err, Hr, Hc | ].
  err_step H; [ exfalso; revert H; apply random_choice_no_Err, Hv | ].
  err_step H; [ exfalso; revert H; apply random_choice_no_Err, Ho | ].
  err_step H; [ exfalso; revert H; apply generer_user_id_no_Err | ].
  err_step H; [ apply datetime_now_Err in H; exact H | ].
  err_step H; [ discriminate H | ].
  err_step H; [ exfalso; revert H; apply random_randint_no_Err; lia | ].
  discriminate H.
Qed.

Lemma generer_loop_Err (cfg : Config) (base : datetime) (count : nat) :
  config_ok cfg = true ->
  forall acc w e,
    generer_loop cfg base count acc w = Err e ->
    e = ValueError "year is out of range"
    \/ e = OverflowError "date value out of range".
Proof.
  intros Hcfg. induction count as [ | count IH]; intros acc w e H;
    cbn [generer_loop] in H; [ discriminate H | ].
  err_step H; [ left; eapply generer_transaction_Err; eassumption | ].
  err_step H; [ exfalso; revert H; apply random_randint_no_Err; lia | ].
  err_step H; [ right; eapply datetime_add_Err; exact H | ].
  eapply IH. exact H.
Qed.

(** X14.  Under a configuration that is enough (accepted weights; for
    every type that has a weight, bounds of absolute value at most [2^53],
    so that the argument of the logarithm fits a float; a city and an
    operator), a batch raises nothing but: the [ValueError] of a clock
    reading that is no representable date-time, the [OverflowError] of a
    date that leaves the representable years, and, for a count of zero or
    less, the [KeyError] of the missing sort key.  No draw of the
    generators makes it raise.  The console is not part of the model: what
    a [print] raises on a stream that cannot encode its text is outside
    this list. *)
Theorem batch_failures
        (cfg : Config) (argsort : list string -> list nat) (n : Z)
        (w : World) (e : PyError)
        (Hcfg : config_ok cfg = true)
        (Hfail : generer_batch_transactions cfg argsort n w = Err e) :
  e = ValueError "year is out of range"
  \/ e = OverflowError "date value out of range"
  \/ (e = KeyError "timestamp" /\ n <= 0).
Proof.
  pose proof Hfail as H. unfold generer_batch_transactions in H.
  err_step H; [ left; apply datetime_now_Err in H; exact H | ].
  err_step H; [ right; left; eapply datetime_add_Err; exact H | ].
  err_step H.
  { destruct (generer_loop_Err _ _ _ Hcfg _ _ _ H) as [-> | ->]; auto. }
  right; right.
  apply generer_loop_Ok in Hc1. destruct Hc1 as (l' & -> & Hlen & _).
  cbn [app] in H. unfold lift, sort_values_timestamp in H.
  destruct (pd_DataFrame l') as [ | r rows] eqn:Hf; [ | discriminate H ].
  injection H as <-. split; [ reflexivity | ].
  apply (f_equal (@List.length _)) in Hf. rewrite pd_DataFrame_length in Hf.
  cbn [List.length] in Hf. lia.
Qed.

Lemma batch_failures_witness :
  generer_batch_transactions CONFIG argsort_stable 6 early_clock_world
  = Err (OverflowError "date value out of range")
  /\ (OverflowError "date value out of range"
      = ValueError "year is out of range"
      \/ OverflowError "date value out of range"
         = OverflowError "date value out of range"
      \/ (OverflowError "date value out of range" = KeyError "timestamp"
          /\ 6 <= 0)).
Proof.
  assert (E : generer_batch_transactions CONFIG argsort_stable 6 early_clock_world
              = Err (OverflowError "date value out of range"))
    by (vm_compute; reflexivity).
  split; [ exact E | ].
  apply (batch_failures CONFIG argsort_stable 6 early_clock_world).
  - vm_compute. reflexivity.
  - exact E.
Defined.

(** ** The kind of the amounts *)

Lemma is_float_to_float (x : PyNum) : is_float (to_float x) = true.
Proof. destruct x as [[ | p | p] | f]; reflexivity. Qed.

(** X15.  The amounts of a frame are of one kind.  Either every amount is
    a [float], or every amount is an [int]; and an [int] amount is one of
    the two bounds of its type, as a draw that is not clamped stays a
    [float]: the column is of integers only when every draw was
    clamped. *)
Theorem amount_column_kind
        (cfg : Config) (argsort : list string -> list nat) (n : Z) (w : World)
        (df : DataFrame) (w' : World)
        (Hrun : generer_batch_transactions cfg argsort n w = Ok (df, w')) :
  Forall (fun r => is_float (amount r) = true) df
  \/ Forall (fun r =>
               exists min_val max_val,
                 dict_get (MONTANT_RANGES cfg) (transaction_type r)
                 = Some (min_val, max_val)
                 /\ (amount r = PyInt min_val \/ amount r = PyInt max_val)) df.
Proof.
  apply generer_batch_transactions_Ok in Hrun.
  destruct Hrun as (records & _ & _ & _ & Hall & -> & _).
  unfold pd_DataFrame.
  destruct (existsb (fun t => is_float (amount t)) records) eqn:Ex.
  - left. apply Forall_forall. intros r Hr. apply take_In in Hr.
    apply in_map_iff in Hr. destruct Hr as (g & <- & _).
    cbn [amount upcast_amount]. apply is_float_to_float.
  - right. apply Forall_forall. intros r Hr. apply take_In in Hr.
    assert (Hf : is_float (amount r) = false).
    { destruct (is_float (amount r)) eqn:F; [ | reflexivity ].
      rewrite <- Ex. symmetry. apply existsb_exists. exists r. auto. }
    rewrite Forall_forall in Hall.
    destruct (Hall r Hr) as (g & k & Hgen & _ & _ & ->).
    cbn [amount transaction_type set_timestamp] in *.
    destruct (gen_amount _ _ Hgen) as (min_val & max_val & montant & Hget & Ham).
    exists min_val, max_val. split; [ exact Hget | ].
    destruct (clamp_montant_cases min_val max_val montant)
      as [E | [E | (z & _ & E & _)]]; rewrite Ham, E in *; auto.
    discriminate Hf.
Qed.

Lemma amount_column_kind_witness :
  exists df w',
    generer_batch_transactions CONFIG argsort_stable 6 sample_world = Ok (df, w')
    /\ (Forall (fun r => is_float (amount r) = true) df
        \/ Forall (fun r =>
                     exists min_val max_val,
                       dict_get (MONTANT_RANGES CONFIG) (transaction_type r)
                       = Some (min_val, max_val)
                       /\ (amount r = PyInt min_val \/ amount r = PyInt max_val))
                  df).
Proof.
  assert (H : is_Ok (generer_batch_transactions CONFIG argsort_stable 6 sample_world)
              = true) by (vm_compute; reflexivity).
  destruct (is_Ok_true _ H) as [[df w'] E].
  exists df, w'. split; [ exact E | ].
  exact (amount_column_kind CONFIG argsort_stable 6 sample_world df w' E).
Defined.

(** ** Weights *)

Lemma below_mono (t u a x : Q) :
  (0 < t)%Q -> (0 <= x)%Q -> below t u a = false -> below t u (a + x) = false.
Proof.
  unfold below. intros t_pos Hx Ha.
  destruct (Qle_bool ((a + x) / t) u) eqn:L; [ exfalso | reflexivity ].
  apply Qle_bool_iff in L.
  assert (Ha' : ~ (a / t <= u)%Q)
    by (intros C; apply Qle_bool_iff in C; congruence).
  apply Ha'. eapply Qle_trans; [ | exact L ].
  unfold Qdiv. apply Qmult_le_compat_r.
  - rewrite <- (Qplus_0_r a) at 1. apply Qplus_le_r. exact Hx.
  - apply Qlt_le_weak, Qinv_lt_0_compat. exact t_pos.
Qed.

Lemma none_below (t u : Q) (p : list Q) :
  (0 < t)%Q ->
  forall acc,
    Forall (fun x => (0 <= x)%Q) p -> below t u acc = false ->
    filter (below t u) (cumsum acc p) = [].
Proof.
  intros t_pos.
  induction p as [ | x p IH]; intros acc Hp Ha; cbn [cumsum filter];
    [ reflexivity | ].
  inversion Hp as [ | ? ? Hx Hp']; subst.
  rewrite (below_mono t u acc x t_pos Hx Ha). apply IH; [ exact Hp' | ].
  apply below_mono; assumption.
Qed.

(** The entry that the search finds has a positive weight. *)
Lemma found_positive (t u : Q) (p : list Q) :
  (0 < t)%Q ->
  forall acc v,
    Forall (fun x => (0 <= x)%Q) p -> below t u acc = true ->
    nth_error p (List.length (filter (below t u) (cumsum acc p))) = Some v ->
    (0 < v)%Q.
Proof.
  intros t_pos.
  induction p as [ | x p IH]; intros acc v Hp Ha; cbn [cumsum filter].
  - discriminate.
  - inversion Hp as [ | ? ? Hx Hp']; subst.
    destruct (below t u (acc + x)) eqn:B; cbn [List.length nth_error].
    + apply IH; assumption.
    + rewrite none_below by assumption. cbn [List.length nth_error].
      intros E. injection E as <-.
      destruct (Qlt_le_dec 0 x) as [ | Hle ]; [ assumption | exfalso ].
      assert (E0 : (x == 0)%Q) by (apply Qle_antisym; assumption).
      unfold below in Ha, B. apply Qle_bool_iff in Ha.
      assert (C : Qle_bool ((acc + x) / t) u = true).
      { apply Qle_bool_iff. rewrite E0, Qplus_0_r. exact Ha. }
      congruence.
Qed.

Lemma filter_map_length {A B : Type} (f : B -> bool) (g : A -> B) (l : list A) :
  List.length (filter f (map g l)) = List.length (filter (fun a => f (g a)) l).
Proof.
  induction l as [ | a l IH]; cbn [map filter]; [ reflexivity | ].
  destruct (f (g a)); cbn [List.length]; rewrite IH; reflexivity.
Qed.

Lemma existsb_negative (p : list Q) :
  existsb (fun x => negb (Qle_bool 0 x)) p = false ->
  Forall (fun x => (0 <= x)%Q) p.
Proof.
  induction p as [ | x p IH]; cbn [existsb]; intros H; constructor.
  - apply orb_false_elim in H as [H _]. apply negb_false_iff in H.
    apply Qle_bool_iff. exact H.
  - apply orb_false_elim in H as [_ H]. exact (IH H).
Qed.

Lemma Qsum_positive (p : list Q) :
  Qle_bool (Qabs_diff (Qsum p) 1) atol = true -> (0 < Qsum p)%Q.
Proof.
  intros H. apply Qle_bool_iff in H. unfold Qabs_diff in H.
  destruct (Qle_bool (Qsum p) 1) eqn:L.
  - destruct (Qlt_le_dec 0 (Qsum p)) as [ | Hle]; [ assumption | exfalso ].
    assert (C : (1 <= 1 - Qsum p)%Q).
    { rewrite <- (Qplus_0_r 1) at 1. unfold Qminus. apply Qplus_le_r.
      apply (Qopp_le_compat (Qsum p) 0). exact Hle. }
    pose proof (Qle_trans _ _ _ C H) as C'. revert C'. unfold atol, Qle. cbn. lia.
  - assert (C : ~ (Qsum p <= 1)%Q)
      by (intros C; apply Qle_bool_iff in C; congruence).
    apply Qnot_le_lt in C. eapply Qlt_trans; [ | exact C ]. reflexivity.
Qed.

(** What [np.random.choice] returns sits at a position of positive
    weight. *)
Lemma np_random_choice_positive (d : list (string * Q)) (w : World)
      (x : string) (w' : World) :
  np_random_choice (map fst d) (map snd d) w = Ok (x, w') ->
  exists v, In (x, v) d /\ (0 < v)%Q.
Proof.
  unfold np_random_choice. destruct (map fst d) as [ | a0 a] eqn:Ea;
    [ discriminate | ]. rewrite <- Ea.
  destruct (negb _); [ discriminate | ].
  destruct (existsb _ _) eqn:Hneg; [ discriminate | ].
  destruct (negb (Qle_bool _ _)) eqn:Hsum; [ discriminate | ].
  apply negb_false_iff in Hsum. apply Qsum_positive in Hsum.
  apply existsb_negative in Hneg.
  intros H. step H.
  assert (Hu : (0 <= a1)%Q).
  { unfold np_random_sample in Hc. injection Hc as <- _.
    assert (Hr : 0 <= tape_hd (np_uniform w) mod 2 ^ 53 < 2 ^ 53)
      by (apply Z.mod_pos_bound; reflexivity).
    unfold Qle. cbn [Qnum Qden]. lia. }
  clear Hc. set (t := Qsum (map snd d)) in *.
  unfold searchsorted_right in H. rewrite filter_map_length in H.
  change (fun c => Qle_bool (c / t) a1) with (below t a1) in H.
  set (k := List.length (filter (below t a1) (cumsum 0 (map snd d)))) in *.
  destruct (nth_error (map fst d) k) as [y | ] eqn:Ek; [ | discriminate ].
  unfold ret in H. injection H as <- _.
  rewrite nth_error_map in Ek.
  destruct (nth_error d k) as [[y' v] | ] eqn:Ed; [ | discriminate ].
  cbn [option_map fst] in Ek. injection Ek as <-.
  exists v. split; [ eapply nth_error_In; exact Ed | ].
  apply (found_positive t a1 (map snd d) Hsum 0 v Hneg).
  - unfold below. apply Qle_bool_iff.
    unfold Qdiv. rewrite Qmult_0_l. exact Hu.
  - fold k. rewrite nth_error_map, Ed. reflexivity.
Qed.

Lemma generer_transaction_weight (cfg : Config) (w : World)
      (t : Transaction) (w' : World) :
  generer_transaction cfg w = Ok (t, w') ->
  exists v, In (transaction_type t, v) (TRANSACTION_TYPES cfg) /\ (0 < v)%Q.
Proof.
  unfold generer_transaction. intros H. do 8 step H. step H. injection H as <- _.
  cbn [transaction_type]. eapply np_random_choice_positive. exact Hc.
Qed.

Lemma generer_loop_weight (cfg : Config) (base : datetime) (count : nat) :
  forall acc w l w',
    generer_loop cfg base count acc w = Ok (l, w') ->
    exists l',
      l = acc ++ l'
      /\ Forall (fun r => exists v,
                     In (transaction_type r, v) (TRANSACTION_TYPES cfg)
                     /\ (0 < v)%Q) l'.
Proof.
  induction count as [ | count IH]; intros acc w l w' H; cbn [generer_loop] in H.
  - step H. injection H as <- _. exists []. rewrite app_nil_r. auto.
  - do 3 step H. apply IH in H. destruct H as (l' & -> & Hall).
    apply generer_transaction_weight in Hc.
    eexists. rewrite <- app_assoc. split; [ reflexivity | ].
    constructor; [ exact Hc | exact Hall ].
Qed.

(** X16.  Every row of a batch carries a transaction type of positive
    weight: a type whose weight is zero in [TRANSACTION_TYPES] is never
    generated. *)
Theorem drawn_type_has_positive_weight
        (cfg : Config) (argsort : list string -> list nat) (n : Z) (w : World)
        (df : DataFrame) (w' : World)
        (Hrun : generer_batch_transactions cfg argsort n w = Ok (df, w')) :
  Forall (fun r =>
            exists v, In (transaction_type r, v) (TRANSACTION_TYPES cfg)
                      /\ (0 < v)%Q) df.
Proof.
  unfold generer_batch_transactions in Hrun. do 3 step Hrun.
  apply lift_Ok in Hrun. destruct Hrun as [Hs _]. cbn [fst] in Hs.
  apply generer_loop_weight in Hc1. destruct Hc1 as (records & -> & Hall).
  cbn [app] in Hs. unfold sort_values_timestamp in Hs.
  destruct (pd_DataFrame records) as [ | r0 rows] eqn:Hdf; [ discriminate | ].
  injection Hs as <-. rewrite <- Hdf.
  apply Forall_forall. intros r Hr.
  apply take_In, pd_DataFrame_In in Hr. destruct Hr as (g & Hg & Hrow).
  rewrite Forall_forall in Hall. specialize (Hall g Hg).
  destruct Hrow as [-> | ->]; exact Hall.
Qed.

Lemma drawn_type_has_positive_weight_witness :
  exists df w',
    generer_batch_transactions CONFIG argsort_stable 6 sample_world = Ok (df, w')
    /\ Forall (fun r =>
                 exists v, In (transaction_type r, v) (TRANSACTION_TYPES CONFIG)
                           /\ (0 < v)%Q) df.
Proof.
  assert (H : is_Ok (generer_batch_transactions CONFIG argsort_stable 6 sample_world)
              = true) by (vm_compute; reflexivity).
  destruct (is_Ok_true _ H) as [[df w'] E].
  exists df, w'. split; [ exact E | ].
  exact (drawn_type_has_positive_weight CONFIG argsort_stable 6 sample_world
                                        df w' E).
Defined.

(** ** Identifiers and the clock *)

(** The record of rank [i] of the loop carries the millisecond reading of
    rank [2 i + 1] of the clock the loop starts with. *)
Lemma generer_loop_ids (cfg : Config) (base : datetime) (count : nat) :
  forall acc w l w',
    generer_loop cfg base count acc w = Ok (l, w') ->
    exists l',
      l = acc ++ l' /\ List.length l' = count
      /\ forall i r,
          nth_error l' i = Some r ->
          exists suffix,
            1000 <= suffix <= 9999
            /\ transaction_id r
               = format_transaction_id (epoch_ms (clock w (2 * i + 1)%nat)) suffix.
Proof.
  induction count as [ | count IH]; intros acc w l w' H; cbn [generer_loop] in H.
  - step H. injection H as <- _. exists []. rewrite app_nil_r.
    split; [ reflexivity | ]. split; [ reflexivity | ].
    intros [ | i] r E; discriminate E.
  - do 3 step H. apply IH in H. destruct H as (l' & -> & Hlen & Hids).
    apply generer_transaction_clock in Hc.
    destruct Hc as (_ & _ & (suffix & Hs & Hid) & Hclock).
    apply keeps_clock_randint in Hc0.
    apply lift_Ok in Hc1. destruct Hc1 as [_ Hw]. cbn [snd] in Hw. subst w2.
    eexists (_ :: l'). rewrite <- app_assoc. split; [ reflexivity | ].
    split; [ cbn [List.length]; rewrite Hlen; reflexivity | ].
    intros [ | i] r E; cbn [nth_error] in E.
    + injection E as <-. exists suffix. split; [ exact Hs | exact Hid ].
    + destruct (Hids i r E) as (s & Hs' & Hid'). exists s.
      split; [ exact Hs' | ]. rewrite Hid'. rewrite Hc0, Hclock.
      unfold tape_tl.
      replace (2 * S i + 1)%nat with (S (S (2 * i + 1))) by lia. reflexivity.
Qed.

Lemma pd_DataFrame_ids (records : list Transaction) :
  map transaction_id (pd_DataFrame records) = map transaction_id records.
Proof.
  unfold pd_DataFrame. destruct (existsb _ records); [ | reflexivity ].
  rewrite map_map. reflexivity.
Qed.

(** The identifiers of a batch, before the sort: the record of rank [i]
    carries the millisecond reading of rank [2 i + 2] of the clock. *)
Lemma batch_ids (cfg : Config) (argsort : list string -> list nat) (n : Z)
      (w : World) (df : DataFrame) (w' : World) :
  generer_batch_transactions cfg argsort n w = Ok (df, w') ->
  exists ids,
    List.length ids = Z.to_nat n
    /\ (forall i id,
           nth_error ids i = Some id ->
           exists suffix,
             1000 <= suffix <= 9999
             /\ id = format_transaction_id (epoch_ms (clock w (2 * i + 2)%nat))
                                           suffix)
    /\ (forall id, In id (map transaction_id df) -> In id ids)
    /\ (argsort_contract argsort -> Permutation (map transaction_id df) ids).
Proof.
  intros H. apply generer_batch_transactions_split in H.
  destruct H as (records & Hgen & Hs).
  unfold generated_records in Hgen. do 2 step Hgen.
  unfold datetime_now in Hc.
  destruct (datetime_in_range (local_now (tape_hd (clock w)))); [ | discriminate ].
  injection Hc as _ <-.
  apply lift_Ok in Hc0. destruct Hc0 as [_ Hw]. cbn [snd] in Hw. subst w1.
  apply generer_loop_ids in Hgen. destruct Hgen as (l' & -> & Hlen & Hids).
  cbn [app] in Hs.
  set (frame := pd_DataFrame l') in *.
  assert (Hdf : df = take frame (argsort (map timestamp frame))).
  { unfold sort_values_timestamp in Hs.
    destruct frame; [ discriminate | ]. injection Hs as <-. reflexivity. }
  clear Hs. subst df.
  exists (map transaction_id l').
  split; [ rewrite length_map; exact Hlen | ]. split; [ | split ].
  - intros i id E. rewrite nth_error_map in E.
    destruct (nth_error l' i) as [r | ] eqn:Er; [ | discriminate ].
    injection E as <-. destruct (Hids i r Er) as (s & Hs & Hid).
    exists s. split; [ exact Hs | ]. rewrite Hid.
    cbn [clock_tick clock]. unfold tape_tl.
    replace (2 * i + 2)%nat with (S (2 * i + 1)) by lia. reflexivity.
  - intros id Hin. rewrite <- (pd_DataFrame_ids l'). fold frame.
    apply in_map_iff in Hin. destruct Hin as (r & <- & Hr).
    apply in_map. eapply take_In. exact Hr.
  - intros Hsort.
    destruct (Hsort (map timestamp frame)) as [Hperm _].
    rewrite length_map in Hperm.
    rewrite <- (pd_DataFrame_ids l'). fold frame. apply Permutation_map.
    apply take_Permutation. exact Hperm.
Qed.

(** X17.  When the millisecond readings that the records of a batch take
    from the clock differ from one another, the identifiers of the batch
    are pairwise distinct, whatever the suffixes drawn.  (The reading of
    the record of rank [i] is the one of rank [2 i + 2].) *)
Theorem distinct_milliseconds_give_unique_ids
        (cfg : Config) (argsort : list string -> list nat) (n : Z) (w : World)
        (df : DataFrame) (w' : World)
        (Hsort : argsort_contract argsort)
        (Hms : forall i j : nat,
            (i < j < Z.to_nat n)%nat ->
            epoch_ms (clock w (2 * i + 2)%nat)
            <> epoch_ms (clock w (2 * j + 2)%nat))
        (Hrun : generer_batch_transactions cfg argsort n w = Ok (df, w')) :
  NoDup (map transaction_id df).
Proof.
  destruct (batch_ids _ _ _ _ _ _ Hrun) as (ids & Hlen & Hids & _ & Hperm).
  apply (Permutation_NoDup (Permutation_sym (Hperm Hsort))).
  apply NoDup_nth_error. intros i j Hi E.
  destruct (nth_error ids i) as [id | ] eqn:Ei;
    [ | apply nth_error_None in Ei; lia ].
  symmetry in E.
  assert (Hj : (j < List.length ids)%nat)
    by (apply nth_error_Some; rewrite E; discriminate).
  destruct (Hids i id Ei) as (s & _ & Hid).
  destruct (Hids j id E) as (s' & _ & Hid').
  rewrite Hid in Hid'. apply format_transaction_id_inj in Hid'.
  destruct Hid' as [Hm _].
  destruct (Nat.lt_trichotomy i j) as [L | [L | L]]; [ | exact L | ];
    exfalso.
  - apply (Hms i j); [ lia | exact Hm ].
  - apply (Hms j i); [ lia | symmetry; exact Hm ].
Qed.

Lemma distinct_milliseconds_give_unique_ids_witness :
  exists df w',
    generer_batch_transactions CONFIG argsort_stable 6 slow_world = Ok (df, w')
    /\ NoDup (map transaction_id df).
Proof.
  assert (H : is_Ok (generer_batch_transactions CONFIG argsort_stable 6 slow_world)
              = true) by (vm_compute; reflexivity).
  destruct (is_Ok_true _ H) as [[df w'] E].
  exists df, w'. split; [ exact E | ].
  apply (distinct_milliseconds_give_unique_ids CONFIG argsort_stable 6 slow_world
                                               df w').
  - exact argsort_stable_contract.
  - intros i j Hij. cbn [slow_world clock epoch_ms]. lia.
  - exact E.
Defined.

Lemma has_shape_d_pattern (s : string) :
  all_digits s = true -> has_shape (d_pattern (String.length s)) s = true.
Proof.
  induction s as [ | c s IH]; cbn [all_digits String.length d_pattern has_shape];
    [ reflexivity | ].
  intros H. apply andb_prop in H as [Hc Hs].
  change (Ascii.eqb "d" "d") with true. cbv iota. rewrite Hc, (IH Hs).
  reflexivity.
Qed.

(** X18.  When the millisecond readings that the records take from the
    clock have thirteen digits (from September 2001 to November 2286),
    every identifier of a batch has the fixed shape [TXN], thirteen digits,
    an underscore and four digits. *)
Theorem transaction_id_fixed_width
        (cfg : Config) (argsort : list string -> list nat) (n : Z) (w : World)
        (df : DataFrame) (w' : World)
        (Hepoch : forall i : nat,
            (i < Z.to_nat n)%nat ->
            1000000000000 <= epoch_ms (clock w (2 * i + 2)%nat)
            < 10000000000000)
        (Hrun : generer_batch_transactions cfg argsort n w = Ok (df, w')) :
  Forall (fun r => has_shape "TXNddddddddddddd_dddd" (transaction_id r) = true) df.
Proof.
  destruct (batch_ids _ _ _ _ _ _ Hrun) as (ids & Hlen & Hids & Hin & _).
  apply Forall_forall. intros r Hr.
  assert (Hid : In (transaction_id r) ids) by (apply Hin, in_map; exact Hr).
  apply In_nth_error in Hid. destruct Hid as [i Hi].
  assert (Hi' : (i < Z.to_nat n)%nat)
    by (rewrite <- Hlen; apply nth_error_Some; rewrite Hi; discriminate).
  destruct (Hids i _ Hi) as (s & Hs & ->).
  destruct (str_of_Z_digits 12 (epoch_ms (clock w (2 * i + 2)%nat)))
    as [Lm Dm];
    [ change (10 ^ Z.of_nat 12) with 1000000000000;
      change (10 ^ Z.of_nat 13) with 10000000000000; apply Hepoch; exact Hi' | ].
  destruct (str_of_Z_digits 3 s) as [Ls Ds];
    [ change (10 ^ Z.of_nat 3) with 1000;
      change (10 ^ Z.of_nat 4) with 10000; lia | ].
  unfold format_transaction_id.
  apply (has_shape_append "TXN" "ddddddddddddd_dddd"); [ reflexivity | ].
  apply (has_shape_append "ddddddddddddd" "_dddd").
  { change "ddddddddddddd" with (d_pattern 13). rewrite <- Lm.
    apply has_shape_d_pattern. exact Dm. }
  apply (has_shape_append "_" "dddd"); [ reflexivity | ].
  change "dddd" with (d_pattern 4). rewrite <- Ls.
  apply has_shape_d_pattern. exact Ds.
Qed.

Lemma transaction_id_fixed_width_witness :
  exists df w',
    generer_batch_transactions CONFIG argsort_stable 6 slow_world = Ok (df, w')
    /\ Forall (fun r =>
                 has_shape "TXNddddddddddddd_dddd" (transaction_id r) = true) df.
Proof.
  assert (H : is_Ok (generer_batch_transactions CONFIG argsort_stable 6 slow_world)
              = true) by (vm_compute; reflexivity).
  destruct (is_Ok_true _ H) as [[df w'] E].
  exists df, w'. split; [ exact E | ].
  apply (transaction_id_fixed_width CONFIG argsort_stable 6 slow_world df w').
  - intros i Hi. cbn [slow_world clock epoch_ms]. lia.
  - exact E.
Defined.

(** ** Timestamps and offsets *)

(** X19.  In the window of a batch that returned, the text of a timestamp
    determines the offset it was made of: two offsets of [0 .. 7*24] hours
    give the same text only when they are equal.  Rows share a timestamp
    exactly when they drew the same offset. *)
Theorem timestamp_determines_offset
        (cfg : Config) (argsort : list string -> list nat) (n : Z) (w : World)
        (df : DataFrame) (w' : World) (k1 k2 : Z)
        (Hrun : generer_batch_transactions cfg argsort n w = Ok (df, w'))
        (Hk1 : 0 <= k1 <= 7 * 24) (Hk2 : 0 <= k2 <= 7 * 24) :
  let window_start := local_now (tape_hd (clock w)) - timedelta_days 7 in
  strftime (window_start + timedelta_hours k1)
  = strftime (window_start + timedelta_hours k2)
  <-> k1 = k2.
Proof.
  intros window_start.
  destruct (batch_offsets _ _ _ _ _ _ Hrun) as (Hws & Hwe & _).
  fold window_start in Hws, Hwe.
  assert (R : forall k, 0 <= k <= 7 * 24 ->
                        datetime_in_range (window_start + timedelta_hours k) = true).
  { intros k Hk.
    apply (datetime_in_range_between window_start
                                     (window_start + timedelta_days 7));
      try assumption.
    unfold timedelta_hours, timedelta_days, US_PER_DAY, US_PER_HOUR,
      US_PER_SECOND. lia. }
  split; [ | intros ->; reflexivity ].
  intros E.
  assert (L1 : str_le (strftime (window_start + timedelta_hours k1))
                      (strftime (window_start + timedelta_hours k2)))
    by (rewrite E; apply str_le_refl).
  assert (L2 : str_le (strftime (window_start + timedelta_hours k2))
                      (strftime (window_start + timedelta_hours k1)))
    by (rewrite E; apply str_le_refl).
  apply strftime_le_iff in L1; try (apply R; assumption).
  apply strftime_le_iff in L2; try (apply R; assumption).
  revert L1 L2. unfold timedelta_hours, US_PER_HOUR, US_PER_SECOND. dlia.
Qed.

Lemma timestamp_determines_offset_witness :
  exists df w',
    generer_batch_transactions CONFIG argsort_stable 6 sample_world = Ok (df, w')
    /\ (strftime (sample_now - timedelta_days 7 + timedelta_hours 17)
        = strftime (sample_now - timedelta_days 7 + timedelta_hours 17)
        <-> 17 = 17).
Proof.
  assert (H : is_Ok (generer_batch_transactions CONFIG argsort_stable 6 sample_world)
              = true) by (vm_compute; reflexivity).
  destruct (is_Ok_true _ H) as [[df w'] E].
  exists df, w'. split; [ exact E | ].
  apply (timestamp_determines_offset CONFIG argsort_stable 6 sample_world
                                     df w' 17 17 E); lia.
Defined.
